(** * DMPOS activation service: a shallow embedding of
      [pos-backend/services/activationService.js] and of the activation
      routes of [pos-backend/index.js], with the properties of the
      licensing subsystem proved about it.

    Conventions of the embedding.
    - A JavaScript string is represented by its UTF-8 encoding, a
      [string] of bytes.  This is what [crypto]'s [update] hashes; the
      hyphen and the ASCII classes of the serial pattern are single
      bytes of that encoding and never occur inside a multi-byte
      sequence, so [split('-')], [RegExp.test] and [===] against an
      ASCII string act on the encoding as they act on the code units.
    - SQLite INTEGER columns and JavaScript numbers are integers [Z];
      the counter starts at 0 and moves by one, far below 2^53.  The
      activated counter grows without limit: what is said of the total
      such a call reports, a sum of JavaScript numbers, carries the
      bound [JsNumber.isSafeInteger].
    - Timestamps are milliseconds since the epoch, as [Date.now()]
      gives them.  A statement about [new Date(t)] on an arbitrary
      stored value carries the bound [JsNumber.isDate].
    - Every asynchronous function becomes a function from the world
      (database and effect trace) to a settled promise and a world. *)

From Stdlib Require Import ZArith List String Ascii Bool Lia.
From Stdlib Require Import DecimalString.
Import ListNotations.
Open Scope string_scope.
Open Scope list_scope.
Open Scope Z_scope.

(* ================================================================== *)
(** ** JavaScript string primitives used by the service *)

Module JsString.

(** [s.split(sep)] for a one-character separator: never the empty list,
    the empty string splits into one empty segment. *)
Fixpoint split (sep : ascii) (s : string) : list string :=
  match s with
  | EmptyString => [EmptyString]
  | String c rest =>
      if Ascii.eqb c sep then EmptyString :: split sep rest
      else match split sep rest with
           | [] => [String c EmptyString]
           | seg :: segs => String c seg :: segs
           end
  end.

Definition is_digit (c : ascii) : bool :=
  let n := nat_of_ascii c in (48 <=? n)%nat && (n <=? 57)%nat.

Definition is_upper (c : ascii) : bool :=
  let n := nat_of_ascii c in (65 <=? n)%nat && (n <=? 90)%nat.

Definition is_lower (c : ascii) : bool :=
  let n := nat_of_ascii c in (97 <=? n)%nat && (n <=? 122)%nat.

(** The character class [[A-Z0-9]]. *)
Definition is_upper_alnum (c : ascii) : bool := is_upper c || is_digit c.

Definition upper_char (c : ascii) : ascii :=
  if is_lower c then ascii_of_nat (nat_of_ascii c - 32) else c.

(** [s.toUpperCase()]; the service applies it to a hex digest only, so
    the ASCII letters are all that matters. *)
Fixpoint toUpperCase (s : string) : string :=
  match s with
  | EmptyString => EmptyString
  | String c rest => String (upper_char c) (toUpperCase rest)
  end.

Fixpoint all_chars (p : ascii -> bool) (s : string) : bool :=
  match s with
  | EmptyString => true
  | String c rest => p c && all_chars p rest
  end.

(** No character of [s] is the separator. *)
Definition free_of (sep : ascii) (s : string) : bool :=
  all_chars (fun ch => negb (Ascii.eqb ch sep)) s.

(** [hay.includes(needle)]. *)
Fixpoint includes (needle hay : string) : bool :=
  String.prefix needle hay ||
  match hay with
  | EmptyString => false
  | String _ rest => includes needle rest
  end.

(** [a || b] on strings that may be absent: [undefined], [null] and the
    empty string are falsy. *)
Definition or_else (a : option string) (b : string) : string :=
  match a with
  | Some s => if String.eqb s "" then b else s
  | None => b
  end.

(** [a === s] for a value that may be absent. *)
Definition equals (a : option string) (s : string) : bool :=
  match a with
  | Some x => String.eqb x s
  | None => false
  end.

(** Template interpolation of an integer. *)
Definition of_Z (z : Z) : string := NilEmpty.string_of_int (Z.to_int z).

End JsString.

(* ================================================================== *)
(** ** JavaScript numbers and dates *)

Module JsNumber.

(** [Number.MAX_SAFE_INTEGER], 2^53 - 1.  On integers of at most this
    magnitude [a + 1] on JavaScript numbers is [a + 1] on [Z]; beyond
    it the sum is rounded to a representable number, so that
    [2^53 + 1] evaluates to [2^53]. *)
Definition MAX_SAFE_INTEGER : Z := 9007199254740991.

(** [Number.isSafeInteger] on an integer. *)
Definition isSafeInteger (n : Z) : bool := Z.abs n <=? MAX_SAFE_INTEGER.

(** The largest time value of a [Date], 8.64e15 ms either side of the
    epoch.  [new Date(t)] beyond it is an invalid date, and [>] on an
    invalid date is [false]. *)
Definition MAX_TIME : Z := 8640000000000000.

Definition isDate (t : Z) : bool := Z.abs t <=? MAX_TIME.

End JsNumber.

(* ================================================================== *)
(** ** [crypto.createHash('md5')]: the MD5 digest of RFC 1321 *)

Module MD5.

Definition w32 (x : Z) : Z := x mod 4294967296.

Definition rotl (x c : Z) : Z :=
  w32 (Z.lor (Z.shiftl x c) (Z.shiftr x (32 - c))).

Definition shifts : list Z :=
  [7; 12; 17; 22; 7; 12; 17; 22; 7; 12; 17; 22; 7; 12; 17; 22;
   5; 9; 14; 20; 5; 9; 14; 20; 5; 9; 14; 20; 5; 9; 14; 20;
   4; 11; 16; 23; 4; 11; 16; 23; 4; 11; 16; 23; 4; 11; 16; 23;
   6; 10; 15; 21; 6; 10; 15; 21; 6; 10; 15; 21; 6; 10; 15; 21].

Definition sines : list Z :=
  [0xd76aa478; 0xe8c7b756; 0x242070db; 0xc1bdceee;
   0xf57c0faf; 0x4787c62a; 0xa8304613; 0xfd469501;
   0x698098d8; 0x8b44f7af; 0xffff5bb1; 0x895cd7be;
   0x6b901122; 0xfd987193; 0xa679438e; 0x49b40821;
   0xf61e2562; 0xc040b340; 0x265e5a51; 0xe9b6c7aa;
   0xd62f105d; 0x02441453; 0xd8a1e681; 0xe7d3fbc8;
   0x21e1cde6; 0xc33707d6; 0xf4d50d87; 0x455a14ed;
   0xa9e3e905; 0xfcefa3f8; 0x676f02d9; 0x8d2a4c8a;
   0xfffa3942; 0x8771f681; 0x6d9d6122; 0xfde5380c;
   0xa4beea44; 0x4bdecfa9; 0xf6bb4b60; 0xbebfbc70;
   0x289b7ec6; 0xeaa127fa; 0xd4ef3085; 0x04881d05;
   0xd9d4d039; 0xe6db99e5; 0x1fa27cf8; 0xc4ac5665;
   0xf4292244; 0x432aff97; 0xab9423a7; 0xfc93a039;
   0x655b59c3; 0x8f0ccc92; 0xffeff47d; 0x85845dd1;
   0x6fa87e4f; 0xfe2ce6e0; 0xa3014314; 0x4e0811a1;
   0xf7537e82; 0xbd3af235; 0x2ad7d2bb; 0xeb86d391].

Definition lnot32 (x : Z) : Z := Z.lxor x 0xffffffff.

(** The mixing function and the message index of step [i]. *)
Definition mix (i b c d : Z) : Z * Z :=
  if i <? 16 then (Z.lor (Z.land b c) (Z.land (lnot32 b) d), i)
  else if i <? 32 then
    (Z.lor (Z.land d b) (Z.land (lnot32 d) c), (5 * i + 1) mod 16)
  else if i <? 48 then (Z.lxor (Z.lxor b c) d, (3 * i + 5) mod 16)
  else (Z.lxor c (Z.lor b (lnot32 d)), (7 * i) mod 16).

Definition regs : Type := Z * Z * Z * Z.

Definition step (m : list Z) (st : regs) (i : nat) : regs :=
  let '(a, b, c, d) := st in
  let '(f, g) := mix (Z.of_nat i) b c d in
  let f' := w32 (f + a + nth i sines 0 + nth (Z.to_nat g) m 0) in
  (d, w32 (b + rotl f' (nth i shifts 0)), b, c).

Definition block (st : regs) (m : list Z) : regs :=
  let '(a0, b0, c0, d0) := st in
  let '(a, b, c, d) := fold_left (step m) (seq 0 64) st in
  (w32 (a0 + a), w32 (b0 + b), w32 (c0 + c), w32 (d0 + d)).

(** Little-endian words of a byte list. *)
Fixpoint words (bs : list Z) : list Z :=
  match bs with
  | b0 :: b1 :: b2 :: b3 :: rest =>
      (b0 + 256 * b1 + 65536 * b2 + 16777216 * b3) :: words rest
  | _ => []
  end.

Fixpoint chunks (n : nat) (ws : list Z) : list (list Z) :=
  match n with
  | O => []
  | S n' => firstn 16 ws :: chunks n' (skipn 16 ws)
  end.

Definition le_bytes (count : nat) (x : Z) : list Z :=
  map (fun k => (x / 2 ^ (8 * Z.of_nat k)) mod 256) (seq 0 count).

Definition pad (bs : list Z) : list Z :=
  let len := Z.of_nat (List.length bs) in
  bs ++ [128] ++ repeat 0 (Z.to_nat ((55 - len) mod 64))
     ++ le_bytes 8 (8 * len).

Definition init : regs := (0x67452301, 0xefcdab89, 0x98badcfe, 0x10325476).

Definition digest (bs : list Z) : list Z :=
  let ws := words (pad bs) in
  let '(a, b, c, d) :=
    fold_left block (chunks (List.length ws / 16) ws) init in
  le_bytes 4 a ++ le_bytes 4 b ++ le_bytes 4 c ++ le_bytes 4 d.

Definition hex_digit (n : Z) : ascii :=
  ascii_of_nat (Z.to_nat (if n <? 10 then 48 + n else 87 + n)).

Fixpoint hex (bs : list Z) : string :=
  match bs with
  | [] => EmptyString
  | b :: rest => String (hex_digit (b / 16)) (String (hex_digit (b mod 16)) (hex rest))
  end.

Definition bytes_of (s : string) : list Z :=
  map (fun c => Z.of_nat (nat_of_ascii c)) (list_ascii_of_string s).

(** [crypto.createHash('md5').update(s).digest('hex')]. *)
Definition md5_hex (s : string) : string := hex (digest (bytes_of s)).

End MD5.

(* ================================================================== *)
(** ** The fragment of regular expressions the service uses

    An anchored pattern [^ item ... item $] whose items are a literal
    or a character class repeated a fixed number of times.  With fixed
    counts there is one way to match, so matching is a single pass. *)

Module Pattern.

Inductive cls : Type :=
| Digit        (* \d *)
| UpperAlnum.  (* [A-Z0-9] *)

Inductive item : Type :=
| Lit (s : string)
| Rep (c : cls) (n : nat).

Definition in_cls (c : cls) (ch : ascii) : bool :=
  match c with
  | Digit => JsString.is_digit ch
  | UpperAlnum => JsString.is_upper_alnum ch
  end.

(** Each consumer returns what is left of the input after the match. *)
Fixpoint eat_lit (l s : string) : option string :=
  match l, s with
  | EmptyString, _ => Some s
  | String a l', String b s' => if Ascii.eqb a b then eat_lit l' s' else None
  | String _ _, EmptyString => None
  end.

Fixpoint eat_rep (c : cls) (n : nat) (s : string) : option string :=
  match n, s with
  | O, _ => Some s
  | S n', String ch s' => if in_cls c ch then eat_rep c n' s' else None
  | S _, EmptyString => None
  end.

Fixpoint eat (p : list item) (s : string) : option string :=
  match p with
  | [] => Some s
  | Lit l :: p' =>
      match eat_lit l s with Some s' => eat p' s' | None => None end
  | Rep c n :: p' =>
      match eat_rep c n s with Some s' => eat p' s' | None => None end
  end.

(** [/^p$/.test(s)] *)
Definition test (p : list item) (s : string) : bool :=
  match eat p s with
  | Some EmptyString => true
  | _ => false
  end.

End Pattern.

(* ================================================================== *)
(** ** Serial number codec *)

(** [/^DMPOS-\d{4}-[A-Z0-9]{6}-[A-Z0-9]{4}$/] *)
Definition pattern : list Pattern.item :=
  [Pattern.Lit "DMPOS-"; Pattern.Rep Pattern.Digit 4; Pattern.Lit "-";
   Pattern.Rep Pattern.UpperAlnum 6; Pattern.Lit "-";
   Pattern.Rep Pattern.UpperAlnum 4].

Definition isValidSNFormat (serialNumber : string) : bool :=
  Pattern.test pattern serialNumber.

(** The [try]/[catch] of the source guards against a non-string
    argument; on a string nothing in the body throws. *)
Definition isValidCRC (serialNumber : string) : bool :=
  match JsString.split "-" serialNumber with
  | [p0; p1; p2; p3] =>
      let baseString := (p0 ++ "-" ++ p1 ++ "-" ++ p2 ++ "-")%string in
      let expectedCRC :=
        JsString.toUpperCase (String.substring 0 4 (MD5.md5_hex baseString)) in
      String.eqb p3 expectedCRC
  | _ => false
  end.

(* ================================================================== *)
(** ** The activation database ([initDB]) *)

(** The row of [transaction_counter]; the service only ever addresses
    [id = 1]. *)
Record counter_row : Type := mkCounter {
  total_transactions : Z;
  license_status : string;
  serial_number : option string;
  hardware_id : option string;
  activation_date : option Z;
  last_validation : option Z;
  temporary_until : option Z
}.

Record preloaded_row : Type := mkPreloaded {
  p_serial_number : string;
  p_valid : bool;
  p_max_installations : Z;
  p_license_type : option string
}.

Record queue_row : Type := mkQueue {
  q_id : Z;
  q_serial_number : string;
  q_hardware_id : string;
  q_timestamp : Z;
  q_attempts : Z;
  q_status : string
}.

(** [queue_seq] is the AUTOINCREMENT sequence of [validation_queue]:
    the largest [id] ever handed out. *)
Record db : Type := mkDb {
  transaction_counter : option counter_row;
  preloaded_sns : list preloaded_row;
  validation_queue : list queue_row;
  queue_seq : Z
}.

Definition maxTrialTransactions : Z := 99.

(** [INSERT OR IGNORE INTO transaction_counter (id, total_transactions)
    VALUES (1, 0)] with the column defaults. *)
Definition fresh_counter : counter_row :=
  mkCounter 0 "trial" None None None None None.

Definition testSNs : list string :=
  ["DMPOS-2024-000001-4005"; "DMPOS-2024-000002-53D4";
   "DMPOS-2024-000003-E2C3"; "DMPOS-2024-000004-FDD2";
   "DMPOS-2024-000005-F5C1"].

(** The database after [initDB] on a new installation.  The column
    [generated_date] of [preloaded_sns] and the table
    [local_activations] are created and never read or written by the
    service afterwards; they are left out. *)
Definition initDB : db :=
  mkDb (Some fresh_counter)
       (map (fun sn => mkPreloaded sn true 3 (Some "standard")) testSNs)
       [] 0.

(* ================================================================== *)
(** ** The environment of one call *)

Inductive table : Type := TransactionCounter | PreloadedSns | ValidationQueue.

(** The observable effects of a call, in the order they happen. *)
Inductive event : Type :=
| EvFingerprint
| EvFetch (url : string)
| EvDbGet (t : table)
| EvDbRun (t : table).

(** The SQL statements of the service, so that a fault can be injected
    into each. *)
Inductive db_op : Type :=
| GetCounter        (* SELECT * FROM transaction_counter WHERE id = 1 *)
| IncrCounter       (* UPDATE ... SET total_transactions = total_transactions + 1 *)
| SetCounter        (* UPDATE ... SET total_transactions = ? *)
| GetPreloaded      (* SELECT * FROM preloaded_sns WHERE serial_number = ? *)
| InsertQueue       (* INSERT OR REPLACE INTO validation_queue ... *)
| UpdateActivation  (* UPDATE ... SET license_status = 'activated', ... *)
| ResetCounter.     (* UPDATE ... SET total_transactions = 0, ... *)

(** What [fetch] gives: it throws, or a response with a status and a
    body that [json()] can parse or not. *)
Inductive fetch_outcome (B : Type) : Type :=
| NetworkError (msg : string)
| Response (status : Z) (body : option B).
Arguments NetworkError {B} msg.
Arguments Response {B} status body.

(** The fields [validateOnline] reads of the two server replies, by
    truthiness where it tests them. *)
Record validate_body : Type := mkValidateBody {
  vb_valid : bool;
  vb_reason : option string;
  vb_existing : bool;
  vb_canActivate : bool;
  vb_type : option string;
  vb_message : option string;
  vb_installations : option (list string)
}.

Record activate_body : Type := mkActivateBody {
  ab_success : bool;
  ab_message : option string
}.

Record env : Type := mkEnv {
  now : Z;                                   (* Date.now() *)
  railwayUrl : string;
  fingerprint : string;                      (* what the hardware probe yields *)
  validate_reply : fetch_outcome validate_body;
  activate_reply : fetch_outcome activate_body;
  db_error : db_op -> option string          (* the [err] of a sqlite callback *)
}.

Record world : Type := mkWorld {
  store : db;
  trace : list event
}.

(* ================================================================== *)
(** ** Promises *)

Record js_error : Type := mkError {
  message : string;
  code : option string;
  installations : list string
}.

Definition Error (msg : string) : js_error := mkError msg None [].

(** A promise settles; an exception thrown inside a sqlite callback is
    outside every promise and stays uncaught. *)
Inductive settled (A : Type) : Type :=
| Resolved (a : A)
| Rejected (e : js_error)
| Uncaught (e : js_error).
Arguments Resolved {A} a.
Arguments Rejected {A} e.
Arguments Uncaught {A} e.

Definition M (A : Type) : Type := world -> settled A * world.

Definition ret {A} (a : A) : M A := fun w => (Resolved a, w).

Definition throw {A} (e : js_error) : M A := fun w => (Rejected e, w).

Definition bind {A B} (c : M A) (k : A -> M B) : M B :=
  fun w =>
    match c w with
    | (Resolved a, w') => k a w'
    | (Rejected e, w') => (Rejected e, w')
    | (Uncaught e, w') => (Uncaught e, w')
    end.

(** [try { c } catch (error) { h error }] *)
Definition catch {A} (c : M A) (h : js_error -> M A) : M A :=
  fun w =>
    match c w with
    | (Rejected e, w') => h e w'
    | r => r
    end.

Notation "x <- c ;; k" := (bind c (fun x => k))
  (at level 61, c at next level, right associativity).
Notation "c ;;; k" := (bind c (fun _ => k))
  (at level 61, right associativity).

Definition emit (ev : event) : M unit :=
  fun w => (Resolved tt, mkWorld (store w) (trace w ++ [ev])).

Definition read_db : M db := fun w => (Resolved (store w), w).

Definition write_db (f : db -> db) : M unit :=
  fun w => (Resolved tt, mkWorld (f (store w)) (trace w)).

(** [WHERE id = 1]: the statement changes the row when it is there. *)
Definition update_counter (f : counter_row -> counter_row) (d : db) : db :=
  mkDb (option_map f (transaction_counter d))
       (preloaded_sns d) (validation_queue d) (queue_seq d).

(* ================================================================== *)
(** ** [ActivationService] *)

(** [generateHardwareFingerprint] never rejects: a failure of the
    probes falls back to [createBasicFingerprint].  The probes read the
    machine; what they yield is the environment's. *)
Definition generateHardwareFingerprint (e : env) : M string :=
  emit EvFingerprint ;;; ret (fingerprint e).

(** *** incrementTransaction *)

Inductive remaining : Type :=
| Unlimited            (* 'unlimited' *)
| Remaining (n : Z).

Record increment_result : Type := mkIncrement {
  i_success : bool;
  i_total : Z;
  i_remaining : remaining;
  i_warning : option string;
  i_status : string;
  i_message : option string
}.

(** Between the callback of [db.get] and the callback of [db.run] the
    call holds what its closure captured. *)
Inductive inc_phase : Type :=
| IncUpdating (activated : bool) (currentCount : Z)
| IncSettled (o : settled increment_result).

(** The callback of [db.get]: decide on the row that was read. *)
Definition inc_on_row (e : env) (w : world) : inc_phase * world :=
  let w1 := mkWorld (store w) (trace w ++ [EvDbGet TransactionCounter]) in
  match db_error e GetCounter with
  | Some msg => (IncSettled (Rejected (Error msg)), w1)
  | None =>
      match transaction_counter (store w) with
      | None =>
          (IncSettled (Uncaught (Error "Cannot read properties of undefined")), w1)
      | Some row =>
          let currentCount := total_transactions row in
          let licenseStatus := license_status row in
          if String.eqb licenseStatus "activated" then
            (IncUpdating true currentCount, w1)
          else if currentCount >=? maxTrialTransactions then
            (IncSettled (Rejected (Error "TRIAL_LIMIT_REACHED")), w1)
          else (IncUpdating false currentCount, w1)
      end
  end.

Definition set_total (n : Z) (r : counter_row) : counter_row :=
  mkCounter n (license_status r) (serial_number r) (hardware_id r)
            (activation_date r) (last_validation r) (temporary_until r).

(** The columns of the counter row that [incrementTransaction] does not
    write. *)
Definition licence_columns (r : counter_row) :=
  (license_status r, serial_number r, hardware_id r,
   activation_date r, last_validation r, temporary_until r).

(** The [UPDATE] that was issued and its callback.  The activated
    branch counts in SQL, [total_transactions + 1] on the stored
    integer, and reports [currentCount + 1], a sum of JavaScript
    numbers: the sum of [Z] for a count within
    [JsNumber.MAX_SAFE_INTEGER], which is where the statements about
    the reported total are made. *)
Definition inc_on_update (e : env) (activated : bool) (currentCount : Z)
  : M increment_result :=
  if activated then
    emit (EvDbRun TransactionCounter) ;;;
    match db_error e IncrCounter with
    | Some msg => throw (Error msg)
    | None =>
        write_db (update_counter
                    (fun r => set_total (total_transactions r + 1) r)) ;;;
        ret (mkIncrement true (currentCount + 1) Unlimited None "activated" None)
    end
  else
    let newCount := currentCount + 1 in
    emit (EvDbRun TransactionCounter) ;;;
    match db_error e SetCounter with
    | Some msg => throw (Error msg)
    | None =>
        write_db (update_counter (set_total newCount)) ;;;
        let remaining := maxTrialTransactions - newCount in
        let warning :=
          if remaining <=? 4 then Some "critical"
          else if remaining <=? 9 then Some "high"
          else if remaining <=? 19 then Some "medium"
          else None in
        ret (mkIncrement true newCount (Remaining remaining) warning "trial"
               (if remaining =? 0 then
                  Some "Trial limit reached - activation required"
                else if remaining <=? 4 then
                  Some ("Only " ++ JsString.of_Z remaining
                          ++ " transactions left!")%string
                else if remaining <=? 19 then
                  Some (JsString.of_Z remaining ++ " transactions remaining")%string
                else None))
    end.

(** One call that runs undisturbed from its [db.get] to its [db.run]. *)
Definition incrementTransaction (e : env) : M increment_result :=
  fun w =>
    match inc_on_row e w with
    | (IncSettled o, w') => (o, w')
    | (IncUpdating activated currentCount, w') =>
        inc_on_update e activated currentCount w'
    end.

(** *** validateOnline *)

Record validation : Type := mkValidation {
  v_success : bool;
  v_code : option string;
  v_type : option string;
  v_temporary : bool;
  v_expires : option Z;
  v_message : option string;
  v_installations : option (list string)
}.

Definition fetch {B} (url : string) (reply : fetch_outcome B)
  : M (Z * option B) :=
  emit (EvFetch url) ;;;
  match reply with
  | NetworkError msg => throw (Error msg)
  | Response status body => ret (status, body)
  end.

(** [res.ok] *)
Definition ok (status : Z) : bool := (200 <=? status) && (status <=? 299).

(** [await res.json()] *)
Definition json {B} (body : option B) : M B :=
  match body with
  | Some b => ret b
  | None => throw (Error "Unexpected token in JSON")
  end.

Definition validateOnline (e : env) (serialNumber hardwareId computerInfo : string)
  : M validation :=
  catch
    (r <- fetch (railwayUrl e ++ "/api/v1/license/validate")%string
               (validate_reply e) ;;
     let '(status, body) := r in
     if negb (ok status) then
       throw (Error ("Server responded with " ++ JsString.of_Z status)%string)
     else
       validate <- json body ;;
       if negb (vb_valid validate) then
         if JsString.equals (vb_reason validate) "MAX_INSTALLATIONS_REACHED" then
           ret (mkValidation false (Some "MAX_INSTALLATIONS_REACHED") None
                  false None (Some "Maximum installations reached")
                  (Some (match vb_installations validate with
                         | Some l => l
                         | None => []
                         end)))
         else
           ret (mkValidation false
                  (Some (JsString.or_else (vb_reason validate) "SN_NOT_VALID"))
                  None false None
                  (Some (JsString.or_else (vb_reason validate)
                           "Serial number not valid"))
                  None)
       else if vb_existing validate then
         ret (mkValidation true None
                (Some (JsString.or_else (vb_type validate) "standard"))
                false None
                (Some (JsString.or_else (vb_message validate)
                         "Already activated on this hardware"))
                None)
       else if vb_canActivate validate then
         r2 <- fetch (railwayUrl e ++ "/api/v1/license/activate")%string
                     (activate_reply e) ;;
         let '(status2, body2) := r2 in
         if negb (ok status2) then
           if status2 =? 409 then
             ret (mkValidation false (Some "MAX_INSTALLATIONS_REACHED") None
                    false None (Some "Maximum installations reached") None)
           else
             throw (Error ("Server responded with " ++ JsString.of_Z status2)%string)
         else
           activate <- json body2 ;;
           if ab_success activate then
             ret (mkValidation true None (Some "standard") false None
                    (Some (JsString.or_else (ab_message activate)
                             "Activated successfully"))
                    None)
           else
             ret (mkValidation false (Some "ACTIVATE_FAILED") None false None
                    (Some (JsString.or_else (ab_message activate)
                             "Activation failed on server"))
                    None)
       else
         ret (mkValidation true None
                (Some (JsString.or_else (vb_type validate) "standard"))
                false None (Some "Validated online successfully") None))
    (fun error =>
       throw (Error ("Online validation failed: " ++ message error)%string)).

(** *** queueForOnlineValidation *)

(** [id INTEGER PRIMARY KEY AUTOINCREMENT]: one more than every id in
    the table and every id handed out before. *)
Definition next_queue_id (d : db) : Z :=
  Z.max (queue_seq d) (fold_right Z.max 0 (map q_id (validation_queue d))) + 1.

(** [INSERT OR REPLACE]: the rows that collide with the new one on a
    uniqueness constraint go, then the new row is added.  The primary
    key [id] is the only such constraint of [validation_queue]. *)
Definition insert_or_replace (r : queue_row) (rows : list queue_row)
  : list queue_row :=
  filter (fun x => negb (q_id x =? q_id r)) rows ++ [r].

Definition enqueue (e : env) (serialNumber hardwareId : string) (d : db) : db :=
  let id := next_queue_id d in
  mkDb (transaction_counter d) (preloaded_sns d)
       (insert_or_replace
          (mkQueue id serialNumber hardwareId (now e) 0 "pending")
          (validation_queue d))
       id.

(** The caller does not await it and an error is only logged. *)
Definition queueForOnlineValidation (e : env) (serialNumber hardwareId : string)
  : M unit :=
  emit (EvDbRun ValidationQueue) ;;;
  match db_error e InsertQueue with
  | Some _ => ret tt
  | None => write_db (enqueue e serialNumber hardwareId)
  end.

(** *** validateOffline *)

Definition thirty_days : Z := 30 * 24 * 60 * 60 * 1000.

Definition lookup_preloaded (serialNumber : string) (d : db)
  : option preloaded_row :=
  find (fun r => String.eqb (p_serial_number r) serialNumber) (preloaded_sns d).

Definition validateOffline (e : env) (serialNumber hardwareId : string)
  : M validation :=
  emit (EvDbGet PreloadedSns) ;;;
  match db_error e GetPreloaded with
  | Some msg => throw (Error msg)
  | None =>
      d <- read_db ;;
      let row := lookup_preloaded serialNumber d in
      if match row with Some r => p_valid r | None => false end then
        ret (mkValidation true None
               (match row with Some r => p_license_type r | None => None end)
               false None
               (Some "Validated offline - will sync when online") None)
      else
        queueForOnlineValidation e serialNumber hardwareId ;;;
        let expires := now e + thirty_days in
        ret (mkValidation true None (Some "unknown") true (Some expires)
               (Some "Temporary activation - requires online verification within 30 days")
               None)
  end.

(** *** activateLicense *)

Record activation : Type := mkActivation {
  a_success : bool;
  a_serialNumber : string;
  a_hardwareId : string;
  a_type : string;
  a_temporary : bool;
  a_expires : option Z;
  a_message : string
}.

Definition set_activated (e : env) (serialNumber hardwareId : string)
  (temporaryUntil : option Z) (r : counter_row) : counter_row :=
  mkCounter (total_transactions r) "activated" (Some serialNumber)
            (Some hardwareId) (Some (now e)) (Some (now e)) temporaryUntil.

Definition activateLicense (e : env) (serialNumber computerInfo : string)
  : M activation :=
  if negb (isValidSNFormat serialNumber) then
    throw (Error "Invalid serial number format")
  else if negb (isValidCRC serialNumber) then
    throw (Error "Invalid serial number checksum")
  else
    hardwareId <- generateHardwareFingerprint e ;;
    validationResult <-
      catch (validateOnline e serialNumber hardwareId computerInfo)
            (fun onlineError => validateOffline e serialNumber hardwareId) ;;
    if v_success validationResult then
      emit (EvDbRun TransactionCounter) ;;;
      match db_error e UpdateActivation with
      | Some msg => throw (Error msg)
      | None =>
          write_db (update_counter
                      (set_activated e serialNumber hardwareId
                         (if v_temporary validationResult
                          then v_expires validationResult else None))) ;;;
          ret (mkActivation true serialNumber hardwareId
                 (JsString.or_else (v_type validationResult) "standard")
                 (v_temporary validationResult)
                 (v_expires validationResult)
                 (JsString.or_else (v_message validationResult)
                    "Activation successful"))
      end
    else
      if JsString.equals (v_code validationResult) "MAX_INSTALLATIONS_REACHED" then
        throw (mkError
                 (JsString.or_else (v_message validationResult)
                    "Maximum installations reached")
                 (Some "MAX_INSTALLATIONS_REACHED")
                 (match v_installations validationResult with
                  | Some l => l
                  | None => []
                  end))
      else
        throw (Error (JsString.or_else (v_message validationResult)
                        "Activation failed")).

(** *** getActivationStatus *)

Record status_result : Type := mkStatus {
  s_status : string;
  s_totalTransactions : Z;
  s_remaining : remaining;
  s_activated : bool;
  s_serialNumber : option string;
  s_hardwareId : option string;
  s_activationDate : option Z;
  s_temporary : bool;
  s_expires : option Z
}.

(** [row.temporary_until && new Date(row.temporary_until) > new Date()]:
    [NULL] and [0] are falsy.  The comparison of the two dates is the
    comparison of their time values for a stored value that is a date,
    [JsNumber.isDate]; the service itself only stores a clock reading
    plus thirty days there. *)
Definition isTemporary (e : env) (row : counter_row) : bool :=
  match temporary_until row with
  | Some t => negb (t =? 0) && (now e <? t)
  | None => false
  end.

Definition getActivationStatus (e : env) : M status_result :=
  emit (EvDbGet TransactionCounter) ;;;
  match db_error e GetCounter with
  | Some msg => throw (Error msg)
  | None =>
      d <- read_db ;;
      match transaction_counter d with
      | None =>
          ret (mkStatus "trial" 0 (Remaining maxTrialTransactions) false
                 None None None false None)
      | Some row =>
          let status :=
            if isTemporary e row then "temporary" else license_status row in
          let remaining :=
            if String.eqb (license_status row) "activated" || isTemporary e row
            then Unlimited
            else Remaining (Z.max 0 (maxTrialTransactions - total_transactions row)) in
          ret (mkStatus status (total_transactions row) remaining
                 (String.eqb (license_status row) "activated")
                 (serial_number row) (hardware_id row) (activation_date row)
                 (isTemporary e row) (temporary_until row))
      end
  end.

(** *** resetTrialCounter *)

(** The columns the [UPDATE] names; [last_validation] is not among
    them. *)
Definition reset_row (r : counter_row) : counter_row :=
  mkCounter 0 "trial" None None None (last_validation r) None.

Definition resetTrialCounter (e : env) : M (bool * string) :=
  emit (EvDbRun TransactionCounter) ;;;
  match db_error e ResetCounter with
  | Some msg => throw (Error msg)
  | None =>
      write_db (update_counter reset_row) ;;;
      ret (true, "Trial counter reset")
  end.

(* ================================================================== *)
(** ** The activation routes of [index.js] *)

(** The [error] field the [catch] of [POST /api/activation/activate]
    answers with. *)
Definition activate_error_kind (error : js_error) : string :=
  if JsString.equals (code error) "MAX_INSTALLATIONS_REACHED"
  then "MAX_INSTALLATIONS_REACHED"
  else if JsString.includes "Invalid serial number format" (message error)
  then "INVALID_FORMAT"
  else if JsString.includes "Invalid serial number checksum" (message error)
  then "INVALID_CHECKSUM"
  else if JsString.includes "Serial number not valid" (message error)
  then "SN_NOT_FOUND"
  else "ACTIVATION_FAILED".

(** The [error] field of [POST /api/activation/increment-transaction]. *)
Definition increment_error_kind (error : js_error) : string :=
  if String.eqb (message error) "TRIAL_LIMIT_REACHED"
  then "TRIAL_LIMIT_REACHED"
  else "Failed to increment transaction counter".

(* ================================================================== *)
(** ** Requests in flight

    Node runs one callback at a time, to its end.  A call of
    [incrementTransaction] is two callbacks, that of its [db.get] and
    that of its [db.run]; the callbacks of other calls may run between
    them.  A schedule names, step by step, the call whose next callback
    runs. *)

Inductive call : Type :=
| Pending
| Updating (activated : bool) (currentCount : Z)
| Settled (o : settled increment_result).

Definition step_call (e : env) (c : call) (w : world) : call * world :=
  match c with
  | Pending =>
      match inc_on_row e w with
      | (IncUpdating activated currentCount, w') =>
          (Updating activated currentCount, w')
      | (IncSettled o, w') => (Settled o, w')
      end
  | Updating activated currentCount =>
      let (o, w') := inc_on_update e activated currentCount w in
      (Settled o, w')
  | Settled o => (Settled o, w)
  end.

Fixpoint step_nth (e : env) (i : nat) (cs : list call) (w : world)
  : list call * world :=
  match cs, i with
  | [], _ => ([], w)
  | c :: cs', O => let (c', w') := step_call e c w in (c' :: cs', w')
  | c :: cs', S i' =>
      let (cs'', w') := step_nth e i' cs' w in (c :: cs'', w')
  end.

Fixpoint run (e : env) (sched : list nat) (cs : list call) (w : world)
  : list call * world :=
  match sched with
  | [] => (cs, w)
  | i :: sched' =>
      let (cs', w') := step_nth e i cs w in run e sched' cs' w'
  end.

Definition succeeded (c : call) : bool :=
  match c with
  | Settled (Resolved r) => i_success r
  | _ => false
  end.

Definition successes (cs : list call) : Z :=
  Z.of_nat (List.length (filter succeeded cs)).

(** Calls made one after the other, each in the environment of its
    own moment: a call settles before the next starts. *)
Fixpoint in_sequence (es : list env) (w : world)
  : list (settled increment_result) * world :=
  match es with
  | [] => ([], w)
  | e :: es' =>
      let (o, w') := incrementTransaction e w in
      let (os, w'') := in_sequence es' w' in
      (o :: os, w'')
  end.

Definition resolved {A} (o : settled A) : bool :=
  match o with
  | Resolved _ => true
  | _ => false
  end.

Definition count_resolved {A} (os : list (settled A)) : Z :=
  Z.of_nat (List.length (filter resolved os)).

(* ================================================================== *)
(** ** The serial shape as the specification words it

    "PREFIX-YYYY-XXXXXX-CCCC with the fixed prefix literal, four
    digits, six uppercase alphanumerics, and a four-character checksum
    segment", where lowercase letters and further separators are
    deviations.  The words give the checksum segment a length and no
    alphabet. *)

Definition no_hyphen (s : string) : bool := JsString.free_of "-" s.

Definition spec_shape (s : string) : Prop :=
  exists y x c : string,
    s = ("DMPOS-" ++ y ++ "-" ++ x ++ "-" ++ c)%string /\
    String.length y = 4%nat /\ JsString.all_chars JsString.is_digit y = true /\
    String.length x = 6%nat /\ JsString.all_chars JsString.is_upper_alnum x = true /\
    String.length c = 4%nat /\
    JsString.all_chars (fun ch => negb (JsString.is_lower ch)) c = true /\
    no_hyphen c = true.

(** The shape the pattern of the source accepts. *)
Definition pattern_shape (s : string) : Prop :=
  exists y x c : string,
    s = ("DMPOS-" ++ y ++ "-" ++ x ++ "-" ++ c)%string /\
    String.length y = 4%nat /\ JsString.all_chars JsString.is_digit y = true /\
    String.length x = 6%nat /\ JsString.all_chars JsString.is_upper_alnum x = true /\
    String.length c = 4%nat /\ JsString.all_chars JsString.is_upper_alnum c = true.

(* ================================================================== *)
(** ** Predicates used in the statements *)

(** The world once the [SELECT] on the counter has been issued. *)
Definition after_get (w : world) : world :=
  mkWorld (store w) (trace w ++ [EvDbGet TransactionCounter]).

(** The database serves the statements of a call on an activated
    installation. *)
Definition answering (e : env) : Prop :=
  db_error e GetCounter = None /\ db_error e IncrCounter = None.

Definition unlimited_success (o : settled increment_result) : Prop :=
  exists r, o = Resolved r /\ i_success r = true /\ i_remaining r = Unlimited.




(* ================================================================== *)
(** ** Worlds and environments used in the examples *)

Definition no_faults : db_op -> option string := fun _ => None.

(** The licensing server cannot be reached. *)
Definition offline_env (t : Z) : env :=
  mkEnv t "https://dmpos-activation.railway.app" "a1b2c3d4e5f60718-9a8b7c6d"
        (NetworkError "fetch failed") (NetworkError "fetch failed") no_faults.

Definition new_install : world := mkWorld initDB [].

Definition trial_world (n : Z) : world :=
  mkWorld (update_counter (set_total n) initDB) [].

(** A well-formed serial with the right checksum that [initDB] does not
    preload. *)
Definition unlisted_serial : string := "DMPOS-2024-000006-0D9A".

(* ================================================================== *)
(** ** [initDB] on a database that exists

    The constructor runs [initDB] at every start of the backend.  All
    its statements are [CREATE TABLE IF NOT EXISTS] and
    [INSERT OR IGNORE]: a row is added only when its primary key is not
    there yet. *)

(** The database file before the first start. *)
Definition empty_db : db := mkDb None [] [] 0.

(** [INSERT OR IGNORE INTO preloaded_sns (serial_number, ...) VALUES
    (?, 1, 3, date('now'), 'standard')]; [serial_number] is the primary
    key. *)
Definition insert_or_ignore_sn (rows : list preloaded_row) (sn : string)
  : list preloaded_row :=
  if existsb (fun r => String.eqb (p_serial_number r) sn) rows then rows
  else rows ++ [mkPreloaded sn true 3 (Some "standard")].

Definition run_initDB (d : db) : db :=
  mkDb (match transaction_counter d with
        | Some row => Some row
        | None => Some fresh_counter
        end)
       (fold_left insert_or_ignore_sn testSNs (preloaded_sns d))
       (validation_queue d) (queue_seq d).

(* ================================================================== *)
(** ** [getPrimaryMacAddress] *)

Module Mac.

Definition lower_char (c : ascii) : ascii :=
  if JsString.is_upper c then ascii_of_nat (nat_of_ascii c + 32) else c.

(** [s.toLowerCase()].  The only use is a search for ['ethernet'] and
    ['eth'] in the result; no character outside ASCII lowercases to
    one of their letters, so the ASCII letters are all that matters. *)
Fixpoint toLowerCase (s : string) : string :=
  match s with
  | EmptyString => EmptyString
  | String c rest => String (lower_char c) (toLowerCase rest)
  end.

(** An entry of [os.networkInterfaces()[name]]; only [mac] is read. *)
Record net_addr : Type := mkAddr { mac : option string }.

(** [Object.entries(os.networkInterfaces())], in its order. *)
Definition interfaces : Type := list (string * list net_addr).

(** [addr.mac && addr.mac !== '00:00:00:00:00:00'] *)
Definition usable (a : net_addr) : bool :=
  match mac a with
  | Some m => negb (String.eqb m "") && negb (String.eqb m "00:00:00:00:00:00")
  | None => false
  end.

Definition is_ethernet (name : string) : bool :=
  JsString.includes "ethernet" (toLowerCase name)
  || JsString.includes "eth" (toLowerCase name).

(** [addrs.find(...)] followed by [mac.mac]. *)
Definition first_usable (addrs : list net_addr) : option string :=
  match find usable addrs with
  | Some a => mac a
  | None => None
  end.

(** The first loop: wired adapters only. *)
Fixpoint ethernet_mac (ifs : interfaces) : option string :=
  match ifs with
  | [] => None
  | (name, addrs) :: rest =>
      if is_ethernet name then
        match first_usable addrs with
        | Some m => Some m
        | None => ethernet_mac rest
        end
      else ethernet_mac rest
  end.

(** The second loop: any adapter. *)
Fixpoint any_mac (ifs : interfaces) : option string :=
  match ifs with
  | [] => None
  | (_, addrs) :: rest =>
      match first_usable addrs with
      | Some m => Some m
      | None => any_mac rest
      end
  end.

Definition getPrimaryMacAddress (ifs : interfaces) : string :=
  match ethernet_mac ifs with
  | Some m => m
  | None =>
      match any_mac ifs with
      | Some m => m
      | None => "no-mac-found"
      end
  end.

(** A usable address of some adapter carries [m]. *)
Definition offers (ifs : interfaces) (m : string) : Prop :=
  exists name addrs a,
    In (name, addrs) ifs /\ In a addrs /\ usable a = true /\ mac a = Some m.

End Mac.

(* ================================================================== *)
(** ** The middleware of [middleware/auth.js] *)

Module Auth.

(** The payload [jwt.verify] hands over; the routes read [role]. *)
Record user : Type := mkUser { u_id : Z; u_role : option string }.

Inductive verdict : Type :=
| Next (u : option user)           (* next(), with req.user as it stands *)
| Deny (status : Z) (msg : string).

(** [jwt.verify(token, JWT_SECRET, cb)] is the library's; [verify]
    stands for it: the payload of a token it accepts. *)
Definition authenticateToken (verify : string -> option user)
  (authorization : option string) : verdict :=
  let token :=
    match authorization with
    | None => None
    | Some auth =>
        if String.eqb auth "" then Some ""
        else nth_error (JsString.split " " auth) 1
    end in
  match token with
  | None => Deny 401 "Token tidak ditemukan"
  | Some t =>
      if String.eqb t "" then Deny 401 "Token tidak ditemukan"
      else match verify t with
           | None => Deny 403 "Token tidak valid"
           | Some u => Next (Some u)
           end
  end.

Definition authorizeAdminOrManager (u : user) : verdict :=
  if negb (JsString.equals (u_role u) "admin")
     && negb (JsString.equals (u_role u) "manager")
  then Deny 403 "Akses ditolak: Hanya untuk admin atau manajer."
  else Next (Some u).

(** [authenticateToken, authorizeAdminOrManager] as the routes chain
    them. *)
Definition guard (verify : string -> option user)
  (authorization : option string) : verdict :=
  match authenticateToken verify authorization with
  | Next (Some u) => authorizeAdminOrManager u
  | v => v
  end.

End Auth.

(* ================================================================== *)
(** ** The handlers of the activation routes *)

Module Route.

(** [.] of a pattern without flags: any character but a line
    terminator.  The handler applies the pattern to a serial that
    passed the format check, which is ASCII. *)
Definition dot (c : ascii) : bool :=
  negb (Ascii.eqb c "010" || Ascii.eqb c "013").

(** [n] characters matched by [.], and what follows them. *)
Fixpoint dots (n : nat) (s : string) : option (string * string) :=
  match n, s with
  | O, _ => Some (EmptyString, s)
  | S n', String c s' =>
      if dot c then
        match dots n' s' with
        | Some (g, rest) => Some (String c g, rest)
        | None => None
        end
      else None
  | S _, EmptyString => None
  end.

(** [/(.{4})(.{4})(.{6})(.{4})/] at the start of [s]. *)
Definition groups_at (s : string) : option (string * string * string * string * string) :=
  match dots 4 s with
  | Some (g1, s1) =>
      match dots 4 s1 with
      | Some (g2, s2) =>
          match dots 6 s2 with
          | Some (g3, s3) =>
              match dots 4 s3 with
              | Some (g4, rest) => Some (g1, g2, g3, g4, rest)
              | None => None
              end
          | None => None
          end
      | None => None
      end
  | None => None
  end.

(** [s.replace(/(.{4})(.{4})(.{6})(.{4})/, '$1-$2-****-$4')]: the
    leftmost match is replaced, the rest is kept. *)
Fixpoint mask_serial (s : string) : string :=
  match groups_at s with
  | Some (g1, g2, _, g4, rest) =>
      (g1 ++ "-" ++ g2 ++ "-****-" ++ g4 ++ rest)%string
  | None =>
      match s with
      | EmptyString => EmptyString
      | String c s' => String c (mask_serial s')
      end
  end.

(** [hardwareId.substring(0, 8) + '...'] *)
Definition mask_hardware (hardwareId : string) : string :=
  (String.substring 0 8 hardwareId ++ "...")%string.

Record activate_response : Type := mkActivateResponse {
  ar_status : Z;
  ar_success : bool;
  ar_error : option string;
  ar_message : string;
  ar_serialNumber : option string;
  ar_hardwareId : option string;
  ar_type : option string;
  ar_temporary : option bool;
  ar_expires : option Z;
  ar_installations : option (list string)
}.

(** [POST /api/activation/activate]; [serialNumber] is the field of
    the body, absent or a string.  The handler answers when the promise
    of [activateLicense] settles. *)
Definition activate (e : env) (serialNumber : option string)
  (computerInfo : string) (w : world) : option activate_response * world :=
  match serialNumber with
  | None =>
      (Some (mkActivateResponse 400 false (Some "MISSING_SERIAL_NUMBER")
         "Serial Number diperlukan untuk aktivasi" None None None None None None), w)
  | Some sn =>
      if String.eqb sn "" then
        (Some (mkActivateResponse 400 false (Some "MISSING_SERIAL_NUMBER")
           "Serial Number diperlukan untuk aktivasi" None None None None None None), w)
      else
        match activateLicense e sn computerInfo w with
        | (Resolved result, w') =>
            (Some (mkActivateResponse 200 true None
               (if a_temporary result
                then "Aktivasi sementara berhasil - akan diverifikasi saat online"
                else "Aktivasi berhasil! Aplikasi sekarang unlimited.")
               (Some (mask_serial (a_serialNumber result)))
               (Some (mask_hardware (a_hardwareId result)))
               (Some (a_type result))
               (Some (a_temporary result)) (a_expires result) None), w')
        | (Rejected error, w') =>
            if JsString.equals (code error) "MAX_INSTALLATIONS_REACHED" then
              (Some (mkActivateResponse 409 false (Some "MAX_INSTALLATIONS_REACHED")
                 "Maksimum instalasi tercapai (3/3)." None None None None None
                 (Some (installations error))), w')
            else
              (Some (mkActivateResponse 400 false (Some (activate_error_kind error))
                 (if JsString.includes "Invalid serial number format" (message error)
                  then "Format Serial Number tidak valid. Format: DMPOS-YYYY-XXXXXX-XXXX"
                  else if JsString.includes "Invalid serial number checksum" (message error)
                  then "Serial Number tidak valid. Periksa kembali nomor yang dimasukkan."
                  else if JsString.includes "Serial number not valid" (message error)
                  then "Serial Number tidak ditemukan dalam database."
                  else "Aktivasi gagal. Silakan periksa Serial Number dan coba lagi.")
                 None None None None None None), w')
        | (Uncaught _, w') => (None, w')
        end
  end.

End Route.

(* ================================================================== *)
(** ** Predicates used in the statements on the rest of the service *)

(** The licensing server cannot be used: what makes [validateOnline]
    throw.  A refusal ([valid] false) and a 409 on the activation slot
    are answers, not failures. *)
Definition transport_failure (e : env) : bool :=
  match validate_reply e with
  | NetworkError _ => true
  | Response status None => true
  | Response status (Some validate) =>
      negb (ok status)
      || (vb_valid validate && negb (vb_existing validate)
          && vb_canActivate validate
          && match activate_reply e with
             | NetworkError _ => true
             | Response status2 body2 =>
                 if ok status2
                 then match body2 with Some _ => false | None => true end
                 else negb (status2 =? 409)
             end)
  end.

(** No statement of the service errors. *)
Definition healthy (e : env) : Prop := forall op, db_error e op = None.

(** The ids of the queue are distinct and the sequence has passed them
    all. *)
Definition queue_wf (d : db) : Prop :=
  NoDup (map q_id (validation_queue d)) /\
  Forall (fun r => q_id r <= queue_seq d) (validation_queue d).

Definition is_upper_hex (c : ascii) : bool :=
  JsString.is_digit c
  || ((65 <=? nat_of_ascii c)%nat && (nat_of_ascii c <=? 70)%nat).

(** The checksum [isValidCRC] expects after the first three segments. *)
Definition expected_crc (p0 p1 p2 : string) : string :=
  JsString.toUpperCase
    (String.substring 0 4 (MD5.md5_hex (p0 ++ "-" ++ p1 ++ "-" ++ p2 ++ "-"))).

(** All calls read, then all calls write. *)
Definition reads_then_writes (n : nat) : list nat := seq 0 n ++ seq 0 n.

Definition is_fetch (ev : event) : bool :=
  match ev with
  | EvFetch _ => true
  | _ => false
  end.

(** The licensing server answered and said no: the serial is not
    valid, or no activation slot is left (409), or the activation did
    not succeed. *)
Definition refused (e : env) : bool :=
  match validate_reply e with
  | Response status (Some validate) =>
      ok status
      && (negb (vb_valid validate)
          || (negb (vb_existing validate) && vb_canActivate validate
              && match activate_reply e with
                 | Response status2 body2 =>
                     (status2 =? 409)
                     || (ok status2
                         && match body2 with
                            | Some activate => negb (ab_success activate)
                            | None => false
                            end)
                 | NetworkError _ => false
                 end))
  | _ => false
  end.

(** [row && row.valid] for the row of [serialNumber]. *)
Definition preloaded_valid (serialNumber : string) (d : db) : bool :=
  match lookup_preloaded serialNumber d with
  | Some r => p_valid r
  | None => false
  end.

(** [activateLicense] from [if (validationResult.success)] on: what
    the call does once the validation result is known. *)
Definition conclude (e : env) (serialNumber hardwareId : string)
  (validationResult : validation) : M activation :=
  if v_success validationResult then
    emit (EvDbRun TransactionCounter) ;;;
    match db_error e UpdateActivation with
    | Some msg => throw (Error msg)
    | None =>
        write_db (update_counter
                    (set_activated e serialNumber hardwareId
                       (if v_temporary validationResult
                        then v_expires validationResult else None))) ;;;
        ret (mkActivation true serialNumber hardwareId
               (JsString.or_else (v_type validationResult) "standard")
               (v_temporary validationResult)
               (v_expires validationResult)
               (JsString.or_else (v_message validationResult)
                  "Activation successful"))
    end
  else
    if JsString.equals (v_code validationResult) "MAX_INSTALLATIONS_REACHED" then
      throw (mkError
               (JsString.or_else (v_message validationResult)
                  "Maximum installations reached")
               (Some "MAX_INSTALLATIONS_REACHED")
               (match v_installations validationResult with
                | Some l => l
                | None => []
                end))
    else
      throw (Error (JsString.or_else (v_message validationResult)
                      "Activation failed")).

(** The world once the fingerprint has been taken. *)
Definition after_fingerprint (w : world) : world :=
  mkWorld (store w) (trace w ++ [EvFingerprint]).

(** The two results [validateOffline] can resolve with. *)
Definition offline_known (d : db) (serialNumber : string) : validation :=
  mkValidation true None
    (match lookup_preloaded serialNumber d with
     | Some r => p_license_type r
     | None => None
     end)
    false None (Some "Validated offline - will sync when online") None.

Definition offline_grant (e : env) : validation :=
  mkValidation true None (Some "unknown") true (Some (now e + thirty_days))
    (Some "Temporary activation - requires online verification within 30 days")
    None.

(** The database once [queueForOnlineValidation] has run. *)
Definition queued (e : env) (serialNumber hardwareId : string) (d : db) : db :=
  match db_error e InsertQueue with
  | Some _ => d
  | None => enqueue e serialNumber hardwareId d
  end.

(** An environment in which only the insert into the queue errors. *)
Definition queue_down (t : Z) : env :=
  mkEnv t "https://dmpos-activation.railway.app" "a1b2c3d4e5f60718-9a8b7c6d"
        (NetworkError "fetch failed") (NetworkError "fetch failed")
        (fun op => match op with
                   | InsertQueue => Some "SQLITE_BUSY: database is locked"
                   | _ => None
                   end).


(** The database serves the statements of a call in trial mode. *)
Definition trial_answering (e : env) : Prop :=
  db_error e GetCounter = None /\ db_error e SetCounter = None.

(** The counter as stored, 0 when the row is missing. *)
Definition stored_total (w : world) : Z :=
  match transaction_counter (store w) with
  | Some row => total_transactions row
  | None => 0
  end.

(** What a call in flight may hold when the installation is
    activated. *)
Definition call_ok_activated (c : call) : Prop :=
  match c with
  | Updating activated _ => activated = true
  | _ => True
  end.

(** What every overlapping trial call resolves with when all of them
    read the count [c]. *)
Definition overlapped_result (c : Z) : increment_result :=
  let remaining := maxTrialTransactions - (c + 1) in
  mkIncrement true (c + 1) (Remaining remaining)
    (if remaining <=? 4 then Some "critical"
     else if remaining <=? 9 then Some "high"
     else if remaining <=? 19 then Some "medium"
     else None)
    "trial"
    (if remaining =? 0 then Some "Trial limit reached - activation required"
     else if remaining <=? 4 then
       Some ("Only " ++ JsString.of_Z remaining ++ " transactions left!")%string
     else if remaining <=? 19 then
       Some (JsString.of_Z remaining ++ " transactions remaining")%string
     else None).

(** The counter row is there and activated. *)
Definition activated_world (w : world) : Prop :=
  exists row,
    transaction_counter (store w) = Some row /\ license_status row = "activated".


(** The preloaded table has a row for the serial. *)
Definition has_sn (rows : list preloaded_row) (sn : string) : bool :=
  existsb (fun r => String.eqb (p_serial_number r) sn) rows.


(* ================================================================== *)
(** ** [crypto.createHash('sha256')]: SHA-256 of FIPS 180-4 *)

Module SHA256.

Definition w32 (x : Z) : Z := x mod 4294967296.

Definition rotr (x n : Z) : Z :=
  w32 (Z.lor (Z.shiftr x n) (Z.shiftl x (32 - n))).

(** The first 32 bits of the fractional parts of the cube roots of the
    first 64 primes. *)
Definition K : list Z :=
  [1116352408; 1899447441; 3049323471; 3921009573; 961987163; 1508970993;
   2453635748; 2870763221; 3624381080; 310598401; 607225278; 1426881987;
   1925078388; 2162078206; 2614888103; 3248222580; 3835390401; 4022224774;
   264347078; 604807628; 770255983; 1249150122; 1555081692; 1996064986;
   2554220882; 2821834349; 2952996808; 3210313671; 3336571891; 3584528711;
   113926993; 338241895; 666307205; 773529912; 1294757372; 1396182291;
   1695183700; 1986661051; 2177026350; 2456956037; 2730485921; 2820302411;
   3259730800; 3345764771; 3516065817; 3600352804; 4094571909; 275423344;
   430227734; 506948616; 659060556; 883997877; 958139571; 1322822218;
   1537002063; 1747873779; 1955562222; 2024104815; 2227730452; 2361852424;
   2428436474; 2756734187; 3204031479; 3329325298].

Definition regs : Type := Z * Z * Z * Z * Z * Z * Z * Z.

(** The first 32 bits of the fractional parts of the square roots of
    the first 8 primes. *)
Definition init : regs :=
  (1779033703, 3144134277, 1013904242, 2773480762,
   1359893119, 2600822924, 528734635, 1541459225).

Definition ch (e f g : Z) : Z :=
  Z.lxor (Z.land e f) (Z.land (MD5.lnot32 e) g).

Definition maj (a b c : Z) : Z :=
  Z.lxor (Z.lxor (Z.land a b) (Z.land a c)) (Z.land b c).

Definition big0 (a : Z) : Z := Z.lxor (Z.lxor (rotr a 2) (rotr a 13)) (rotr a 22).
Definition big1 (e : Z) : Z := Z.lxor (Z.lxor (rotr e 6) (rotr e 11)) (rotr e 25).
Definition small0 (x : Z) : Z := Z.lxor (Z.lxor (rotr x 7) (rotr x 18)) (Z.shiftr x 3).
Definition small1 (x : Z) : Z := Z.lxor (Z.lxor (rotr x 17) (rotr x 19)) (Z.shiftr x 10).

(** The message schedule, one word at a time. *)
Definition extend (w : list Z) (i : nat) : list Z :=
  w ++ [w32 (small1 (nth (i - 2) w 0) + nth (i - 7) w 0
             + small0 (nth (i - 15) w 0) + nth (i - 16) w 0)].

Definition schedule (m : list Z) : list Z := fold_left extend (seq 16 48) m.

Definition round (w : list Z) (st : regs) (i : nat) : regs :=
  let '(a, b, c, d, e, f, g, h) := st in
  let t1 := w32 (h + big1 e + ch e f g + nth i K 0 + nth i w 0) in
  let t2 := w32 (big0 a + maj a b c) in
  (w32 (t1 + t2), a, b, c, w32 (d + t1), e, f, g).

Definition block (st : regs) (m : list Z) : regs :=
  let '(a0, b0, c0, d0, e0, f0, g0, h0) := st in
  let '(a, b, c, d, e, f, g, h) := fold_left (round (schedule m)) (seq 0 64) st in
  (w32 (a0 + a), w32 (b0 + b), w32 (c0 + c), w32 (d0 + d),
   w32 (e0 + e), w32 (f0 + f), w32 (g0 + g), w32 (h0 + h)).

(** Big-endian words of a byte list. *)
Fixpoint words (bs : list Z) : list Z :=
  match bs with
  | b0 :: b1 :: b2 :: b3 :: rest =>
      (16777216 * b0 + 65536 * b1 + 256 * b2 + b3) :: words rest
  | _ => []
  end.

Definition be_bytes (count : nat) (x : Z) : list Z :=
  map (fun k => (x / 2 ^ (8 * Z.of_nat (count - 1 - k))) mod 256) (seq 0 count).

Definition pad (bs : list Z) : list Z :=
  let len := Z.of_nat (List.length bs) in
  bs ++ [128] ++ repeat 0 (Z.to_nat ((55 - len) mod 64))
     ++ be_bytes 8 (8 * len).

Definition digest (bs : list Z) : list Z :=
  let ws := words (pad bs) in
  let '(a, b, c, d, e, f, g, h) :=
    fold_left block (MD5.chunks (List.length ws / 16) ws) init in
  be_bytes 4 a ++ be_bytes 4 b ++ be_bytes 4 c ++ be_bytes 4 d
    ++ be_bytes 4 e ++ be_bytes 4 f ++ be_bytes 4 g ++ be_bytes 4 h.

(** [crypto.createHash('sha256').update(s).digest('hex')]. *)
Definition sha256_hex (s : string) : string :=
  MD5.hex (digest (MD5.bytes_of s)).

End SHA256.

(* ================================================================== *)
(** ** The hardware fingerprint *)

Module Fingerprint.

Definition dquote : ascii := "034".
Definition backslash : ascii := "092".

(** [JSON.stringify] of a string: the quote, the backslash and the
    control characters are escaped, everything else is kept. *)
Definition escape_char (c : ascii) : string :=
  let n := nat_of_ascii c in
  if Ascii.eqb c dquote then String backslash (String dquote EmptyString)
  else if Ascii.eqb c backslash then String backslash (String backslash EmptyString)
  else if (n =? 8)%nat then String backslash "b"
  else if (n =? 12)%nat then String backslash "f"
  else if (n =? 10)%nat then String backslash "n"
  else if (n =? 13)%nat then String backslash "r"
  else if (n =? 9)%nat then String backslash "t"
  else if (n <? 32)%nat then
    String backslash
      ("u00" ++ String (MD5.hex_digit (Z.of_nat n / 16))
                  (String (MD5.hex_digit (Z.of_nat n mod 16)) EmptyString))
  else String c EmptyString.

Fixpoint escape (s : string) : string :=
  match s with
  | EmptyString => EmptyString
  | String c rest => (escape_char c ++ escape rest)%string
  end.

Definition quote (s : string) : string :=
  String dquote (escape s ++ String dquote EmptyString).

(** ["key":value] *)
Definition member (key value : string) : string :=
  (quote key ++ ":" ++ value)%string.

(** [components.stable] and [components.semiStable] of
    [gatherHardwareInfo]. *)
Record stable : Type := mkStable {
  cpuModel : string;
  cpuArch : string;
  platform : string;
  motherboard : string;
  machineId : string
}.

Record semi_stable : Type := mkSemiStable {
  macAddress : string;
  hostname : string;
  osInfo : string
}.

Record components : Type := mkComponents {
  c_stable : stable;
  c_semiStable : semi_stable
}.

(** [JSON.stringify(components.stable)]: the members in the order the
    object literal lists them. *)
Definition stringify_stable (s : stable) : string :=
  ("{" ++ member "cpuModel" (quote (cpuModel s))
       ++ "," ++ member "cpuArch" (quote (cpuArch s))
       ++ "," ++ member "platform" (quote (platform s))
       ++ "," ++ member "motherboard" (quote (motherboard s))
       ++ "," ++ member "machineId" (quote (machineId s)) ++ "}")%string.

Definition stringify_semiStable (s : semi_stable) : string :=
  ("{" ++ member "macAddress" (quote (macAddress s))
       ++ "," ++ member "hostname" (quote (hostname s))
       ++ "," ++ member "osInfo" (quote (osInfo s)) ++ "}")%string.

Definition createFlexibleFingerprint (c : components) : string :=
  let primaryHash :=
    String.substring 0 16 (SHA256.sha256_hex (stringify_stable (c_stable c))) in
  let secondaryHash :=
    String.substring 0 8 (SHA256.sha256_hex (stringify_semiStable (c_semiStable c))) in
  (primaryHash ++ "-" ++ secondaryHash)%string.

(** [basicInfo] of [createBasicFingerprint]; [cpuCount] and
    [timestamp] are numbers. *)
Record basic_info : Type := mkBasic {
  b_platform : string;
  b_arch : string;
  b_hostname : string;
  b_cpuCount : Z;
  b_timestamp : Z
}.

Definition stringify_basic (b : basic_info) : string :=
  ("{" ++ member "platform" (quote (b_platform b))
       ++ "," ++ member "arch" (quote (b_arch b))
       ++ "," ++ member "hostname" (quote (b_hostname b))
       ++ "," ++ member "cpuCount" (JsString.of_Z (b_cpuCount b))
       ++ "," ++ member "timestamp" (JsString.of_Z (b_timestamp b)) ++ "}")%string.

Definition createBasicFingerprint (b : basic_info) : string :=
  String.substring 0 24 (SHA256.sha256_hex (stringify_basic b)).

(** [generateHardwareFingerprint]: [gathered] is what
    [gatherHardwareInfo] resolved with, [None] when it threw. *)
Definition generateHardwareFingerprint (gathered : option components)
  (b : basic_info) : string :=
  match gathered with
  | Some c => createFlexibleFingerprint c
  | None => createBasicFingerprint b
  end.

Definition is_lower_hex (c : ascii) : bool :=
  JsString.is_digit c
  || ((97 <=? nat_of_ascii c)%nat && (nat_of_ascii c <=? 102)%nat).

End Fingerprint.

Definition byte_range (b : Z) : Prop := 0 <= b < 256.


(* ================================================================== *)
(** * Properties *)

(** ** The digest

    The digest agrees with the test suite of RFC 1321 (A.5). *)

Example md5_empty : MD5.md5_hex "" = "d41d8cd98f00b204e9800998ecf8427e".
Proof. vm_compute. reflexivity. Qed.

Example md5_abc : MD5.md5_hex "abc" = "900150983cd24fb0d6963f7d28e17f72".
Proof. vm_compute. reflexivity. Qed.

Example md5_alphabet :
  MD5.md5_hex "abcdefghijklmnopqrstuvwxyz" = "c3fcd3d76192e4007dfb496cca67e13b".
Proof. vm_compute. reflexivity. Qed.

Example md5_two_blocks :
  MD5.md5_hex
    "12345678901234567890123456789012345678901234567890123456789012345678901234567890"
  = "57edf4a22be3c955ac49da2e2107b67a".
Proof. vm_compute. reflexivity. Qed.

(** ** The codec on the serials of [initDB] *)

Example first_test_serial_valid :
  isValidSNFormat "DMPOS-2024-000001-4005" = true /\
  isValidCRC "DMPOS-2024-000001-4005" = true.
Proof. vm_compute. auto. Qed.

Example unlisted_serial_valid :
  isValidSNFormat unlisted_serial = true /\ isValidCRC unlisted_serial = true /\
  lookup_preloaded unlisted_serial initDB = None.
Proof. vm_compute. auto. Qed.

Example format_rejects :
  map isValidSNFormat
    ["DMPOS-2024-000001-400"; "DMPOS-2024-000001-40055"; "dmpos-2024-000001-4005";
     "DMPOS-2024-00000a-4005"; "DMPOS-20245-000001-4005"; "DMPOS-2024-000001";
     "DMPOS-2024-0000-01-4005"; " DMPOS-2024-000001-4005"; ""]
  = [false; false; false; false; false; false; false; false; false].
Proof. vm_compute. reflexivity. Qed.

(** ** Strings: splitting and pattern matching *)

Section Split.

Variable sep : ascii.

Lemma split_not_nil (s : string) : JsString.split sep s <> [].
Proof.
  destruct s as [|c s]; simpl; [discriminate|].
  destruct (Ascii.eqb c sep); [discriminate|].
  destruct (JsString.split sep s); discriminate.
Qed.

Lemma split_free (a : string) :
  JsString.free_of sep a = true -> JsString.split sep a = [a].
Proof.
  induction a as [|c a IH]; simpl; intros H; [reflexivity|].
  apply andb_true_iff in H as [Hc Ha].
  apply negb_true_iff in Hc. rewrite Hc, (IH Ha). reflexivity.
Qed.

Lemma split_app (a rest : string) :
  JsString.free_of sep a = true ->
  JsString.split sep (a ++ String sep rest) = a :: JsString.split sep rest.
Proof.
  induction a as [|c a IH]; simpl; intros H.
  - rewrite Ascii.eqb_refl. reflexivity.
  - apply andb_true_iff in H as [Hc Ha].
    apply negb_true_iff in Hc. rewrite Hc, (IH Ha). reflexivity.
Qed.

(** What a split that starts with [a] says about the input. *)
Lemma split_head (s a : string) (l : list string) :
  JsString.split sep s = a :: l ->
  JsString.free_of sep a = true /\
  ((l = [] /\ s = a) \/
   (exists rest, s = (a ++ String sep rest)%string /\ JsString.split sep rest = l)).
Proof.
  revert a l. induction s as [|c s IH]; simpl; intros a l H.
  - inversion H; subst. split; [reflexivity | left; split; reflexivity].
  - destruct (Ascii.eqb c sep) eqn:Hc.
    + apply Ascii.eqb_eq in Hc. subst c. inversion H; subst.
      split; [reflexivity|]. right. exists s. split; reflexivity.
    + destruct (JsString.split sep s) as [|seg segs] eqn:Hs.
      * exfalso. exact (split_not_nil s Hs).
      * inversion H; subst. destruct (IH seg l eq_refl) as [Hf Hcases].
        split.
        -- unfold JsString.free_of in *. simpl. rewrite Hc, Hf. reflexivity.
        -- destruct Hcases as [[Hl Heq] | [rest [Heq Hrest]]].
           ++ left. subst. split; reflexivity.
           ++ right. exists rest. subst s. split; [reflexivity | assumption].
Qed.

End Split.

(** Four segments: the input is [p0-p1-p2-p3] with no further hyphen. *)
Lemma split_four (s p0 p1 p2 p3 : string) :
  JsString.split "-" s = [p0; p1; p2; p3] <->
  s = (p0 ++ "-" ++ p1 ++ "-" ++ p2 ++ "-" ++ p3)%string /\
  no_hyphen p0 = true /\ no_hyphen p1 = true /\
  no_hyphen p2 = true /\ no_hyphen p3 = true.
Proof.
  split.
  - intros H.
    apply split_head in H as [F0 [[Hl _] | [r0 [E0 H]]]]; [discriminate|].
    apply split_head in H as [F1 [[Hl _] | [r1 [E1 H]]]]; [discriminate|].
    apply split_head in H as [F2 [[Hl _] | [r2 [E2 H]]]]; [discriminate|].
    apply split_head in H as [F3 [[_ E3] | [r3 [_ H]]]].
    + subst. repeat split; assumption.
    + exfalso. exact (split_not_nil _ _ H).
  - intros (E & F0 & F1 & F2 & F3). subst s.
    change ("-" ++ p1 ++ "-" ++ p2 ++ "-" ++ p3)%string
      with (String "-" (p1 ++ String "-" (p2 ++ String "-" p3))).
    rewrite (split_app "-" p0 _ F0), (split_app "-" p1 _ F1),
            (split_app "-" p2 _ F2), (split_free "-" p3 F3).
    reflexivity.
Qed.

Lemma append_empty_r (s : string) : (s ++ "")%string = s.
Proof. induction s as [|c s IH]; simpl; [|rewrite IH]; reflexivity. Qed.

Lemma append_assoc (a b c : string) :
  ((a ++ b) ++ c)%string = (a ++ (b ++ c))%string.
Proof. induction a as [|x a IH]; simpl; [|rewrite IH]; reflexivity. Qed.

Lemma eat_lit_spec (l s r : string) :
  Pattern.eat_lit l s = Some r <-> s = (l ++ r)%string.
Proof.
  revert s. induction l as [|a l IH]; simpl; intros s.
  - split; [intros H; inversion H; reflexivity | intros ->; reflexivity].
  - destruct s as [|b s].
    + split; discriminate.
    + destruct (Ascii.eqb a b) eqn:Hab.
      * apply Ascii.eqb_eq in Hab. subst b. rewrite IH.
        split; [intros ->; reflexivity | intros H; inversion H; reflexivity].
      * split; [discriminate|]. intros H. inversion H; subst.
        rewrite Ascii.eqb_refl in Hab. discriminate.
Qed.

Lemma eat_rep_spec (c : Pattern.cls) (n : nat) (s r : string) :
  Pattern.eat_rep c n s = Some r <->
  exists m, s = (m ++ r)%string /\ String.length m = n /\
            JsString.all_chars (Pattern.in_cls c) m = true.
Proof.
  revert s. induction n as [|n IH]; simpl; intros s.
  - split.
    + intros H. inversion H; subst. exists ""%string. repeat split.
    + intros (m & E & L & _). destruct m; [|discriminate]. subst. reflexivity.
  - destruct s as [|ch s].
    + split; [discriminate|]. intros (m & E & L & _).
      destruct m; discriminate.
    + destruct (Pattern.in_cls c ch) eqn:Hch.
      * rewrite IH. split.
        -- intros (m & E & L & A). exists (String ch m). subst.
           simpl. rewrite Hch, A. repeat split.
        -- intros (m & E & L & A). destruct m as [|x m]; [discriminate|].
           simpl in *. inversion E; subst. inversion L.
           apply andb_true_iff in A as [_ A]. exists m. repeat split; assumption.
      * split; [discriminate|]. intros (m & E & L & A).
        destruct m as [|x m]; [discriminate|]. simpl in *.
        inversion E; subst. rewrite Hch in A. discriminate.
Qed.

(** ** Serial number codec *)

Lemma isValidCRC_split (s : string) :
  isValidCRC s = true <->
  exists p0 p1 p2 p3 : string,
    JsString.split "-" s = [p0; p1; p2; p3] /\
    p3 = JsString.toUpperCase
           (String.substring 0 4 (MD5.md5_hex (p0 ++ "-" ++ p1 ++ "-" ++ p2 ++ "-"))).
Proof.
  unfold isValidCRC. split.
  - destruct (JsString.split "-" s) as [|p0 [|p1 [|p2 [|p3 [|p4 l]]]]];
      try discriminate.
    intros H. apply String.eqb_eq in H.
    exists p0, p1, p2, p3. split; [reflexivity | assumption].
  - intros (p0 & p1 & p2 & p3 & Hs & Hp). rewrite Hs.
    apply String.eqb_eq. assumption.
Qed.

(** A segment count other than four gives [false]; the function is
    total, so nothing is raised. *)
Lemma isValidCRC_wrong_count (s : string) :
  List.length (JsString.split "-" s) <> 4%nat -> isValidCRC s = false.
Proof.
  unfold isValidCRC.
  destruct (JsString.split "-" s) as [|p0 [|p1 [|p2 [|p3 [|p4 l]]]]];
    simpl; intros H; try reflexivity.
  exfalso. apply H. reflexivity.
Qed.

(** The digest in hex starts with four hex digits. *)
Lemma nibble_bounds (x : Z) :
  0 <= (x mod 256) / 16 < 16 /\ 0 <= (x mod 256) mod 16 < 16.
Proof.
  pose proof (Z.mod_pos_bound x 256 ltac:(lia)) as Hb.
  split.
  - split; [apply Z.div_pos; lia | apply Z.div_lt_upper_bound; lia].
  - apply Z.mod_pos_bound. lia.
Qed.

Lemma md5_hex_prefix (s : string) :
  exists n0 n1 n2 n3 : Z,
    (0 <= n0 < 16 /\ 0 <= n1 < 16 /\ 0 <= n2 < 16 /\ 0 <= n3 < 16) /\
    String.substring 0 4 (MD5.md5_hex s)
    = String (MD5.hex_digit n0) (String (MD5.hex_digit n1)
        (String (MD5.hex_digit n2) (String (MD5.hex_digit n3) EmptyString))).
Proof.
  unfold MD5.md5_hex, MD5.digest.
  destruct (fold_left MD5.block _ MD5.init) as [[[a b] c] d].
  unfold MD5.le_bytes at 1.
  cbn [seq map app MD5.hex String.substring].
  eexists; eexists; eexists; eexists. split; [|reflexivity].
  pose proof (nibble_bounds (a / 2 ^ (8 * Z.of_nat 0))) as [H0 H1].
  pose proof (nibble_bounds (a / 2 ^ (8 * Z.of_nat 1))) as [H2 H3].
  repeat split; first [apply H0 | apply H1 | apply H2 | apply H3].
Qed.

Lemma hex_digit_upper (n : Z) :
  0 <= n < 16 ->
  is_upper_hex (JsString.upper_char (MD5.hex_digit n)) = true.
Proof.
  intros Hn.
  assert (H : forallb (fun k => is_upper_hex
                         (JsString.upper_char (MD5.hex_digit (Z.of_nat k))))
                (seq 0 16) = true) by (vm_compute; reflexivity).
  rewrite forallb_forall in H.
  specialize (H (Z.to_nat n)). rewrite Z2Nat.id in H by lia.
  apply H. apply in_seq. lia.
Qed.

Lemma expected_crc_shape (p0 p1 p2 : string) :
  String.length (expected_crc p0 p1 p2) = 4%nat /\
  JsString.all_chars is_upper_hex (expected_crc p0 p1 p2) = true.
Proof.
  unfold expected_crc.
  destruct (md5_hex_prefix (p0 ++ "-" ++ p1 ++ "-" ++ p2 ++ "-"))
    as (n0 & n1 & n2 & n3 & (B0 & B1 & B2 & B3) & E).
  rewrite E. cbn [JsString.toUpperCase String.length JsString.all_chars].
  rewrite !hex_digit_upper by assumption. split; reflexivity.
Qed.

(** C7. [isValidCRC] answers [true] exactly on the inputs made of four
    hyphen-free segments [p0-p1-p2-p3] whose fourth segment is the
    first four characters, uppercased, of the hex MD5 digest of
    [p0-p1-p2-] (trailing hyphen included, checksum segment left out);
    the comparison is exact, so case matters.  On every other input,
    those with another number of segments among them, it answers
    [false].  That checksum is always four characters among [0-9A-F];
    for [DMPOS-2024-000006-] the digest is [0d9abbd8...], so [0D9A] is
    accepted, [0d9a] and [0D9B] are refused, and the preloaded
    [DMPOS-2024-000001-4005] is accepted with no other final digit. *)
Theorem isValidCRC_iff (s : string) :
  (isValidCRC s = true <->
   exists p0 p1 p2 p3 : string,
     s = (p0 ++ "-" ++ p1 ++ "-" ++ p2 ++ "-" ++ p3)%string /\
     no_hyphen p0 = true /\ no_hyphen p1 = true /\
     no_hyphen p2 = true /\ no_hyphen p3 = true /\
     p3 = JsString.toUpperCase
            (String.substring 0 4 (MD5.md5_hex (p0 ++ "-" ++ p1 ++ "-" ++ p2 ++ "-")))) /\
  (forall p0 p1 p2 : string,
     let crc := JsString.toUpperCase
                  (String.substring 0 4
                     (MD5.md5_hex (p0 ++ "-" ++ p1 ++ "-" ++ p2 ++ "-"))) in
     String.length crc = 4%nat /\
     JsString.all_chars is_upper_hex crc = true) /\
  MD5.md5_hex "DMPOS-2024-000006-" = "0d9abbd8b1bef7ac523ffa744615685c" /\
  isValidCRC "DMPOS-2024-000006-0D9A" = true /\
  isValidCRC "DMPOS-2024-000006-0d9a" = false /\
  isValidCRC "DMPOS-2024-000006-0D9B" = false /\
  isValidCRC "DMPOS-2024-000006-0D9" = false /\
  isValidCRC "DMPOS-2024-000006-0D9AB" = false /\
  isValidCRC "DMPOS-2024-000001-4005" = true /\
  isValidCRC "DMPOS-2024-000001-4006" = false /\
  isValidCRC "DMPOS-2024-000002-4005" = false.
Proof.
  split; [|split].
  - rewrite isValidCRC_split. split.
    + intros (p0 & p1 & p2 & p3 & Hs & Hp).
      apply split_four in Hs as (E & F0 & F1 & F2 & F3).
      exists p0, p1, p2, p3. repeat split; assumption.
    + intros (p0 & p1 & p2 & p3 & E & F0 & F1 & F2 & F3 & Hp).
      exists p0, p1, p2, p3. split; [|assumption].
      apply split_four. repeat split; assumption.
  - intros p0 p1 p2. exact (expected_crc_shape p0 p1 p2).
  - vm_compute. repeat split.
Qed.

(** The comparison is case-sensitive and the count is checked. *)
Example isValidCRC_samples :
  map isValidCRC
    ["DMPOS-2024-000001-4005"; "DMPOS-2024-000001-4006"; "DMPOS-2024-000006-0d9a";
     "DMPOS-2024-000006-0D9A"; "DMPOS-2024-000001"; "DMPOS-2024-000001-4005-";
     ""; "---D41D"]
  = [true; false; false; true; false; false; false; false].
Proof. vm_compute. reflexivity. Qed.

(** What [initDB] preloads: only the first of the five test serials
    carries the checksum [isValidCRC] computes. *)
Example testSNs_checksums :
  map isValidCRC testSNs = [true; false; false; false; false].
Proof. vm_compute. reflexivity. Qed.

(** C8, as the code has it. [isValidSNFormat] answers [true] exactly on
    [DMPOS-YYYY-XXXXXX-CCCC] with four digits, six uppercase
    alphanumerics and a checksum segment of four uppercase
    alphanumerics; everything else gives [false]. *)
Theorem isValidSNFormat_iff (s : string) :
  isValidSNFormat s = true <-> pattern_shape s.
Proof.
  unfold isValidSNFormat, Pattern.test, pattern, pattern_shape. cbn [Pattern.eat].
  split.
  - destruct (Pattern.eat_lit "DMPOS-" s) as [s1|] eqn:E1; cbv beta iota; [|discriminate].
    destruct (Pattern.eat_rep Pattern.Digit 4 s1) as [s2|] eqn:E2; cbv beta iota; [|discriminate].
    destruct (Pattern.eat_lit "-" s2) as [s3|] eqn:E3; cbv beta iota; [|discriminate].
    destruct (Pattern.eat_rep Pattern.UpperAlnum 6 s3) as [s4|] eqn:E4; cbv beta iota; [|discriminate].
    destruct (Pattern.eat_lit "-" s4) as [s5|] eqn:E5; cbv beta iota; [|discriminate].
    destruct (Pattern.eat_rep Pattern.UpperAlnum 4 s5) as [s6|] eqn:E6; cbv beta iota; [|discriminate].
    destruct s6; [|discriminate]. intros _.
    apply eat_lit_spec in E1, E3, E5.
    apply eat_rep_spec in E2 as (y & Ey & Ly & Ay).
    apply eat_rep_spec in E4 as (x & Ex & Lx & Ax).
    apply eat_rep_spec in E6 as (c & Ec & Lc & Ac).
    rewrite append_empty_r in Ec. subst.
    exists y, x, c. repeat split; assumption.
  - intros (y & x & c & E & Ly & Ay & Lx & Ax & Lc & Ac). subst s.
    assert (H1 : Pattern.eat_lit "DMPOS-" ("DMPOS-" ++ y ++ "-" ++ x ++ "-" ++ c)
                 = Some (y ++ "-" ++ x ++ "-" ++ c)%string)
      by (apply eat_lit_spec; reflexivity).
    rewrite H1.
    assert (H2 : Pattern.eat_rep Pattern.Digit 4 (y ++ "-" ++ x ++ "-" ++ c)
                 = Some ("-" ++ x ++ "-" ++ c)%string)
      by (apply eat_rep_spec; exists y; repeat split; assumption).
    rewrite H2.
    assert (H3 : Pattern.eat_lit "-" ("-" ++ x ++ "-" ++ c)
                 = Some (x ++ "-" ++ c)%string)
      by (apply eat_lit_spec; reflexivity).
    rewrite H3.
    assert (H4 : Pattern.eat_rep Pattern.UpperAlnum 6 (x ++ "-" ++ c)
                 = Some ("-" ++ c)%string)
      by (apply eat_rep_spec; exists x; repeat split; assumption).
    rewrite H4.
    assert (H5 : Pattern.eat_lit "-" ("-" ++ c) = Some c)
      by (apply eat_lit_spec; reflexivity).
    rewrite H5.
    assert (H6 : Pattern.eat_rep Pattern.UpperAlnum 4 c = Some ""%string)
      by (apply eat_rep_spec; exists c; rewrite append_empty_r;
          repeat split; assumption).
    rewrite H6. reflexivity.
Qed.

(** C8, as the specification words it, fails: a checksum segment of four
    characters that are neither lowercase nor hyphens fits the worded
    shape, and the pattern refuses it. *)
Lemma isValidSNFormat_not_spec_shape :
  spec_shape "DMPOS-2024-000001-40_5" /\
  isValidSNFormat "DMPOS-2024-000001-40_5" = false.
Proof.
  split; [|vm_compute; reflexivity].
  exists "2024"%string, "000001"%string, "40_5"%string.
  repeat split; vm_compute; reflexivity.
Qed.

(** ** incrementTransaction *)

Lemma inc_on_row_trial (e : env) (w : world) (row : counter_row) :
  transaction_counter (store w) = Some row ->
  String.eqb (license_status row) "activated" = false ->
  db_error e GetCounter = None ->
  inc_on_row e w =
    (if total_transactions row >=? maxTrialTransactions
     then IncSettled (Rejected (Error "TRIAL_LIMIT_REACHED"))
     else IncUpdating false (total_transactions row),
     after_get w).
Proof.
  intros Hrow Hst Hget. unfold inc_on_row. rewrite Hget, Hrow, Hst.
  destruct (total_transactions row >=? maxTrialTransactions); reflexivity.
Qed.

Lemma inc_on_row_activated (e : env) (w : world) (row : counter_row) :
  transaction_counter (store w) = Some row ->
  license_status row = "activated" ->
  db_error e GetCounter = None ->
  inc_on_row e w = (IncUpdating true (total_transactions row), after_get w).
Proof.
  intros Hrow Hst Hget. unfold inc_on_row. rewrite Hget, Hrow, Hst. reflexivity.
Qed.

Lemma update_counter_some (f : counter_row -> counter_row) (d : db)
  (row : counter_row) :
  transaction_counter d = Some row ->
  transaction_counter (update_counter f d) = Some (f row).
Proof. intros H. unfold update_counter. simpl. rewrite H. reflexivity. Qed.

(** C1. In trial mode with the database answering: at 99 or more the
    call rejects with [TRIAL_LIMIT_REACHED] and the store is as it was;
    below 99 it resolves, the stored row then has the total
    [total + 1] and its other columns as before, and the call reports
    that total, [remaining = 99 - (total + 1)] and the warning
    [critical] for [remaining <= 4], [high] for [4 < remaining <= 9],
    [medium] for [9 < remaining <= 19] and none above. *)
Theorem incrementTransaction_trial (e : env) (w : world) (row : counter_row) :
  transaction_counter (store w) = Some row ->
  license_status row = "trial" ->
  db_error e GetCounter = None ->
  db_error e SetCounter = None ->
  exists o w',
    incrementTransaction e w = (o, w') /\
    (maxTrialTransactions <= total_transactions row ->
       o = Rejected (Error "TRIAL_LIMIT_REACHED") /\ store w' = store w) /\
    (total_transactions row < maxTrialTransactions ->
       exists r row',
         o = Resolved r /\ i_success r = true /\
         let newCount := total_transactions row + 1 in
         let left := 99 - newCount in
         transaction_counter (store w') = Some row' /\
         total_transactions row' = newCount /\
         licence_columns row' = licence_columns row /\
         i_total r = newCount /\
         i_remaining r = Remaining left /\
         (left <= 4 -> i_warning r = Some "critical") /\
         (4 < left <= 9 -> i_warning r = Some "high") /\
         (9 < left <= 19 -> i_warning r = Some "medium") /\
         (19 < left -> i_warning r = None)).
Proof.
  intros Hrow Hst Hget Hset.
  assert (Hna : String.eqb (license_status row) "activated" = false)
    by (rewrite Hst; reflexivity).
  unfold incrementTransaction. rewrite (inc_on_row_trial e w row Hrow Hna Hget).
  unfold maxTrialTransactions in *.
  destruct (total_transactions row >=? 99) eqn:Hge.
  - apply Z.geb_le in Hge.
    eexists; eexists. split; [reflexivity|]. split.
    + intros _. split; reflexivity.
    + intros Hlt. lia.
  - assert (Hlt : total_transactions row < 99).
    { rewrite Z.geb_leb in Hge. apply Z.leb_gt in Hge. assumption. }
    unfold inc_on_update, bind, emit, write_db, ret, after_get.
    rewrite Hset. cbv beta iota.
    eexists; eexists. split; [reflexivity|]. split; [intros; lia|].
    intros _. eexists. exists (set_total (total_transactions row + 1) row).
    split; [reflexivity|].
    cbn [i_success i_total i_remaining i_warning store].
    split; [reflexivity|]. split; [apply update_counter_some; assumption|].
    split; [reflexivity|]. split; [reflexivity|].
    split; [reflexivity|]. split; [reflexivity|].
    unfold maxTrialTransactions.
    set (left := 99 - (total_transactions row + 1)).
    repeat split; intros Hl.
    + destruct (left <=? 4) eqn:E; [reflexivity | apply Z.leb_gt in E; lia].
    + destruct (left <=? 4) eqn:E; [apply Z.leb_le in E; lia|].
      destruct (left <=? 9) eqn:E9; [reflexivity | apply Z.leb_gt in E9; lia].
    + destruct (left <=? 4) eqn:E; [apply Z.leb_le in E; lia|].
      destruct (left <=? 9) eqn:E9; [apply Z.leb_le in E9; lia|].
      destruct (left <=? 19) eqn:E19; [reflexivity | apply Z.leb_gt in E19; lia].
    + destruct (left <=? 4) eqn:E; [apply Z.leb_le in E; lia|].
      destruct (left <=? 9) eqn:E9; [apply Z.leb_le in E9; lia|].
      destruct (left <=? 19) eqn:E19; [apply Z.leb_le in E19; lia | reflexivity].
Qed.

(** At 94 of 99: the call stores 95 and reports 95, 4 left and the
    warning [critical]. *)
Lemma incrementTransaction_trial_witness :
  let e := offline_env 0 in
  let row := mkCounter 94 "trial" None None None None None in
  let w := mkWorld (mkDb (Some row) [] [] 0) [] in
  (transaction_counter (store w) = Some row /\
   license_status row = "trial" /\
   db_error e GetCounter = None /\
   db_error e SetCounter = None) /\
  exists r row' w',
    incrementTransaction e w = (Resolved r, w') /\
    transaction_counter (store w') = Some row' /\
    total_transactions row' = 95 /\
    license_status row' = "trial" /\
    i_success r = true /\
    i_total r = 95 /\
    i_remaining r = Remaining 4 /\
    i_warning r = Some "critical".
Proof.
  intros e row w. split.
  - repeat split; reflexivity.
  - destruct (incrementTransaction_trial e w row eq_refl eq_refl eq_refl eq_refl)
      as (o & w' & Hrun & _ & Hbelow).
    destruct (Hbelow ltac:(vm_compute; reflexivity))
      as (r & row' & Ho & Hs & Hrow' & Ht & Hc & Hi & Hr & Hcrit & _).
    exists r, row', w'. subst o.
    split; [exact Hrun|]. split; [exact Hrow'|]. split; [exact Ht|].
    split; [exact (f_equal (fun c => fst (fst (fst (fst (fst c))))) Hc)|].
    split; [exact Hs|]. split; [exact Hi|]. split; [exact Hr|].
    apply Hcrit. vm_compute. discriminate.
Defined.

(** The run of the specification: from a new installation 99 calls in
    a row resolve, with [remaining] going from 98 down to 0, and the
    100th rejects and leaves the counter at 99. *)
Example hundred_calls :
  let (os, w') := in_sequence (repeat (offline_env 0) 100) new_install in
  map (fun o => match o with
                | Resolved r => Some (i_remaining r)
                | _ => None
                end) os
  = map (fun k => Some (Remaining (98 - Z.of_nat k))) (seq 0 99) ++ [None] /\
  nth 99 os (Uncaught (Error "")) = Rejected (Error "TRIAL_LIMIT_REACHED") /\
  option_map total_transactions (transaction_counter (store w')) = Some 99.
Proof. vm_compute. auto. Qed.

(** The route turns the rejection into the [TRIAL_LIMIT_REACHED]
    answer. *)
Example limit_error_kind :
  increment_error_kind (Error "TRIAL_LIMIT_REACHED") = "TRIAL_LIMIT_REACHED".
Proof. reflexivity. Qed.

(** The warning changes where [remaining] passes 19, 9 and 4. *)
Example warning_boundaries :
  map (fun n => match fst (incrementTransaction (offline_env 0) (trial_world n)) with
                | Resolved r => (i_remaining r, i_warning r)
                | _ => (Unlimited, None)
                end)
      [78; 79; 88; 89; 93; 94; 98]
  = [(Remaining 20, None); (Remaining 19, Some "medium");
     (Remaining 10, Some "medium"); (Remaining 9, Some "high");
     (Remaining 5, Some "high"); (Remaining 4, Some "critical");
     (Remaining 0, Some "critical")].
Proof. vm_compute. reflexivity. Qed.

(** One call on an activated row: what it computes. No clock reading
    enters. *)
Lemma activated_call_run (e : env) (w : world) (row : counter_row) :
  transaction_counter (store w) = Some row ->
  license_status row = "activated" ->
  db_error e GetCounter = None ->
  db_error e IncrCounter = None ->
  incrementTransaction e w =
    (Resolved (mkIncrement true (total_transactions row + 1) Unlimited None
                 "activated" None),
     mkWorld (update_counter (fun r => set_total (total_transactions r + 1) r)
                (store w))
             (trace w ++ [EvDbGet TransactionCounter]
                     ++ [EvDbRun TransactionCounter])).
Proof.
  intros Hrow Hst Hget Hincr.
  unfold incrementTransaction.
  rewrite (inc_on_row_activated e w row Hrow Hst Hget).
  unfold inc_on_update, bind, emit, write_db, ret, after_get.
  rewrite Hincr. cbv beta iota. cbn [store trace].
  rewrite <- app_assoc. reflexivity.
Qed.

(** C5. With [licenseStatus = activated] and the database answering,
    the call resolves whatever the counter is and reports
    [remaining = 'unlimited']; the stored row then has the total
    [total + 1] and its other columns as before.  The total the call
    reports is a sum of JavaScript numbers: it is [total + 1] for a
    counter within [Number.MAX_SAFE_INTEGER]. *)
Theorem incrementTransaction_activated (e : env) (w : world) (row : counter_row) :
  transaction_counter (store w) = Some row ->
  license_status row = "activated" ->
  db_error e GetCounter = None ->
  db_error e IncrCounter = None ->
  exists r w' row',
    incrementTransaction e w = (Resolved r, w') /\
    i_success r = true /\
    i_remaining r = Unlimited /\
    transaction_counter (store w') = Some row' /\
    total_transactions row' = total_transactions row + 1 /\
    licence_columns row' = licence_columns row /\
    (JsNumber.isSafeInteger (total_transactions row) = true ->
       i_total r = total_transactions row + 1).
Proof.
  intros Hrow Hst Hget Hincr.
  rewrite (activated_call_run e w row Hrow Hst Hget Hincr).
  eexists; eexists. exists (set_total (total_transactions row + 1) row).
  split; [reflexivity|].
  cbn [i_success i_total i_remaining store].
  split; [reflexivity|]. split; [reflexivity|].
  split; [apply (update_counter_some
                   (fun r => set_total (total_transactions r + 1) r) _ _ Hrow)|].
  split; [reflexivity|]. split; [reflexivity|].
  intros _. reflexivity.
Qed.

(** At 5000 on an activated installation: the call stores 5001 and
    reports 5001 with nothing left to count down. *)
Lemma incrementTransaction_activated_witness :
  let e := offline_env 0 in
  let row := mkCounter 5000 "activated" (Some unlisted_serial) (Some "hw")
                       (Some 0) (Some 0) None in
  let w := mkWorld (mkDb (Some row) [] [] 0) [] in
  (transaction_counter (store w) = Some row /\
   license_status row = "activated" /\
   db_error e GetCounter = None /\
   db_error e IncrCounter = None) /\
  exists r w' row',
    incrementTransaction e w = (Resolved r, w') /\
    i_success r = true /\
    i_remaining r = Unlimited /\
    transaction_counter (store w') = Some row' /\
    total_transactions row' = 5001 /\
    license_status row' = "activated" /\
    i_total r = 5001.
Proof.
  intros e row w. split.
  - repeat split; reflexivity.
  - destruct (incrementTransaction_activated e w row eq_refl eq_refl eq_refl eq_refl)
      as (r & w' & row' & Hrun & Hs & Hr & Hrow' & Ht & Hc & Hi).
    exists r, w', row'.
    split; [exact Hrun|]. split; [exact Hs|]. split; [exact Hr|].
    split; [exact Hrow'|]. split; [exact Ht|].
    split; [exact (f_equal (fun c => fst (fst (fst (fst (fst c))))) Hc)|].
    apply Hi. reflexivity.
Defined.

(** ** getActivationStatus *)

Lemma isTemporary_spec (e : env) (row : counter_row) :
  0 <= now e ->
  (isTemporary e row = true <->
   exists t, temporary_until row = Some t /\ now e < t).
Proof.
  intros Hnow. unfold isTemporary.
  destruct (temporary_until row) as [t|].
  - rewrite andb_true_iff, negb_true_iff, Z.eqb_neq, Z.ltb_lt. split.
    + intros [_ H]. exists t. split; [reflexivity | assumption].
    + intros (t' & E & H). inversion E; subst. split; lia.
  - split; [discriminate | intros (t & E & _); discriminate].
Qed.

(** C3, as the code has it. With the row present, the database
    answering, the clock past the epoch and the stored
    [temporary_until], if any, a time value a [Date] can hold,
    [getActivationStatus] resolves without touching the store;
    [status] is ["temporary"] whenever [temporary_until] is set and
    strictly in the future, whatever [license_status] is, and the
    stored [license_status] otherwise; [remaining] is ['unlimited']
    when the licence is activated or the grace period runs, and
    [max(0, 99 - total)] otherwise. *)
Theorem getActivationStatus_status (e : env) (w : world) (row : counter_row) :
  transaction_counter (store w) = Some row ->
  db_error e GetCounter = None ->
  0 <= now e ->
  (forall t, temporary_until row = Some t -> JsNumber.isDate t = true) ->
  exists r w',
    getActivationStatus e w = (Resolved r, w') /\
    store w' = store w /\
    let grace := exists t, temporary_until row = Some t /\ now e < t in
    (grace -> s_status r = "temporary") /\
    (~ grace -> s_status r = license_status row) /\
    (license_status row = "activated" \/ grace -> s_remaining r = Unlimited) /\
    (license_status row <> "activated" -> ~ grace ->
       s_remaining r =
         Remaining (Z.max 0 (maxTrialTransactions - total_transactions row))).
Proof.
  intros Hrow Hget Hnow _.
  unfold getActivationStatus, bind, emit, read_db, ret.
  rewrite Hget. cbv beta iota. cbn [store]. rewrite Hrow.
  eexists; eexists. split; [reflexivity|]. split; [reflexivity|].
  cbn [s_status s_remaining].
  pose proof (isTemporary_spec e row Hnow) as HT.
  destruct (isTemporary e row) eqn:Ht.
  - assert (G : exists t, temporary_until row = Some t /\ now e < t)
      by (apply HT; reflexivity).
    repeat split.
    + intros NG. exfalso. exact (NG G).
    + rewrite orb_true_r. reflexivity.
    + intros _ NG. exfalso. exact (NG G).
  - assert (NG : ~ exists t, temporary_until row = Some t /\ now e < t)
      by (intros G; apply HT in G; discriminate).
    repeat split.
    + intros G. exfalso. exact (NG G).
    + intros [Hact | G]; [|exfalso; exact (NG G)].
      rewrite Hact. reflexivity.
    + intros Hna _.
      destruct (String.eqb (license_status row) "activated") eqn:E.
      * apply String.eqb_eq in E. contradiction.
      * reflexivity.
Qed.

Lemma getActivationStatus_status_witness :
  let e := offline_env 2000 in
  let row := mkCounter 7 "activated" (Some unlisted_serial) (Some "hw")
                       (Some 1000) (Some 1000) (Some 3000) in
  let w := mkWorld (mkDb (Some row) [] [] 0) [] in
  (transaction_counter (store w) = Some row /\
   db_error e GetCounter = None /\
   0 <= now e /\
   (forall t, temporary_until row = Some t -> JsNumber.isDate t = true)) /\
  exists r w',
    getActivationStatus e w = (Resolved r, w') /\
    store w' = store w /\
    let grace := exists t, temporary_until row = Some t /\ now e < t in
    (grace -> s_status r = "temporary") /\
    (~ grace -> s_status r = license_status row) /\
    (license_status row = "activated" \/ grace -> s_remaining r = Unlimited) /\
    (license_status row <> "activated" -> ~ grace ->
       s_remaining r =
         Remaining (Z.max 0 (maxTrialTransactions - total_transactions row))).
Proof.
  intros e row w.
  assert (Hdate : forall t, temporary_until row = Some t -> JsNumber.isDate t = true).
  { intros t Ht. injection Ht as <-. reflexivity. }
  split.
  - split; [reflexivity|]. split; [reflexivity|].
    split; [vm_compute; discriminate | exact Hdate].
  - apply (getActivationStatus_status e w row);
      [reflexivity | reflexivity | vm_compute; discriminate | exact Hdate].
Defined.

(** C3, as the specification words it, fails: in the state a temporary
    activation leaves, [license_status] is [activated] and the status
    reported during the grace period is ["temporary"]. *)
Lemma getActivationStatus_activated_reports_temporary :
  let w1 := snd (activateLicense (offline_env 1000) unlisted_serial "{}" new_install) in
  option_map license_status (transaction_counter (store w1)) = Some "activated" /\
  exists r w2,
    getActivationStatus (offline_env 2000) w1 = (Resolved r, w2) /\
    s_status r = "temporary" /\
    s_status r <> "activated".
Proof.
  cbv zeta. split; [vm_compute; reflexivity|].
  eexists; eexists. split; [vm_compute; reflexivity|].
  split; [reflexivity | discriminate].
Qed.

(** ** resetTrialCounter *)

Lemma resetTrialCounter_row (e : env) (w : world) (row : counter_row) :
  transaction_counter (store w) = Some row ->
  db_error e ResetCounter = None ->
  exists w',
    resetTrialCounter e w = (Resolved (true, "Trial counter reset"), w') /\
    transaction_counter (store w') = Some (reset_row row).
Proof.
  intros Hrow Hreset.
  unfold resetTrialCounter, bind, emit, write_db, ret.
  rewrite Hreset. cbv beta iota. cbn [store].
  eexists. split; [reflexivity|].
  cbn [store]. apply update_counter_some. assumption.
Qed.

Lemma reset_row_fresh (row : counter_row) :
  reset_row row = fresh_counter <-> last_validation row = None.
Proof.
  unfold reset_row, fresh_counter. split.
  - intros H. inversion H. reflexivity.
  - intros ->. reflexivity.
Qed.

(** C9 at the failing input. After an activation the reset resolves
    and leaves [last_validation] as the activation set it: the row is
    not the row of a new installation. *)
Theorem resetTrialCounter_keeps_last_validation :
  let w1 := snd (activateLicense (offline_env 1000) unlisted_serial "{}" new_install) in
  exists w2,
    resetTrialCounter (offline_env 5000) w1
      = (Resolved (true, "Trial counter reset"), w2) /\
    transaction_counter (store w2)
      = Some (mkCounter 0 "trial" None None None (Some 1000) None) /\
    transaction_counter (store w2) <> Some fresh_counter.
Proof.
  cbv zeta. eexists. split; [vm_compute; reflexivity|].
  split; [reflexivity | discriminate].
Qed.

(** ** activateLicense: the checks come first *)

(** C6. A serial that fails the format check or the checksum check is
    rejected in the world as it stands: the trace gains no event (no
    fingerprint, no request, no statement) and the store is untouched.
    The route answers [INVALID_FORMAT] when the format check fails and
    [INVALID_CHECKSUM] when only the checksum check does. *)
Theorem activateLicense_fails_fast (e : env) (serialNumber computerInfo : string)
  (w : world) :
  isValidSNFormat serialNumber && isValidCRC serialNumber = false ->
  exists error,
    activateLicense e serialNumber computerInfo w = (Rejected error, w) /\
    activate_error_kind error =
      (if isValidSNFormat serialNumber then "INVALID_CHECKSUM"
       else "INVALID_FORMAT").
Proof.
  intros H. unfold activateLicense.
  destruct (isValidSNFormat serialNumber).
  - simpl in H. rewrite H. cbn [negb].
    eexists. split; [reflexivity | vm_compute; reflexivity].
  - cbn [negb]. eexists. split; [reflexivity | vm_compute; reflexivity].
Qed.

Lemma activateLicense_fails_fast_witness :
  let e := offline_env 1000 in
  let sn := "DMPOS-2024-000002-53D4"%string in
  isValidSNFormat sn && isValidCRC sn = false /\
  exists error,
    activateLicense e sn "{}" new_install = (Rejected error, new_install) /\
    activate_error_kind error =
      (if isValidSNFormat sn then "INVALID_CHECKSUM" else "INVALID_FORMAT").
Proof.
  intros e sn. split.
  - vm_compute. reflexivity.
  - apply (activateLicense_fails_fast e sn "{}" new_install).
    vm_compute. reflexivity.
Defined.

(** A serial that passes both checks does leave events: the
    fingerprint first, then the request. *)
Example valid_serial_trace :
  trace (snd (activateLicense (offline_env 1000) unlisted_serial "{}" new_install))
  = [EvFingerprint;
     EvFetch "https://dmpos-activation.railway.app/api/v1/license/validate";
     EvDbGet PreloadedSns; EvDbRun ValidationQueue; EvDbRun TransactionCounter].
Proof. vm_compute. reflexivity. Qed.

(** ** activateLicense: what a resolved call leaves *)

(** The requests do not touch the database. *)
Lemma validateOnline_store (e : env) (sn hw ci : string) (w : world) :
  store (snd (validateOnline e sn hw ci w)) = store w.
Proof.
  unfold validateOnline, fetch, json, catch, bind, emit, ret, throw.
  destruct (validate_reply e) as [msg | status [validate|]]; cbv beta iota;
    try reflexivity.
  - destruct (negb (ok status)); [reflexivity|].
    destruct (negb (vb_valid validate)).
    + destruct (JsString.equals (vb_reason validate) "MAX_INSTALLATIONS_REACHED");
        reflexivity.
    + destruct (vb_existing validate); [reflexivity|].
      destruct (vb_canActivate validate); [|reflexivity].
      destruct (activate_reply e) as [msg2 | status2 [activate|]]; cbv beta iota;
        try reflexivity.
      * destruct (negb (ok status2)); [destruct (status2 =? 409); reflexivity|].
        destruct (ab_success activate); reflexivity.
      * destruct (negb (ok status2)); [destruct (status2 =? 409)|]; reflexivity.
  - destruct (negb (ok status)); reflexivity.
Qed.

(** The offline path writes to the queue only. *)
Lemma validateOffline_counter (e : env) (sn hw : string) (w : world) :
  transaction_counter (store (snd (validateOffline e sn hw w)))
  = transaction_counter (store w).
Proof.
  unfold validateOffline, queueForOnlineValidation, bind, emit, read_db,
    write_db, ret, throw.
  destruct (db_error e GetPreloaded); cbv beta iota; [reflexivity|].
  cbn [store].
  destruct (match lookup_preloaded sn (store w) with
            | Some r => p_valid r
            | None => false
            end); [reflexivity|].
  cbv beta iota.
  destruct (db_error e InsertQueue); reflexivity.
Qed.

(** A call resolves only through the [UPDATE] that sets
    [license_status = 'activated']. *)
Lemma activateLicense_resolved (e : env) (sn ci : string) (w w' : world)
  (a : activation) :
  activateLicense e sn ci w = (Resolved a, w') ->
  exists (v : validation) (w2 : world),
    transaction_counter (store w2) = transaction_counter (store w) /\
    v_success v = true /\
    store w' =
      update_counter
        (set_activated e sn (fingerprint e)
           (if v_temporary v then v_expires v else None))
        (store w2) /\
    a_temporary a = v_temporary v /\
    a_expires a = v_expires v.
Proof.
  unfold activateLicense.
  destruct (negb (isValidSNFormat sn)); [discriminate|].
  destruct (negb (isValidCRC sn)); [discriminate|].
  unfold generateHardwareFingerprint.
  unfold bind at 1 2. unfold emit at 1. unfold ret at 1. cbv beta iota.
  set (w1 := mkWorld (store w) (trace w ++ [EvFingerprint])).
  unfold bind at 1. unfold catch.
  pose proof (validateOnline_store e sn (fingerprint e) ci w1) as Hon.
  destruct (validateOnline e sn (fingerprint e) ci w1) as [[v | err | err] wo];
    cbn [snd] in Hon.
  - (* validated online *)
    destruct (v_success v) eqn:Hs.
    + unfold bind, emit, write_db, ret, throw.
      destruct (db_error e UpdateActivation); cbv beta iota; [discriminate|].
      intros H. inversion H; subst. exists v, wo.
      rewrite Hon. repeat split; auto.
    + destruct (JsString.equals (v_code v) "MAX_INSTALLATIONS_REACHED");
        discriminate.
  - (* fallback to the preloaded table *)
    pose proof (validateOffline_counter e sn (fingerprint e) wo) as Hoff.
    destruct (validateOffline e sn (fingerprint e) wo) as [[v | err' | err'] wf];
      cbn [snd] in Hoff; try discriminate.
    destruct (v_success v) eqn:Hs.
    + unfold bind, emit, write_db, ret, throw.
      destruct (db_error e UpdateActivation); cbv beta iota; [discriminate|].
      intros H. inversion H; subst. exists v, wf.
      rewrite Hoff, Hon. repeat split; auto.
    + destruct (JsString.equals (v_code v) "MAX_INSTALLATIONS_REACHED");
        discriminate.
  - discriminate.
Qed.

Lemma in_sequence_activated (es : list env) :
  forall (w : world) (row : counter_row),
    transaction_counter (store w) = Some row ->
    license_status row = "activated" ->
    Forall answering es ->
    Forall unlimited_success (fst (in_sequence es w)).
Proof.
  induction es as [|e es IH]; intros w row Hrow Hst Hes; simpl.
  - constructor.
  - inversion Hes as [|e' es' [Hget Hincr] Hrest]; subst.
    rewrite (activated_call_run e w row Hrow Hst Hget Hincr).
    pose proof (update_counter_some
                  (fun r => set_total (total_transactions r + 1) r)
                  (store w) row Hrow) as Hrow'.
    match goal with
    | |- context [in_sequence es ?w1] =>
        specialize (IH w1 _ Hrow' Hst Hrest); destruct (in_sequence es w1) as [os w2]
    end.
    cbn [fst] in *. constructor; [|assumption].
    eexists. repeat split.
Qed.

(** C10. A resolved [activateLicense], also one granted offline for
    the grace period only, leaves [license_status = 'activated'] (and,
    when temporary, the expiry in [temporary_until]).  From there every
    [incrementTransaction] resolves with [remaining = 'unlimited'] as
    long as the database answers, at whatever time each call is made:
    the expiry is never looked at. *)
Theorem grace_deadline_not_enforced (e : env) (sn ci : string) (w w' : world)
  (row : counter_row) (a : activation) :
  transaction_counter (store w) = Some row ->
  activateLicense e sn ci w = (Resolved a, w') ->
  (exists row',
     transaction_counter (store w') = Some row' /\
     license_status row' = "activated" /\
     (a_temporary a = true -> temporary_until row' = a_expires a)) /\
  (forall es : list env,
     Forall answering es ->
     Forall unlimited_success (fst (in_sequence es w'))).
Proof.
  intros Hrow Hact.
  destruct (activateLicense_resolved e sn ci w w' a Hact)
    as (v & w2 & Hc & _ & Hstore & Htmp & Hexp).
  rewrite Hrow in Hc.
  pose proof (update_counter_some
                (set_activated e sn (fingerprint e)
                   (if v_temporary v then v_expires v else None))
                (store w2) row Hc) as Hrow'.
  rewrite <- Hstore in Hrow'.
  split.
  - eexists. split; [exact Hrow'|]. split; [reflexivity|].
    intros Ht. cbn [temporary_until set_activated].
    rewrite Htmp in Ht. rewrite Ht, Hexp. reflexivity.
  - intros es Hes.
    exact (in_sequence_activated es w' _ Hrow' eq_refl Hes).
Qed.

(** The grace activation of the examples, and calls made before, at
    and long after its expiry. *)
Lemma grace_deadline_not_enforced_witness :
  let e := offline_env 1000 in
  let run := activateLicense e unlisted_serial "{}" new_install in
  let w' := snd run in
  let a := mkActivation true unlisted_serial (fingerprint e) "unknown" true
             (Some (1000 + thirty_days))
             "Temporary activation - requires online verification within 30 days" in
  (transaction_counter (store new_install) = Some fresh_counter /\
   run = (Resolved a, w')) /\
  (exists row',
     transaction_counter (store w') = Some row' /\
     license_status row' = "activated" /\
     (a_temporary a = true -> temporary_until row' = a_expires a)) /\
  Forall unlimited_success
    (fst (in_sequence
            [offline_env 2000; offline_env (1000 + thirty_days);
             offline_env (1000 + 12 * thirty_days)] w')).
Proof.
  intros e run w' a.
  assert (Hrow : transaction_counter (store new_install) = Some fresh_counter)
    by reflexivity.
  assert (Hrun : run = (Resolved a, w')) by (vm_compute; reflexivity).
  split; [split; assumption|].
  destruct (grace_deadline_not_enforced e unlisted_serial "{}" new_install w'
              fresh_counter a Hrow Hrun) as [Hstate Hcalls].
  split; [exact Hstate|].
  apply Hcalls.
  repeat constructor.
Defined.

(** ** The validation queue *)

Lemma fold_max_ge (l : list Z) (x : Z) :
  In x l -> x <= fold_right Z.max 0 l.
Proof.
  induction l as [|y l IH]; simpl; intros H; [contradiction|].
  destruct H as [-> | H]; [lia | specialize (IH H); lia].
Qed.

Lemma filter_all {A} (f : A -> bool) (l : list A) :
  (forall x, In x l -> f x = true) -> filter f l = l.
Proof.
  induction l as [|y l IH]; simpl; intros H; [reflexivity|].
  rewrite (H y (or_introl eq_refl)), IH; [reflexivity|].
  intros x Hx. apply H. right. assumption.
Qed.

(** The id of the new row is new, so [OR REPLACE] finds nothing to
    replace: the statement always adds a row. *)
Lemma enqueue_appends (e : env) (sn hw : string) (d : db) :
  validation_queue (enqueue e sn hw d)
  = validation_queue d ++ [mkQueue (next_queue_id d) sn hw (now e) 0 "pending"].
Proof.
  unfold enqueue, insert_or_replace. cbn [validation_queue q_id].
  rewrite filter_all; [reflexivity|].
  intros x Hx. apply negb_true_iff, Z.eqb_neq.
  assert (q_id x <= fold_right Z.max 0 (map q_id (validation_queue d)))
    by (apply fold_max_ge, in_map; assumption).
  unfold next_queue_id. lia.
Qed.

(** The part of C2 that holds: with the server out of reach and the
    serial not preloaded as valid, the call resolves as a temporary
    grant that expires 30 days after the clock reading of the call,
    and one pending row with zero attempts joins the queue. *)
Lemma activateLicense_offline_grant (e : env) (sn ci : string) (w : world) :
  isValidSNFormat sn = true ->
  isValidCRC sn = true ->
  (forall w1, exists err, fst (validateOnline e sn (fingerprint e) ci w1) = Rejected err) ->
  match lookup_preloaded sn (store w) with
  | Some r => p_valid r
  | None => false
  end = false ->
  db_error e GetPreloaded = None ->
  db_error e InsertQueue = None ->
  db_error e UpdateActivation = None ->
  exists a w',
    activateLicense e sn ci w = (Resolved a, w') /\
    a_temporary a = true /\
    a_expires a = Some (now e + thirty_days) /\
    validation_queue (store w')
    = validation_queue (store w)
      ++ [mkQueue (next_queue_id (store w)) sn (fingerprint e) (now e) 0 "pending"].
Proof.
  intros Hfmt Hcrc Honline Hrow Hget Hins Hupd.
  unfold activateLicense. rewrite Hfmt, Hcrc. cbn [negb].
  unfold generateHardwareFingerprint.
  unfold bind at 1 2. unfold emit at 1. unfold ret at 1. cbv beta iota.
  set (w1 := mkWorld (store w) (trace w ++ [EvFingerprint])).
  unfold bind at 1. unfold catch.
  destruct (Honline w1) as [err Herr].
  pose proof (validateOnline_store e sn (fingerprint e) ci w1) as Hon.
  destruct (validateOnline e sn (fingerprint e) ci w1) as [o wo].
  cbn [fst snd] in Herr, Hon. subst o. change (store w1) with (store w) in Hon.
  unfold validateOffline, queueForOnlineValidation, bind, emit, read_db,
    write_db, ret, throw.
  rewrite Hget, Hins, Hupd. cbv beta iota. cbn [store v_success].
  rewrite Hon, Hrow. cbv beta iota.
  cbn [v_success v_temporary v_expires v_type v_message store].
  eexists; eexists. split; [reflexivity|].
  cbn [a_temporary a_expires store]. split; [reflexivity|]. split; [reflexivity|].
  unfold update_counter. cbn [validation_queue].
  apply enqueue_appends.
Qed.

(** C2 at the failing input. The same unlisted serial is activated
    twice on the same machine with the server out of reach.  Both
    calls resolve as temporary grants expiring 30 days after their
    clock reading, and the queue then holds two pending rows for the
    one serial and hardware id: the second [INSERT OR REPLACE] added a
    row beside the first. *)
Theorem repeated_activation_queues_twice :
  let e1 := offline_env 1000 in
  let e2 := offline_env 2000 in
  let hw := fingerprint e1 in
  let (o1, w1) := activateLicense e1 unlisted_serial "{}" new_install in
  let (o2, w2) := activateLicense e2 unlisted_serial "{}" w1 in
  (exists a1 a2,
     o1 = Resolved a1 /\ o2 = Resolved a2 /\
     a_temporary a1 = true /\ a_expires a1 = Some (1000 + thirty_days) /\
     a_temporary a2 = true /\ a_expires a2 = Some (2000 + thirty_days)) /\
  validation_queue (store w1) = [mkQueue 1 unlisted_serial hw 1000 0 "pending"] /\
  validation_queue (store w2)
  = [mkQueue 1 unlisted_serial hw 1000 0 "pending";
     mkQueue 2 unlisted_serial hw 2000 0 "pending"].
Proof.
  vm_compute. split; [|split; reflexivity].
  eexists; eexists. repeat split.
Qed.

(** ** Calls in flight in trial mode *)






Lemma count_resolved_cons {A} (o : settled A) (os : list (settled A)) :
  count_resolved (o :: os)
  = (if resolved o then 1 else 0) + count_resolved os.
Proof.
  unfold count_resolved. simpl. destruct (resolved o); simpl List.length; lia.
Qed.




(* ================================================================== *)
(** * Further properties of the service *)

(** ** The codec: how the two checks fit together *)

Lemma all_chars_impl (p q : ascii -> bool) (s : string) :
  (forall c, p c = true -> q c = true) ->
  JsString.all_chars p s = true -> JsString.all_chars q s = true.
Proof.
  intros Hpq. induction s as [|c s IH]; simpl; [reflexivity|].
  intros H. apply andb_true_iff in H as [Hc Hs].
  rewrite (Hpq c Hc), (IH Hs). reflexivity.
Qed.

Lemma forall_ascii (P : ascii -> bool) :
  forallb (fun n => P (ascii_of_nat n)) (seq 0 256) = true ->
  forall c, P c = true.
Proof.
  intros H c. rewrite forallb_forall in H.
  rewrite <- (ascii_nat_embedding c). apply H.
  apply in_seq. pose proof (nat_ascii_bounded c). lia.
Qed.

Lemma ascii_implies (p q : ascii -> bool) :
  forallb (fun n => implb (p (ascii_of_nat n)) (q (ascii_of_nat n))) (seq 0 256)
  = true ->
  forall c, p c = true -> q c = true.
Proof.
  intros H c Hc.
  pose proof (forall_ascii (fun c => implb (p c) (q c)) H c) as Hi.
  cbv beta in Hi. rewrite Hc in Hi. exact Hi.
Qed.

Lemma upper_alnum_not_hyphen (c : ascii) :
  JsString.is_upper_alnum c = true -> negb (Ascii.eqb c "-") = true.
Proof.
  revert c. apply ascii_implies. vm_compute. reflexivity.
Qed.

Lemma digit_upper_alnum (c : ascii) :
  JsString.is_digit c = true -> JsString.is_upper_alnum c = true.
Proof.
  intros H. unfold JsString.is_upper_alnum. rewrite H. apply orb_true_r.
Qed.

Lemma upper_hex_upper_alnum (c : ascii) :
  is_upper_hex c = true -> JsString.is_upper_alnum c = true.
Proof.
  revert c. apply ascii_implies. vm_compute. reflexivity.
Qed.

(** What the pattern accepts, read off the match. *)
Lemma format_shape (s : string) :
  isValidSNFormat s = true -> pattern_shape s.
Proof.
  unfold isValidSNFormat, Pattern.test, pattern, pattern_shape. cbn [Pattern.eat].
  destruct (Pattern.eat_lit "DMPOS-" s) as [s1|] eqn:E1; cbv beta iota; [|discriminate].
  destruct (Pattern.eat_rep Pattern.Digit 4 s1) as [s2|] eqn:E2; cbv beta iota; [|discriminate].
  destruct (Pattern.eat_lit "-" s2) as [s3|] eqn:E3; cbv beta iota; [|discriminate].
  destruct (Pattern.eat_rep Pattern.UpperAlnum 6 s3) as [s4|] eqn:E4; cbv beta iota; [|discriminate].
  destruct (Pattern.eat_lit "-" s4) as [s5|] eqn:E5; cbv beta iota; [|discriminate].
  destruct (Pattern.eat_rep Pattern.UpperAlnum 4 s5) as [s6|] eqn:E6; cbv beta iota; [|discriminate].
  destruct s6; [|discriminate]. intros _.
  apply eat_lit_spec in E1, E3, E5.
  apply eat_rep_spec in E2 as (y & Ey & Ly & Ay).
  apply eat_rep_spec in E4 as (x & Ex & Lx & Ax).
  apply eat_rep_spec in E6 as (c & Ec & Lc & Ac).
  rewrite append_empty_r in Ec. subst.
  exists y, x, c. repeat split; assumption.
Qed.

Lemma isValidCRC_segments (p0 p1 p2 p3 : string) :
  no_hyphen p0 = true -> no_hyphen p1 = true ->
  no_hyphen p2 = true -> no_hyphen p3 = true ->
  isValidCRC (p0 ++ "-" ++ p1 ++ "-" ++ p2 ++ "-" ++ p3)
  = String.eqb p3 (expected_crc p0 p1 p2).
Proof.
  intros F0 F1 F2 F3. unfold isValidCRC.
  assert (Hs : JsString.split "-" (p0 ++ "-" ++ p1 ++ "-" ++ p2 ++ "-" ++ p3)
               = [p0; p1; p2; p3])
    by (apply split_four; repeat split; assumption).
  rewrite Hs. reflexivity.
Qed.

(** X1. On a serial that passes the format check, the checksum check
    is the comparison of the last four characters with the checksum
    computed from the first eighteen, [DMPOS-YYYY-XXXXXX-]; that
    checksum is four characters among [0-9A-F]. *)
Theorem format_then_checksum (s : string) :
  isValidSNFormat s = true ->
  exists y x c : string,
    s = ("DMPOS-" ++ y ++ "-" ++ x ++ "-" ++ c)%string /\
    String.length s = 22%nat /\
    isValidCRC s = String.eqb c (expected_crc "DMPOS" y x) /\
    String.length (expected_crc "DMPOS" y x) = 4%nat /\
    JsString.all_chars is_upper_hex (expected_crc "DMPOS" y x) = true.
Proof.
  intros H. destruct (format_shape s H) as (y & x & c & E & Ly & Ay & Lx & Ax & Lc & Ac).
  exists y, x, c. split; [assumption|]. split; [|split].
  - subst s.
    destruct y as [|y0 [|y1 [|y2 [|y3 [|? ?]]]]]; try discriminate.
    destruct x as [|x0 [|x1 [|x2 [|x3 [|x4 [|x5 [|? ?]]]]]]]; try discriminate.
    destruct c as [|c0 [|c1 [|c2 [|c3 [|? ?]]]]]; try discriminate.
    reflexivity.
  - subst s. apply (isValidCRC_segments "DMPOS" y x c).
    + reflexivity.
    + unfold no_hyphen, JsString.free_of.
      apply (all_chars_impl JsString.is_digit); [|assumption].
      intros ch Hd. apply upper_alnum_not_hyphen, digit_upper_alnum. assumption.
    + unfold no_hyphen, JsString.free_of.
      apply (all_chars_impl JsString.is_upper_alnum); [|assumption].
      apply upper_alnum_not_hyphen.
    + unfold no_hyphen, JsString.free_of.
      apply (all_chars_impl JsString.is_upper_alnum); [|assumption].
      apply upper_alnum_not_hyphen.
  - exact (expected_crc_shape "DMPOS" y x).
Qed.

(** For [DMPOS-2024-000006-] the checksum is [0D9A]: the serial that
    ends in it passes, the one that ends in [0D9B] does not. *)
Lemma format_then_checksum_witness :
  isValidSNFormat "DMPOS-2024-000006-0D9A" = true /\
  (exists y x c : string,
     "DMPOS-2024-000006-0D9A" = ("DMPOS-" ++ y ++ "-" ++ x ++ "-" ++ c)%string /\
     String.length "DMPOS-2024-000006-0D9A" = 22%nat /\
     isValidCRC "DMPOS-2024-000006-0D9A" = String.eqb c (expected_crc "DMPOS" y x) /\
     String.length (expected_crc "DMPOS" y x) = 4%nat /\
     JsString.all_chars is_upper_hex (expected_crc "DMPOS" y x) = true) /\
  expected_crc "DMPOS" "2024" "000006" = "0D9A" /\
  isValidCRC "DMPOS-2024-000006-0D9A" = true /\
  isValidSNFormat "DMPOS-2024-000006-0D9B" = true /\
  isValidCRC "DMPOS-2024-000006-0D9B" = false.
Proof.
  split; [vm_compute; reflexivity|]. split.
  - apply (format_then_checksum "DMPOS-2024-000006-0D9A"). vm_compute. reflexivity.
  - vm_compute. repeat split.
Defined.

Lemma expected_crc_no_hyphen (p0 p1 p2 : string) :
  no_hyphen (expected_crc p0 p1 p2) = true.
Proof.
  destruct (expected_crc_shape p0 p1 p2) as [_ H].
  unfold no_hyphen, JsString.free_of.
  apply (all_chars_impl is_upper_hex); [|assumption].
  intros c Hc. apply upper_alnum_not_hyphen, upper_hex_upper_alnum. assumption.
Qed.

(** X2. Whatever passes the checksum check ends in a segment of
    exactly four uppercase hex digits: any other fourth segment, of
    another length or with a letter beyond [F], is refused. *)
Theorem isValidCRC_checksum_is_hex (s : string) :
  isValidCRC s = true ->
  exists p0 p1 p2 p3 : string,
    s = (p0 ++ "-" ++ p1 ++ "-" ++ p2 ++ "-" ++ p3)%string /\
    String.length p3 = 4%nat /\
    JsString.all_chars is_upper_hex p3 = true.
Proof.
  intros H. apply isValidCRC_split in H as (p0 & p1 & p2 & p3 & Hs & Hp).
  apply split_four in Hs as (E & _).
  exists p0, p1, p2, p3. split; [assumption|].
  fold (expected_crc p0 p1 p2) in Hp. subst p3.
  apply expected_crc_shape.
Qed.

Lemma isValidCRC_checksum_is_hex_witness :
  isValidCRC unlisted_serial = true /\
  exists p0 p1 p2 p3 : string,
    unlisted_serial = (p0 ++ "-" ++ p1 ++ "-" ++ p2 ++ "-" ++ p3)%string /\
    String.length p3 = 4%nat /\
    JsString.all_chars is_upper_hex p3 = true.
Proof.
  split; [vm_compute; reflexivity|].
  apply (isValidCRC_checksum_is_hex unlisted_serial). vm_compute. reflexivity.
Defined.

(** X3. For three hyphen-free leading segments there is one checksum
    segment, and only one, that makes the serial pass the checksum
    check: the one computed from them.  Every other last part, longer
    ones with further hyphens among them, is refused. *)
Theorem isValidCRC_one_checksum (p0 p1 p2 c : string) :
  no_hyphen p0 = true -> no_hyphen p1 = true -> no_hyphen p2 = true ->
  (isValidCRC (p0 ++ "-" ++ p1 ++ "-" ++ p2 ++ "-" ++ c) = true <->
   c = expected_crc p0 p1 p2).
Proof.
  intros F0 F1 F2. split.
  - intros H. apply isValidCRC_split in H as (q0 & q1 & q2 & q3 & Hs & Hq).
    change (p0 ++ "-" ++ p1 ++ "-" ++ p2 ++ "-" ++ c)%string
      with (p0 ++ String "-" (p1 ++ String "-" (p2 ++ String "-" c)))%string in Hs.
    rewrite (split_app "-" p0 _ F0), (split_app "-" p1 _ F1),
            (split_app "-" p2 _ F2) in Hs.
    inversion Hs as [[E0 E1 E2 Hc]]. subst q0 q1 q2.
    apply split_head in Hc as [_ [[_ Ec] | (rest & _ & Hrest)]].
    + subst c. exact Hq.
    + exfalso. exact (split_not_nil _ _ Hrest).
  - intros ->.
    rewrite (isValidCRC_segments p0 p1 p2 _ F0 F1 F2 (expected_crc_no_hyphen p0 p1 p2)).
    apply String.eqb_refl.
Qed.

Lemma isValidCRC_one_checksum_witness :
  (no_hyphen "DMPOS" = true /\ no_hyphen "2024" = true /\ no_hyphen "000001" = true) /\
  (isValidCRC ("DMPOS" ++ "-" ++ "2024" ++ "-" ++ "000001" ++ "-" ++ "4005") = true <->
   "4005"%string = expected_crc "DMPOS" "2024" "000001").
Proof.
  split; [repeat split|].
  apply (isValidCRC_one_checksum "DMPOS" "2024" "000001" "4005"); reflexivity.
Defined.

(** ** validateOnline *)

Lemma activateLicense_unfold (e : env) (sn ci : string) (w : world) :
  isValidSNFormat sn = true -> isValidCRC sn = true ->
  activateLicense e sn ci w =
    match catch (validateOnline e sn (fingerprint e) ci)
                (fun _ => validateOffline e sn (fingerprint e))
                (after_fingerprint w) with
    | (Resolved v, w') => conclude e sn (fingerprint e) v w'
    | (Rejected err, w') => (Rejected err, w')
    | (Uncaught err, w') => (Uncaught err, w')
    end.
Proof.
  intros Hfmt Hcrc. unfold activateLicense. rewrite Hfmt, Hcrc. reflexivity.
Qed.

Lemma ok_409 (status : Z) : (status =? 409) = true -> ok status = false.
Proof.
  intros H. apply Z.eqb_eq in H. subst. reflexivity.
Qed.

Lemma prefix_app (l s : string) : String.prefix l (l ++ s) = true.
Proof.
  induction l as [|c l IH]; simpl; [destruct s; reflexivity|].
  destruct (ascii_dec c c) as [_|N]; [exact IH | exfalso; apply N; reflexivity].
Qed.

Ltac done_case :=
  eexists; eexists; (split; [reflexivity|]);
  repeat split; try reflexivity; try (simpl; lia);
  try (cbn [message Error]; apply prefix_app).

(** Every way through [validateOnline]. *)
Lemma validateOnline_cases (e : env) (sn hw ci : string) (w : world) :
  exists o tr,
    validateOnline e sn hw ci w = (o, mkWorld (store w) (trace w ++ tr)) /\
    forallb is_fetch tr = true /\ (List.length tr <= 2)%nat /\
    match o with
    | Resolved v =>
        transport_failure e = false /\ v_success v = negb (refused e) /\
        v_temporary v = false /\ v_expires v = None
    | Rejected err =>
        transport_failure e = true /\ refused e = false /\
        String.prefix "Online validation failed: " (message err) = true
    | Uncaught _ => False
    end.
Proof.
  unfold validateOnline, fetch, json, catch, bind, emit, ret, throw,
    transport_failure, refused.
  destruct (validate_reply e) as [msg | status [validate|]]; cbv beta iota.
  - done_case.
  - destruct (ok status) eqn:Hok; cbn [negb orb andb].
    2:{ done_case. }
    destruct (vb_valid validate); cbn [negb orb andb].
    2:{ destruct (JsString.equals (vb_reason validate) "MAX_INSTALLATIONS_REACHED");
        done_case. }
    destruct (vb_existing validate); cbn [negb orb andb].
    { done_case. }
    destruct (vb_canActivate validate); cbn [negb orb andb].
    2:{ done_case. }
    destruct (activate_reply e) as [msg2 | status2 [activate|]]; cbv beta iota;
      cbn [store trace]; rewrite <- ?app_assoc.
    + done_case.
    + destruct (ok status2) eqn:Hok2; cbn [negb orb andb].
      * assert (H409 : (status2 =? 409) = false).
        { destruct (status2 =? 409) eqn:E; [|reflexivity].
          apply ok_409 in E. congruence. }
        rewrite H409. cbn [orb].
        destruct (ab_success activate);
          done_case.
      * destruct (status2 =? 409); cbn [negb orb];
          done_case.
    + destruct (ok status2) eqn:Hok2; cbn [negb orb andb].
      * assert (H409 : (status2 =? 409) = false).
        { destruct (status2 =? 409) eqn:E; [|reflexivity].
          apply ok_409 in E. congruence. }
        rewrite H409.
        done_case.
      * destruct (status2 =? 409); cbn [negb orb];
          done_case.
  - destruct (negb (ok status)); done_case.
Qed.

(** ** validateOffline and the end of activateLicense, step by step *)

Lemma validateOffline_run (e : env) (sn hw : string) (w : world) :
  validateOffline e sn hw w =
    match db_error e GetPreloaded with
    | Some msg =>
        (Rejected (Error msg),
         mkWorld (store w) (trace w ++ [EvDbGet PreloadedSns]))
    | None =>
        if preloaded_valid sn (store w) then
          (Resolved
             (mkValidation true None
                (match lookup_preloaded sn (store w) with
                 | Some r => p_license_type r
                 | None => None
                 end)
                false None (Some "Validated offline - will sync when online") None),
           mkWorld (store w) (trace w ++ [EvDbGet PreloadedSns]))
        else
          (Resolved
             (mkValidation true None (Some "unknown") true
                (Some (now e + thirty_days))
                (Some "Temporary activation - requires online verification within 30 days")
                None),
           mkWorld (match db_error e InsertQueue with
                    | Some _ => store w
                    | None => enqueue e sn hw (store w)
                    end)
                   (trace w ++ [EvDbGet PreloadedSns] ++ [EvDbRun ValidationQueue]))
    end.
Proof.
  unfold validateOffline, queueForOnlineValidation, preloaded_valid,
    bind, emit, read_db, write_db, ret, throw.
  destruct (db_error e GetPreloaded); cbv beta iota; [reflexivity|].
  cbn [store].
  destruct (match lookup_preloaded sn (store w) with
            | Some r => p_valid r
            | None => false
            end); cbv beta iota; [reflexivity|].
  destruct (db_error e InsertQueue); cbv beta iota; cbn [store trace];
    rewrite <- app_assoc; reflexivity.
Qed.

Lemma conclude_accepted (e : env) (sn hw : string) (v : validation) (w : world) :
  v_success v = true ->
  conclude e sn hw v w =
    match db_error e UpdateActivation with
    | Some msg =>
        (Rejected (Error msg),
         mkWorld (store w) (trace w ++ [EvDbRun TransactionCounter]))
    | None =>
        (Resolved
           (mkActivation true sn hw
              (JsString.or_else (v_type v) "standard")
              (v_temporary v) (v_expires v)
              (JsString.or_else (v_message v) "Activation successful")),
         mkWorld (update_counter
                    (set_activated e sn hw
                       (if v_temporary v then v_expires v else None))
                    (store w))
                 (trace w ++ [EvDbRun TransactionCounter]))
    end.
Proof.
  intros Hs. unfold conclude, bind, emit, write_db, ret, throw. rewrite Hs.
  destruct (db_error e UpdateActivation); reflexivity.
Qed.

Lemma conclude_refused (e : env) (sn hw : string) (v : validation) (w : world) :
  v_success v = false ->
  exists err,
    conclude e sn hw v w = (Rejected err, w) /\
    JsString.equals (code err) "MAX_INSTALLATIONS_REACHED"
    = JsString.equals (v_code v) "MAX_INSTALLATIONS_REACHED".
Proof.
  intros Hs. unfold conclude, throw. rewrite Hs.
  destruct (JsString.equals (v_code v) "MAX_INSTALLATIONS_REACHED");
    eexists; split; reflexivity.
Qed.

(** X4. [validateOnline] throws exactly when the server cannot be
    used: a request fails, a status outside 2xx other than the 409 of
    the activation request, or a body that does not parse.  A refusal
    by the server is an answer and does not throw. *)
Theorem validateOnline_throws_iff (e : env) (sn hw ci : string) (w : world) :
  (exists err, fst (validateOnline e sn hw ci w) = Rejected err) <->
  transport_failure e = true.
Proof.
  destruct (validateOnline_cases e sn hw ci w) as (o & tr & Hrun & _ & _ & Hcase).
  rewrite Hrun. cbn [fst]. destruct o as [v | err | err].
  - destruct Hcase as [Hf _]. split.
    + intros [err H]. discriminate.
    + intros H. congruence.
  - destruct Hcase as [Hf _]. split; [intros _; exact Hf | intros _; eauto].
  - contradiction.
Qed.

(** X5. [validateOnline] leaves the database alone and does nothing
    but send requests, two at most.  What it resolves with is never a
    temporary grant, and what it throws always carries the prefix
    [Online validation failed: ]. *)
Theorem validateOnline_frame (e : env) (sn hw ci : string) (w : world) :
  store (snd (validateOnline e sn hw ci w)) = store w /\
  (exists tr,
     trace (snd (validateOnline e sn hw ci w)) = trace w ++ tr /\
     forallb is_fetch tr = true /\ (List.length tr <= 2)%nat) /\
  match fst (validateOnline e sn hw ci w) with
  | Resolved v => v_temporary v = false /\ v_expires v = None
  | Rejected err =>
      String.prefix "Online validation failed: " (message err) = true
  | Uncaught _ => False
  end.
Proof.
  destruct (validateOnline_cases e sn hw ci w) as (o & tr & Hrun & Hf & Hl & Hcase).
  rewrite Hrun. cbn [fst snd store trace].
  split; [reflexivity|]. split; [exists tr; auto|].
  destruct o as [v | err | err]; [| |assumption].
  - destruct Hcase as (_ & _ & Ht & He). split; assumption.
  - destruct Hcase as (_ & _ & Hp). assumption.
Qed.

(** ** activateLicense, by the state of the licensing server *)

Lemma activateLicense_online (e : env) (sn ci : string) (w : world) :
  isValidSNFormat sn = true -> isValidCRC sn = true ->
  transport_failure e = false ->
  exists v tr,
    forallb is_fetch tr = true /\
    v_success v = negb (refused e) /\
    v_temporary v = false /\ v_expires v = None /\
    activateLicense e sn ci w
    = conclude e sn (fingerprint e) v
        (mkWorld (store w) (trace w ++ EvFingerprint :: tr)).
Proof.
  intros Hfmt Hcrc Htf. rewrite (activateLicense_unfold e sn ci w Hfmt Hcrc).
  unfold catch.
  destruct (validateOnline_cases e sn (fingerprint e) ci (after_fingerprint w))
    as (o & tr & Hrun & Hf & _ & Hcase).
  rewrite Hrun. unfold after_fingerprint. cbn [store trace].
  rewrite <- app_assoc. cbn [app].
  destruct o as [v | err | err].
  - destruct Hcase as (_ & Hs & Ht & He). exists v, tr. repeat split; assumption.
  - destruct Hcase as (Hc & _). congruence.
  - contradiction.
Qed.

Lemma activateLicense_offline (e : env) (sn ci : string) (w : world) :
  isValidSNFormat sn = true -> isValidCRC sn = true ->
  transport_failure e = true ->
  exists tr,
    forallb is_fetch tr = true /\
    activateLicense e sn ci w
    = match validateOffline e sn (fingerprint e)
              (mkWorld (store w) (trace w ++ EvFingerprint :: tr)) with
      | (Resolved v, w') => conclude e sn (fingerprint e) v w'
      | (Rejected err, w') => (Rejected err, w')
      | (Uncaught err, w') => (Uncaught err, w')
      end.
Proof.
  intros Hfmt Hcrc Htf. rewrite (activateLicense_unfold e sn ci w Hfmt Hcrc).
  unfold catch.
  destruct (validateOnline_cases e sn (fingerprint e) ci (after_fingerprint w))
    as (o & tr & Hrun & Hf & _ & Hcase).
  rewrite Hrun. unfold after_fingerprint. cbn [store trace].
  rewrite <- app_assoc. cbn [app].
  destruct o as [v | err | err].
  - destruct Hcase as (Hc & _). congruence.
  - exists tr. split; [assumption | reflexivity].
  - contradiction.
Qed.

(** An environment whose server refuses for want of a free slot. *)
Example refusing_env_refuses :
  refused (mkEnv 1000 "https://dmpos-activation.railway.app" "a1b2c3d4e5f60718-9a8b7c6d"
             (Response 200
                (Some (mkValidateBody false (Some "MAX_INSTALLATIONS_REACHED")
                         false false None None (Some ["pc-1"; "pc-2"; "pc-3"]))))
             (NetworkError "unused") no_faults) = true.
Proof. reflexivity. Qed.

(** X6. A refusal by the licensing server is final.  For a serial
    that passes both checks the call rejects, nothing in the database
    changes and no statement is even issued: after the fingerprint the
    call only sent its requests.  The preloaded table is not consulted,
    so a refused serial is never granted offline. *)
Theorem refusal_is_final (e : env) (sn ci : string) (w : world) :
  isValidSNFormat sn = true -> isValidCRC sn = true ->
  refused e = true ->
  exists err tr,
    activateLicense e sn ci w
    = (Rejected err, mkWorld (store w) (trace w ++ EvFingerprint :: tr)) /\
    forallb is_fetch tr = true.
Proof.
  intros Hfmt Hcrc Href.
  assert (Htf : transport_failure e = false).
  { destruct (validateOnline_cases e sn (fingerprint e) ci w)
      as (o & tr & _ & _ & _ & Hcase).
    destruct o as [v | err | err]; [tauto | | contradiction].
    destruct Hcase as (_ & Hr & _). congruence. }
  destruct (activateLicense_online e sn ci w Hfmt Hcrc Htf)
    as (v & tr & Hf & Hs & _ & _ & Hrun).
  rewrite Href in Hs. cbn [negb] in Hs.
  destruct (conclude_refused e sn (fingerprint e) v
              (mkWorld (store w) (trace w ++ EvFingerprint :: tr)) Hs)
    as (err & Hc & _).
  exists err, tr. split; [congruence | assumption].
Qed.

Lemma refusal_is_final_witness :
  let e := mkEnv 1000 "https://dmpos-activation.railway.app" "a1b2c3d4e5f60718-9a8b7c6d"
             (Response 200
                (Some (mkValidateBody false (Some "MAX_INSTALLATIONS_REACHED")
                         false false None None (Some ["pc-1"; "pc-2"; "pc-3"]))))
             (NetworkError "unused") no_faults in
  let sn := "DMPOS-2024-000001-4005"%string in
  (isValidSNFormat sn = true /\ isValidCRC sn = true /\ refused e = true) /\
  exists err tr,
    activateLicense e sn "{}" new_install
    = (Rejected err,
       mkWorld (store new_install) (trace new_install ++ EvFingerprint :: tr)) /\
    forallb is_fetch tr = true.
Proof.
  intros e sn. split.
  - repeat split; vm_compute; reflexivity.
  - apply (refusal_is_final e sn "{}" new_install); vm_compute; reflexivity.
Defined.

(** What a call leaves when it does not resolve. *)
Lemma activateLicense_frame (e : env) (sn ci : string) (w : world) :
  match activateLicense e sn ci w with
  | (Rejected _, w') =>
      transaction_counter (store w') = transaction_counter (store w) /\
      preloaded_sns (store w') = preloaded_sns (store w)
  | _ => True
  end.
Proof.
  destruct (isValidSNFormat sn) eqn:Hfmt;
    [|unfold activateLicense; rewrite Hfmt; cbn; split; reflexivity].
  destruct (isValidCRC sn) eqn:Hcrc;
    [|unfold activateLicense; rewrite Hfmt, Hcrc; cbn; split; reflexivity].
  destruct (transport_failure e) eqn:Htf.
  - destruct (activateLicense_offline e sn ci w Hfmt Hcrc Htf) as (tr & _ & Hrun).
    rewrite Hrun, validateOffline_run. cbn [store trace].
    destruct (db_error e GetPreloaded); [split; reflexivity|].
    destruct (preloaded_valid sn (store w)); cbv beta iota.
    + rewrite conclude_accepted by reflexivity.
      destruct (db_error e UpdateActivation); [split; reflexivity | exact I].
    + rewrite conclude_accepted by reflexivity.
      destruct (db_error e UpdateActivation); [|exact I].
      cbn [store]. destruct (db_error e InsertQueue); split; reflexivity.
  - destruct (activateLicense_online e sn ci w Hfmt Hcrc Htf)
      as (v & tr & _ & _ & _ & _ & Hrun).
    rewrite Hrun. destruct (v_success v) eqn:Hs.
    + rewrite conclude_accepted by assumption.
      destruct (db_error e UpdateActivation); [split; reflexivity | exact I].
    + destruct (conclude_refused e sn (fingerprint e) v
                  (mkWorld (store w) (trace w ++ EvFingerprint :: tr)) Hs)
        as (err & Hc & _).
      rewrite Hc. split; reflexivity.
Qed.

(** X7. A call that rejects leaves the counter row and the preloaded
    table as they were, whatever the serial, whatever the servers
    answer and whichever statement the database fails: no rejection
    comes after the activation has been written. *)
Theorem activateLicense_rejected_keeps_row (e : env) (sn ci : string)
  (w w' : world) (err : js_error) :
  activateLicense e sn ci w = (Rejected err, w') ->
  transaction_counter (store w') = transaction_counter (store w) /\
  preloaded_sns (store w') = preloaded_sns (store w).
Proof.
  intros Hrun. pose proof (activateLicense_frame e sn ci w) as H.
  rewrite Hrun in H. exact H.
Qed.

(** Offline, with the [UPDATE] of the counter row failing: the call
    rejects with the database's message and the row is the trial row
    it was. *)
Lemma activateLicense_rejected_keeps_row_witness :
  let e := mkEnv 1000 "https://dmpos-activation.railway.app" "a1b2c3d4e5f60718-9a8b7c6d"
             (NetworkError "fetch failed") (NetworkError "fetch failed")
             (fun op => match op with
                        | UpdateActivation => Some "SQLITE_BUSY"
                        | _ => None
                        end) in
  let w' := snd (activateLicense e unlisted_serial "{}" new_install) in
  activateLicense e unlisted_serial "{}" new_install
  = (Rejected (Error "SQLITE_BUSY"), w') /\
  transaction_counter (store w') = Some fresh_counter /\
  transaction_counter (store w') = transaction_counter (store new_install) /\
  preloaded_sns (store w') = preloaded_sns (store new_install).
Proof.
  intros e w'.
  assert (Hrun : activateLicense e unlisted_serial "{}" new_install
                 = (Rejected (Error "SQLITE_BUSY"), w'))
    by (vm_compute; reflexivity).
  split; [exact Hrun|]. split; [vm_compute; reflexivity|].
  exact (activateLicense_rejected_keeps_row e unlisted_serial "{}" new_install w'
           (Error "SQLITE_BUSY") Hrun).
Defined.

Lemma resolved_is_valid (e : env) (sn ci : string) (w w' : world) (a : activation) :
  activateLicense e sn ci w = (Resolved a, w') ->
  isValidSNFormat sn = true /\ isValidCRC sn = true.
Proof.
  unfold activateLicense.
  destruct (isValidSNFormat sn); [|discriminate].
  destruct (isValidCRC sn); [|discriminate].
  split; reflexivity.
Qed.

(** Every way [activateLicense] resolves. *)
Lemma activateLicense_resolved_cases (e : env) (sn ci : string) (w w' : world)
  (a : activation) :
  activateLicense e sn ci w = (Resolved a, w') ->
  exists (v : validation) (d1 : db),
    db_error e UpdateActivation = None /\
    a = mkActivation true sn (fingerprint e)
          (JsString.or_else (v_type v) "standard")
          (v_temporary v) (v_expires v)
          (JsString.or_else (v_message v) "Activation successful") /\
    store w' =
      update_counter
        (set_activated e sn (fingerprint e)
           (if v_temporary v then v_expires v else None)) d1 /\
    ((transport_failure e = false /\ refused e = false /\
      v_temporary v = false /\ v_expires v = None /\ d1 = store w)
     \/
     (transport_failure e = true /\ db_error e GetPreloaded = None /\
      ((preloaded_valid sn (store w) = true /\
        v = offline_known (store w) sn /\ d1 = store w)
       \/
       (preloaded_valid sn (store w) = false /\
        v = offline_grant e /\ d1 = queued e sn (fingerprint e) (store w))))).
Proof.
  intros Hres.
  destruct (resolved_is_valid e sn ci w w' a Hres) as [Hfmt Hcrc].
  destruct (transport_failure e) eqn:Htf.
  - destruct (activateLicense_offline e sn ci w Hfmt Hcrc Htf) as (tr & _ & Hrun).
    rewrite Hrun, validateOffline_run in Hres. cbn [store trace] in Hres.
    destruct (db_error e GetPreloaded) eqn:Hget; [discriminate|].
    destruct (preloaded_valid sn (store w)) eqn:Hpre; cbv beta iota in Hres;
      rewrite conclude_accepted in Hres by reflexivity;
      destruct (db_error e UpdateActivation) eqn:Hupd; try discriminate;
      inversion Hres; subst a w'; cbn [store].
    + exists (offline_known (store w) sn), (store w).
      split; [reflexivity|]. split; [reflexivity|]. split; [reflexivity|].
      right. split; [reflexivity|]. split; [reflexivity|].
      left. repeat split.
    + exists (offline_grant e), (queued e sn (fingerprint e) (store w)).
      split; [reflexivity|]. split; [reflexivity|]. split; [reflexivity|].
      right. split; [reflexivity|]. split; [reflexivity|].
      right. repeat split.
  - destruct (activateLicense_online e sn ci w Hfmt Hcrc Htf)
      as (v & tr & _ & Hs & Ht & He & Hrun).
    rewrite Hrun in Hres.
    destruct (refused e) eqn:Href; cbn [negb] in Hs.
    + destruct (conclude_refused e sn (fingerprint e) v
                  (mkWorld (store w) (trace w ++ EvFingerprint :: tr)) Hs)
        as (err & Hc & _).
      rewrite Hc in Hres. discriminate.
    + rewrite conclude_accepted in Hres by assumption.
      destruct (db_error e UpdateActivation) eqn:Hupd; [discriminate|].
      inversion Hres; subst a w'; cbn [store].
      exists v, (store w).
      split; [reflexivity|]. split; [reflexivity|]. split; [reflexivity|].
      left. repeat split; assumption.
Qed.

Lemma update_counter_queue (f : counter_row -> counter_row) (d : db) :
  validation_queue (update_counter f d) = validation_queue d /\
  queue_seq (update_counter f d) = queue_seq d /\
  preloaded_sns (update_counter f d) = preloaded_sns d.
Proof. repeat split. Qed.

(** X8. A call that resolves binds the serial and the fingerprint of
    the machine to the installation and keeps the usage counter: the
    row becomes [activated] with the serial, the hardware id and the
    time of the call, [temporary_until] is the expiry of a temporary
    grant and [NULL] otherwise, and [total_transactions] is what it
    was.  The result names the same serial and hardware id. *)
Theorem activateLicense_binds (e : env) (sn ci : string) (w w' : world)
  (row : counter_row) (a : activation) :
  transaction_counter (store w) = Some row ->
  activateLicense e sn ci w = (Resolved a, w') ->
  a_success a = true /\ a_serialNumber a = sn /\ a_hardwareId a = fingerprint e /\
  transaction_counter (store w') =
    Some (mkCounter (total_transactions row) "activated" (Some sn)
            (Some (fingerprint e)) (Some (now e)) (Some (now e))
            (if a_temporary a then a_expires a else None)).
Proof.
  intros Hrow Hres.
  destruct (activateLicense_resolved_cases e sn ci w w' a Hres)
    as (v & d1 & _ & Ha & Hstore & Hcases).
  subst a. cbn [a_success a_serialNumber a_hardwareId a_temporary a_expires].
  repeat split. rewrite Hstore.
  assert (Hd1 : transaction_counter d1 = Some row).
  { destruct Hcases as [(_ & _ & _ & _ & ->) | (_ & _ & [(_ & _ & ->) | (_ & _ & ->)])];
      try assumption.
    unfold queued. destruct (db_error e InsertQueue); assumption. }
  rewrite (update_counter_some _ _ _ Hd1). reflexivity.
Qed.

Lemma activateLicense_binds_witness :
  let e := offline_env 1000 in
  let run := activateLicense e "DMPOS-2024-000001-4005" "{}" (trial_world 42) in
  (transaction_counter (store (trial_world 42)) = Some (set_total 42 fresh_counter) /\
   exists a, run = (Resolved a, snd run)) /\
  transaction_counter (store (snd run)) =
    Some (mkCounter 42 "activated" (Some "DMPOS-2024-000001-4005")
            (Some (fingerprint e)) (Some 1000) (Some 1000) None).
Proof.
  intros e run.
  assert (Hrow : transaction_counter (store (trial_world 42))
                 = Some (set_total 42 fresh_counter)) by reflexivity.
  assert (Hrun : run = (Resolved
                          (mkActivation true "DMPOS-2024-000001-4005" (fingerprint e)
                             "standard" false None
                             "Validated offline - will sync when online"),
                        snd run)) by (vm_compute; reflexivity).
  split; [split; [exact Hrow | eexists; exact Hrun]|].
  destruct (activateLicense_binds e "DMPOS-2024-000001-4005" "{}" (trial_world 42)
              (snd run) _ _ Hrow Hrun) as (_ & _ & _ & H).
  exact H.
Defined.

(** X9. Temporary grants come from one place only.  If a call
    resolves with [temporary = true], the server could not be used, the
    serial was not preloaded as valid, the type is ['unknown'] and the
    grant expires 30 days after the clock reading of the call; if it
    resolves with [temporary = false] there is no expiry. *)
Theorem temporary_only_offline_unknown (e : env) (sn ci : string) (w w' : world)
  (a : activation) :
  activateLicense e sn ci w = (Resolved a, w') ->
  if a_temporary a then
    transport_failure e = true /\ preloaded_valid sn (store w) = false /\
    a_type a = "unknown" /\ a_expires a = Some (now e + thirty_days)
  else a_expires a = None.
Proof.
  intros Hres.
  destruct (activateLicense_resolved_cases e sn ci w w' a Hres)
    as (v & d1 & _ & Ha & _ & Hcases).
  subst a. cbn [a_temporary a_expires a_type].
  destruct Hcases as [(_ & _ & Ht & He & _) | (Htf & _ & [(_ & -> & _) | (Hpre & -> & _)])].
  - rewrite Ht. assumption.
  - reflexivity.
  - cbn [offline_grant v_temporary v_type v_expires]. repeat split; assumption.
Qed.

Lemma temporary_only_offline_unknown_witness :
  let e := offline_env 1000 in
  let run := activateLicense e unlisted_serial "{}" new_install in
  let a := mkActivation true unlisted_serial (fingerprint e) "unknown" true
             (Some (1000 + thirty_days))
             "Temporary activation - requires online verification within 30 days" in
  run = (Resolved a, snd run) /\
  transport_failure e = true /\ preloaded_valid unlisted_serial (store new_install) = false /\
  a_type a = "unknown" /\ a_expires a = Some (now e + thirty_days).
Proof.
  intros e run a.
  assert (Hrun : run = (Resolved a, snd run)) by (vm_compute; reflexivity).
  split; [exact Hrun|].
  exact (temporary_only_offline_unknown e unlisted_serial "{}" new_install (snd run) a Hrun).
Defined.

(** X10. With the licensing server out of use, every serial that
    passes the two checks is activated, known or not: as long as the
    lookup and the update do not error the call resolves, the
    installation is [activated], and the grant is temporary exactly
    when the serial is not preloaded as valid. *)
Theorem offline_activates_any_serial (e : env) (sn ci : string) (w : world)
  (row : counter_row) :
  isValidSNFormat sn = true -> isValidCRC sn = true ->
  transport_failure e = true ->
  db_error e GetPreloaded = None -> db_error e UpdateActivation = None ->
  transaction_counter (store w) = Some row ->
  exists a w' row',
    activateLicense e sn ci w = (Resolved a, w') /\
    a_temporary a = negb (preloaded_valid sn (store w)) /\
    transaction_counter (store w') = Some row' /\
    license_status row' = "activated".
Proof.
  intros Hfmt Hcrc Htf Hget Hupd Hrow.
  destruct (activateLicense_offline e sn ci w Hfmt Hcrc Htf) as (tr & _ & Hrun).
  rewrite Hrun, validateOffline_run. cbn [store trace]. rewrite Hget.
  destruct (preloaded_valid sn (store w)); cbv beta iota;
    rewrite conclude_accepted by reflexivity; rewrite Hupd;
    eexists; eexists; eexists; (split; [reflexivity|]); (split; [reflexivity|]);
    cbn [store]; (split; [apply update_counter_some|reflexivity]).
  - exact Hrow.
  - unfold queued. destruct (db_error e InsertQueue); exact Hrow.
Qed.

Lemma offline_activates_any_serial_witness :
  let e := offline_env 1000 in
  (isValidSNFormat unlisted_serial = true /\ isValidCRC unlisted_serial = true /\
   transport_failure e = true /\
   db_error e GetPreloaded = None /\ db_error e UpdateActivation = None /\
   transaction_counter (store new_install) = Some fresh_counter) /\
  exists a w' row',
    activateLicense e unlisted_serial "{}" new_install = (Resolved a, w') /\
    a_temporary a = negb (preloaded_valid unlisted_serial (store new_install)) /\
    transaction_counter (store w') = Some row' /\
    license_status row' = "activated".
Proof.
  intros e. split.
  - repeat split; vm_compute; reflexivity.
  - apply (offline_activates_any_serial e unlisted_serial "{}" new_install fresh_counter);
      vm_compute; reflexivity.
Defined.

(** X11. An error of the insert into the queue is swallowed: the
    temporary grant is given all the same and nothing records that it
    awaits verification. *)
Theorem unqueued_grant (e : env) (sn ci msg : string) (w : world) :
  isValidSNFormat sn = true -> isValidCRC sn = true ->
  transport_failure e = true ->
  preloaded_valid sn (store w) = false ->
  db_error e GetPreloaded = None -> db_error e UpdateActivation = None ->
  db_error e InsertQueue = Some msg ->
  exists a w',
    activateLicense e sn ci w = (Resolved a, w') /\
    a_temporary a = true /\
    validation_queue (store w') = validation_queue (store w).
Proof.
  intros Hfmt Hcrc Htf Hpre Hget Hupd Hins.
  destruct (activateLicense_offline e sn ci w Hfmt Hcrc Htf) as (tr & _ & Hrun).
  rewrite Hrun, validateOffline_run. cbn [store trace].
  rewrite Hget, Hpre, Hins. cbv beta iota.
  rewrite conclude_accepted by reflexivity. rewrite Hupd.
  eexists; eexists. split; [reflexivity|]. split; reflexivity.
Qed.

Lemma unqueued_grant_witness :
  let e := queue_down 1000 in
  (isValidSNFormat unlisted_serial = true /\ isValidCRC unlisted_serial = true /\
   transport_failure e = true /\
   preloaded_valid unlisted_serial (store new_install) = false /\
   db_error e GetPreloaded = None /\ db_error e UpdateActivation = None /\
   db_error e InsertQueue = Some "SQLITE_BUSY: database is locked") /\
  exists a w',
    activateLicense e unlisted_serial "{}" new_install = (Resolved a, w') /\
    a_temporary a = true /\
    validation_queue (store w') = validation_queue (store new_install).
Proof.
  intros e. split.
  - repeat split; vm_compute; reflexivity.
  - apply (unqueued_grant e unlisted_serial "{}" "SQLITE_BUSY: database is locked"
             new_install); vm_compute; reflexivity.
Defined.

(** ** The queue only grows *)

Lemma enqueue_wf (e : env) (sn hw : string) (d : db) :
  queue_wf d -> queue_wf (enqueue e sn hw d).
Proof.
  intros [Hnd Hle]. unfold queue_wf.
  rewrite enqueue_appends.
  change (queue_seq (enqueue e sn hw d)) with (next_queue_id d).
  assert (Hmax : forall r, In r (validation_queue d) -> q_id r < next_queue_id d).
  { intros r Hr.
    assert (q_id r <= fold_right Z.max 0 (map q_id (validation_queue d)))
      by (apply fold_max_ge, in_map; assumption).
    unfold next_queue_id. lia. }
  split.
  - rewrite map_app. cbn [map q_id].
    apply NoDup_app; [assumption | repeat constructor; intros [] |].
    intros x Hx [Hnew | []]. subst x.
    apply in_map_iff in Hx as (r & Hid & Hr).
    specialize (Hmax r Hr). lia.
  - apply Forall_app. split.
    + apply Forall_forall. intros r Hr. specialize (Hmax r Hr). lia.
    + constructor; [cbn [q_id]; lia | constructor].
Qed.

Lemma activateLicense_store (e : env) (sn ci : string) (w : world) :
  exists d1,
    (d1 = store w \/ d1 = enqueue e sn (fingerprint e) (store w)) /\
    (store (snd (activateLicense e sn ci w)) = d1 \/
     exists tu,
       store (snd (activateLicense e sn ci w))
       = update_counter (set_activated e sn (fingerprint e) tu) d1).
Proof.
  destruct (isValidSNFormat sn) eqn:Hfmt;
    [|unfold activateLicense; rewrite Hfmt; exists (store w); split; left; reflexivity].
  destruct (isValidCRC sn) eqn:Hcrc;
    [|unfold activateLicense; rewrite Hfmt, Hcrc; exists (store w);
      split; left; reflexivity].
  destruct (transport_failure e) eqn:Htf.
  - destruct (activateLicense_offline e sn ci w Hfmt Hcrc Htf) as (tr & _ & Hrun).
    rewrite Hrun, validateOffline_run. cbn [store trace].
    destruct (db_error e GetPreloaded);
      [exists (store w); split; left; reflexivity|].
    destruct (preloaded_valid sn (store w)); cbv beta iota;
      rewrite conclude_accepted by reflexivity.
    + exists (store w). split; [left; reflexivity|].
      destruct (db_error e UpdateActivation); [left; reflexivity|].
      right. eexists. reflexivity.
    + exists (queued e sn (fingerprint e) (store w)). split.
      * unfold queued. destruct (db_error e InsertQueue); [left | right]; reflexivity.
      * destruct (db_error e UpdateActivation); [left; reflexivity|].
        right. eexists. reflexivity.
  - destruct (activateLicense_online e sn ci w Hfmt Hcrc Htf)
      as (v & tr & _ & _ & _ & _ & Hrun).
    rewrite Hrun. exists (store w). split; [left; reflexivity|].
    destruct (v_success v) eqn:Hs.
    + rewrite conclude_accepted by assumption.
      destruct (db_error e UpdateActivation); [left; reflexivity|].
      right. eexists. reflexivity.
    + destruct (conclude_refused e sn (fingerprint e) v
                  (mkWorld (store w) (trace w ++ EvFingerprint :: tr)) Hs)
        as (err & Hc & _).
      rewrite Hc. left. reflexivity.
Qed.

(** X12. Whatever its outcome, a call of [activateLicense] never
    removes or alters a row of the queue and never touches the
    preloaded table: the queue afterwards is the queue before followed
    by at most one new pending row for this serial, with zero attempts.
    If the ids of the queue were distinct and below the sequence, they
    still are. *)
Theorem activateLicense_queue_grows (e : env) (sn ci : string) (w : world) :
  queue_wf (store w) ->
  let w' := snd (activateLicense e sn ci w) in
  (validation_queue (store w') = validation_queue (store w) \/
   exists id,
     validation_queue (store w')
     = validation_queue (store w)
       ++ [mkQueue id sn (fingerprint e) (now e) 0 "pending"]) /\
  preloaded_sns (store w') = preloaded_sns (store w) /\
  queue_wf (store w').
Proof.
  intros Hwf w'. subst w'.
  destruct (activateLicense_store e sn ci w) as (d1 & Hd1 & Hw').
  assert (H1 : (validation_queue d1 = validation_queue (store w) \/
                exists id, validation_queue d1
                           = validation_queue (store w)
                             ++ [mkQueue id sn (fingerprint e) (now e) 0 "pending"]) /\
               preloaded_sns d1 = preloaded_sns (store w) /\ queue_wf d1).
  { destruct Hd1 as [-> | ->].
    - split; [left; reflexivity|]. split; [reflexivity | assumption].
    - split; [right; eexists; apply enqueue_appends|].
      split; [reflexivity | apply enqueue_wf; assumption]. }
  destruct Hw' as [-> | [tu ->]]; [exact H1|].
  exact H1.
Qed.

Lemma activateLicense_queue_grows_witness :
  let e := offline_env 1000 in
  queue_wf (store new_install) /\
  let w' := snd (activateLicense e unlisted_serial "{}" new_install) in
  (validation_queue (store w') = validation_queue (store new_install) \/
   exists id,
     validation_queue (store w')
     = validation_queue (store new_install)
       ++ [mkQueue id unlisted_serial (fingerprint e) (now e) 0 "pending"]) /\
  preloaded_sns (store w') = preloaded_sns (store new_install) /\
  queue_wf (store w').
Proof.
  intros e.
  assert (Hwf : queue_wf (store new_install))
    by (split; constructor).
  split; [exact Hwf|].
  exact (activateLicense_queue_grows e unlisted_serial "{}" new_install Hwf).
Defined.

(** ** incrementTransaction: what a call changes *)

(** X13. A call changes the database exactly when it resolves: then
    the total of the counter row has gone up by one, its other columns
    and the other tables are as they were, and for a counter within
    [Number.MAX_SAFE_INTEGER] the new total is the one the call
    reports; a call that rejects, or that finds no row, leaves the
    database as it was. *)
Theorem incrementTransaction_all_or_nothing (e : env) (w : world) :
  match incrementTransaction e w with
  | (Resolved r, w') =>
      exists row row',
        transaction_counter (store w) = Some row /\
        transaction_counter (store w') = Some row' /\
        total_transactions row' = total_transactions row + 1 /\
        licence_columns row' = licence_columns row /\
        preloaded_sns (store w') = preloaded_sns (store w) /\
        validation_queue (store w') = validation_queue (store w) /\
        queue_seq (store w') = queue_seq (store w) /\
        (JsNumber.isSafeInteger (total_transactions row) = true ->
           i_total r = total_transactions row')
  | (_, w') => store w' = store w
  end.
Proof.
  unfold incrementTransaction, inc_on_row.
  destruct (db_error e GetCounter); [reflexivity|].
  destruct (transaction_counter (store w)) as [row|] eqn:Hrow; [|reflexivity].
  destruct (String.eqb (license_status row) "activated").
  - unfold inc_on_update, bind, emit, write_db, ret, throw.
    destruct (db_error e IncrCounter); cbv beta iota; [reflexivity|].
    exists row, (set_total (total_transactions row + 1) row).
    split; [reflexivity|].
    cbn [store i_total]. unfold update_counter.
    cbn [transaction_counter preloaded_sns validation_queue queue_seq].
    rewrite Hrow. repeat split.
  - destruct (total_transactions row >=? maxTrialTransactions); [reflexivity|].
    unfold inc_on_update, bind, emit, write_db, ret, throw.
    destruct (db_error e SetCounter); cbv beta iota; [reflexivity|].
    exists row, (set_total (total_transactions row + 1) row).
    split; [reflexivity|].
    cbn [store i_total]. unfold update_counter.
    cbn [transaction_counter preloaded_sns validation_queue queue_seq].
    rewrite Hrow. repeat split.
Qed.

(** From 98 the call stores and reports 99; the next one rejects and
    the row stays at 99. *)
Example incrementTransaction_last_trial_call :
  let (o1, w1) := incrementTransaction (offline_env 0) (trial_world 98) in
  let (o2, w2) := incrementTransaction (offline_env 0) w1 in
  option_map i_total (match o1 with Resolved r => Some r | _ => None end) = Some 99 /\
  option_map total_transactions (transaction_counter (store w1)) = Some 99 /\
  o2 = Rejected (Error "TRIAL_LIMIT_REACHED") /\
  store w2 = store w1.
Proof. vm_compute. repeat split. Qed.

Lemma trial_call_exact (e : env) (w : world) (row : counter_row) :
  transaction_counter (store w) = Some row ->
  license_status row = "trial" ->
  trial_answering e ->
  (maxTrialTransactions <= total_transactions row /\
   resolved (fst (incrementTransaction e w)) = false /\
   transaction_counter (store (snd (incrementTransaction e w))) = Some row) \/
  (total_transactions row < maxTrialTransactions /\
   resolved (fst (incrementTransaction e w)) = true /\
   transaction_counter (store (snd (incrementTransaction e w)))
   = Some (set_total (total_transactions row + 1) row)).
Proof.
  intros Hrow Hst [Hget Hset].
  unfold incrementTransaction, inc_on_row. rewrite Hget, Hrow, Hst.
  change (String.eqb "trial" "activated") with false. cbv beta iota.
  destruct (total_transactions row >=? maxTrialTransactions) eqn:Hge.
  - left. apply Z.geb_le in Hge. repeat split; assumption.
  - right. rewrite Z.geb_leb in Hge. apply Z.leb_gt in Hge.
    unfold inc_on_update, bind, emit, write_db, ret, throw.
    rewrite Hset. cbv beta iota. cbn [fst snd store resolved].
    repeat split; [assumption|]. apply update_counter_some. assumption.
Qed.

Lemma in_sequence_trial_exact (es : list env) :
  forall (w : world) (row : counter_row),
    transaction_counter (store w) = Some row ->
    license_status row = "trial" ->
    Forall trial_answering es ->
    let k := Z.min (Z.of_nat (List.length es))
                   (Z.max 0 (maxTrialTransactions - total_transactions row)) in
    count_resolved (fst (in_sequence es w)) = k /\
    transaction_counter (store (snd (in_sequence es w)))
    = Some (set_total (total_transactions row + k) row).
Proof.
  induction es as [|e es IH]; intros w row Hrow Hst Hes.
  - cbn [in_sequence fst snd List.length]. unfold count_resolved.
    cbn [filter List.length Z.of_nat].
    replace (Z.min 0 (Z.max 0 (maxTrialTransactions - total_transactions row)))
      with 0 by lia.
    split; [reflexivity|]. rewrite Hrow. rewrite Z.add_0_r.
    destruct row; reflexivity.
  - inversion Hes as [|e' es' He Hrest]; subst.
    cbn [in_sequence].
    pose proof (trial_call_exact e w row Hrow Hst He) as Hcases.
    destruct (incrementTransaction e w) as [o w1]. cbn [fst snd] in Hcases.
    destruct Hcases as [(Hge & Hres & Hrow1) | (Hlt & Hres & Hrow1)].
    + specialize (IH w1 row Hrow1 Hst Hrest). cbv zeta in IH.
      destruct (in_sequence es w1) as [os w2]. cbn [fst snd] in *.
      destruct IH as [IHc IHs]. cbv zeta.
      rewrite count_resolved_cons, Hres, IHc, IHs.
      change (List.length (e :: es)) with (S (List.length es)).
      rewrite Nat2Z.inj_succ.
      replace (Z.max 0 (maxTrialTransactions - total_transactions row)) with 0 by lia.
      split; [lia | f_equal; f_equal; lia].
    + specialize (IH w1 _ Hrow1 Hst Hrest). cbv zeta in IH.
      cbn [total_transactions set_total] in IH.
      destruct (in_sequence es w1) as [os w2]. cbn [fst snd] in *.
      destruct IH as [IHc IHs]. cbv zeta.
      rewrite count_resolved_cons, Hres, IHc, IHs.
      change (List.length (e :: es)) with (S (List.length es)).
      rewrite Nat2Z.inj_succ.
      split; [lia|]. unfold set_total.
      cbn [license_status serial_number hardware_id activation_date
           last_validation temporary_until].
      f_equal; f_equal; lia.
Qed.

(** X14. In trial mode, with the database answering, [n] calls made
    one after the other resolve exactly [min(n, max(0, 99 - total))]
    times, the first ones, and the stored counter ends that many
    higher. *)
Theorem sequential_calls_count (es : list env) (w : world) (row : counter_row) :
  transaction_counter (store w) = Some row ->
  license_status row = "trial" ->
  Forall trial_answering es ->
  let k := Z.min (Z.of_nat (List.length es))
                 (Z.max 0 (maxTrialTransactions - total_transactions row)) in
  count_resolved (fst (in_sequence es w)) = k /\
  transaction_counter (store (snd (in_sequence es w)))
  = Some (set_total (total_transactions row + k) row).
Proof.
  intros Hrow Hst Hes. exact (in_sequence_trial_exact es w row Hrow Hst Hes).
Qed.

Lemma sequential_calls_count_witness :
  let es := repeat (offline_env 0) 10 in
  let w := trial_world 95 in
  let row := set_total 95 fresh_counter in
  (transaction_counter (store w) = Some row /\ license_status row = "trial" /\
   Forall trial_answering es) /\
  count_resolved (fst (in_sequence es w)) = 4 /\
  transaction_counter (store (snd (in_sequence es w))) = Some (set_total 99 row).
Proof.
  intros es w row.
  assert (Hes : Forall trial_answering es)
    by (repeat constructor).
  split; [repeat split; exact Hes|].
  exact (sequential_calls_count es w row eq_refl eq_refl Hes).
Defined.

(** X15. In trial mode outside a grace period, the [remaining] that
    [getActivationStatus] reports is the number of calls of
    [incrementTransaction] that will still resolve: of [n] calls made
    one after the other, [min(n, remaining)] do. *)
Theorem status_remaining_is_calls_left (e0 : env) (es : list env) (w : world)
  (row : counter_row) :
  transaction_counter (store w) = Some row ->
  license_status row = "trial" ->
  isTemporary e0 row = false ->
  db_error e0 GetCounter = None ->
  Forall trial_answering es ->
  exists s w0 k,
    getActivationStatus e0 w = (Resolved s, w0) /\
    s_remaining s = Remaining k /\
    count_resolved (fst (in_sequence es w)) = Z.min (Z.of_nat (List.length es)) k.
Proof.
  intros Hrow Hst Htmp Hget Hes.
  unfold getActivationStatus, bind, emit, read_db, ret.
  rewrite Hget. cbv beta iota. cbn [store]. rewrite Hrow.
  eexists; eexists; eexists. split; [reflexivity|].
  cbn [s_remaining]. rewrite Hst, Htmp.
  change (String.eqb "trial" "activated" || false) with false. cbv iota.
  split; [reflexivity|].
  destruct (in_sequence_trial_exact es w row Hrow Hst Hes) as [Hc _].
  exact Hc.
Qed.

Lemma status_remaining_is_calls_left_witness :
  let e0 := offline_env 0 in
  let es := repeat (offline_env 0) 10 in
  let w := trial_world 95 in
  let row := set_total 95 fresh_counter in
  (transaction_counter (store w) = Some row /\ license_status row = "trial" /\
   isTemporary e0 row = false /\ db_error e0 GetCounter = None /\
   Forall trial_answering es) /\
  exists s w0 k,
    getActivationStatus e0 w = (Resolved s, w0) /\
    s_remaining s = Remaining k /\
    count_resolved (fst (in_sequence es w)) = Z.min (Z.of_nat (List.length es)) k.
Proof.
  intros e0 es w row.
  assert (Hes : Forall trial_answering es) by (repeat constructor).
  split; [repeat split; exact Hes|].
  exact (status_remaining_is_calls_left e0 es w row eq_refl eq_refl eq_refl eq_refl Hes).
Defined.

(** ** Calls in flight on an activated installation *)

Lemma successes_cons (c : call) (cs : list call) :
  successes (c :: cs) = (if succeeded c then 1 else 0) + successes cs.
Proof.
  unfold successes. cbn [filter]. destruct (succeeded c); cbn [List.length]; lia.
Qed.

Lemma step_call_activated (e : env) (c : call) (w : world) :
  activated_world w -> call_ok_activated c ->
  activated_world (snd (step_call e c w)) /\
  call_ok_activated (fst (step_call e c w)) /\
  stored_total (snd (step_call e c w))
    - (if succeeded (fst (step_call e c w)) then 1 else 0)
  = stored_total w - (if succeeded c then 1 else 0).
Proof.
  intros (row & Hrow & Hst) Hc.
  destruct c as [| activated currentCount | o].
  - unfold step_call, inc_on_row, stored_total. rewrite Hrow, Hst.
    change (String.eqb "activated" "activated") with true. cbv beta iota.
    destruct (db_error e GetCounter); cbn [fst snd store succeeded call_ok_activated];
      rewrite Hrow; (split; [exists row; auto|]);
      (split; [first [exact I | reflexivity] | reflexivity]).
  - cbn [call_ok_activated] in Hc. subst activated.
    unfold step_call, inc_on_update, bind, emit, write_db, ret, throw, stored_total.
    destruct (db_error e IncrCounter); cbv beta iota; cbn [fst snd store succeeded].
    + rewrite Hrow. split; [exists row; auto|]. split; [exact I | reflexivity].
    + rewrite (update_counter_some _ _ _ Hrow). rewrite Hrow.
      cbn [total_transactions set_total i_success].
      split; [|split; [exact I | lia]].
      eexists. split; [apply update_counter_some; exact Hrow | exact Hst].
  - cbn [step_call fst snd]. split; [exists row; auto|]. split; [exact Hc | reflexivity].
Qed.

Lemma step_nth_activated (e : env) (i : nat) :
  forall (cs : list call) (w : world),
    activated_world w -> Forall call_ok_activated cs ->
    activated_world (snd (step_nth e i cs w)) /\
    Forall call_ok_activated (fst (step_nth e i cs w)) /\
    stored_total (snd (step_nth e i cs w)) - successes (fst (step_nth e i cs w))
    = stored_total w - successes cs.
Proof.
  induction i as [|i IH]; intros cs w Hw Hcs.
  - destruct cs as [|c cs]; cbn [step_nth fst snd]; [auto|].
    inversion Hcs; subst.
    destruct (step_call_activated e c w Hw) as (Hw' & Hc' & Hbal); [assumption|].
    destruct (step_call e c w) as [c' w']. cbn [fst snd] in *.
    split; [assumption|]. split; [constructor; assumption|].
    rewrite !successes_cons. lia.
  - destruct cs as [|c cs]; cbn [step_nth fst snd]; [auto|].
    inversion Hcs; subst.
    destruct (IH cs w Hw) as (Hw' & Hcs' & Hbal); [assumption|].
    destruct (step_nth e i cs w) as [cs' w']. cbn [fst snd] in *.
    split; [assumption|]. split; [constructor; assumption|].
    rewrite !successes_cons. lia.
Qed.

Lemma run_activated (e : env) (sched : list nat) :
  forall (cs : list call) (w : world),
    activated_world w -> Forall call_ok_activated cs ->
    activated_world (snd (run e sched cs w)) /\
    stored_total (snd (run e sched cs w)) - successes (fst (run e sched cs w))
    = stored_total w - successes cs.
Proof.
  induction sched as [|i sched IH]; intros cs w Hw Hcs; cbn [run fst snd].
  - split; [assumption | reflexivity].
  - destruct (step_nth_activated e i cs w Hw Hcs) as (Hw' & Hcs' & Hbal).
    destruct (step_nth e i cs w) as [cs' w']. cbn [fst snd] in *.
    destruct (IH cs' w' Hw' Hcs') as [Hw'' Hbal'].
    split; [assumption | lia].
Qed.

Lemma successes_pending (n : nat) : successes (repeat Pending n) = 0.
Proof.
  induction n as [|n IH]; [reflexivity|].
  cbn [repeat]. rewrite successes_cons, IH. reflexivity.
Qed.

(** X16. On an activated installation no call is lost, whatever the
    order in which the callbacks of concurrent calls run: the stored
    counter is always the counter at the start plus the number of calls
    that have resolved.  The update adds one in the database and does
    not write back a count read earlier. *)
Theorem activated_counter_counts_every_call (e : env) (sched : list nat) (n : nat)
  (w : world) (row : counter_row) :
  transaction_counter (store w) = Some row ->
  license_status row = "activated" ->
  stored_total (snd (run e sched (repeat Pending n) w))
  = total_transactions row + successes (fst (run e sched (repeat Pending n) w)).
Proof.
  intros Hrow Hst.
  destruct (run_activated e sched (repeat Pending n) w) as [_ Hbal].
  - exists row. split; assumption.
  - apply Forall_forall. intros c Hc. apply repeat_spec in Hc. subst. exact I.
  - rewrite successes_pending in Hbal. unfold stored_total in Hbal at 2.
    rewrite Hrow in Hbal. lia.
Qed.

Lemma activated_counter_counts_every_call_witness :
  let e := offline_env 0 in
  let row := mkCounter 95 "activated" (Some unlisted_serial) (Some "hw")
                       (Some 0) (Some 0) None in
  let w := mkWorld (mkDb (Some row) [] [] 0) [] in
  let sched := reads_then_writes 10 in
  (transaction_counter (store w) = Some row /\ license_status row = "activated") /\
  stored_total (snd (run e sched (repeat Pending 10) w))
  = total_transactions row + successes (fst (run e sched (repeat Pending 10) w)).
Proof.
  intros e row w sched. split; [split; reflexivity|].
  exact (activated_counter_counts_every_call e sched 10 w row eq_refl eq_refl).
Defined.

(** ** Overlapping calls in trial mode *)

Lemma step_nth_app (e : env) (pre : list call) (c : call) (post : list call)
  (w : world) :
  step_nth e (List.length pre) (pre ++ c :: post) w
  = (pre ++ fst (step_call e c w) :: post, snd (step_call e c w)).
Proof.
  induction pre as [|p pre IH]; cbn [List.length app step_nth].
  - destruct (step_call e c w); reflexivity.
  - rewrite IH. reflexivity.
Qed.

Lemma run_app (e : env) (s1 s2 : list nat) :
  forall (cs : list call) (w : world),
    run e (s1 ++ s2) cs w
    = run e s2 (fst (run e s1 cs w)) (snd (run e s1 cs w)).
Proof.
  induction s1 as [|i s1 IH]; intros cs w; cbn [app run fst snd]; [reflexivity|].
  destruct (step_nth e i cs w) as [cs' w']. apply IH.
Qed.

Lemma run_reads (e : env) (row : counter_row) (m : nat) :
  license_status row = "trial" ->
  total_transactions row < maxTrialTransactions ->
  db_error e GetCounter = None ->
  forall (pre : list call) (w : world),
    transaction_counter (store w) = Some row ->
    fst (run e (seq (List.length pre) m) (pre ++ repeat Pending m) w)
    = pre ++ repeat (Updating false (total_transactions row)) m /\
    store (snd (run e (seq (List.length pre) m) (pre ++ repeat Pending m) w))
    = store w.
Proof.
  intros Hst Hlt Hget. induction m as [|m IH]; intros pre w Hrow.
  - cbn [seq run fst snd repeat]. split; reflexivity.
  - cbn [seq run repeat]. rewrite step_nth_app.
    assert (Hna : String.eqb (license_status row) "activated" = false)
      by (rewrite Hst; reflexivity).
    unfold step_call. rewrite (inc_on_row_trial e w row Hrow Hna Hget).
    assert (Hge : (total_transactions row >=? maxTrialTransactions) = false)
      by (rewrite Z.geb_leb; apply Z.leb_gt; assumption).
    rewrite Hge. cbn [fst snd].
    specialize (IH (pre ++ [Updating false (total_transactions row)]) (after_get w) Hrow).
    rewrite last_length, <- !app_assoc in IH. cbn [app] in IH.
    exact IH.
Qed.

Lemma update_counter_twice (k : Z) (d : db) :
  update_counter (set_total k) (update_counter (set_total k) d)
  = update_counter (set_total k) d.
Proof.
  unfold update_counter. cbn [transaction_counter preloaded_sns validation_queue queue_seq].
  destruct (transaction_counter d); reflexivity.
Qed.

Lemma run_writes (e : env) (c : Z) (m : nat) :
  db_error e SetCounter = None ->
  forall (pre : list call) (w : world),
    fst (run e (seq (List.length pre) m) (pre ++ repeat (Updating false c) m) w)
    = pre ++ repeat (Settled (Resolved (overlapped_result c))) m /\
    store (snd (run e (seq (List.length pre) m) (pre ++ repeat (Updating false c) m) w))
    = match m with
      | O => store w
      | S _ => update_counter (set_total (c + 1)) (store w)
      end.
Proof.
  intros Hset. induction m as [|m IH]; intros pre w.
  - cbn [seq run fst snd repeat]. split; reflexivity.
  - cbn [seq run repeat]. rewrite step_nth_app.
    unfold step_call, inc_on_update, bind, emit, write_db, ret, throw.
    rewrite Hset. cbv beta iota. cbn [fst snd store trace].
    fold (overlapped_result c).
    match goal with
    | |- context [run e _ _ ?w1] =>
        specialize (IH (pre ++ [Settled (Resolved (overlapped_result c))]) w1)
    end.
    rewrite last_length, <- !app_assoc in IH. cbn [app] in IH.
    destruct IH as [IHc IHs]. split; [exact IHc|].
    rewrite IHs. cbn [store].
    destruct m; [reflexivity | apply update_counter_twice].
Qed.

Lemma successes_resolved (r : increment_result) (n : nat) :
  i_success r = true ->
  successes (repeat (Settled (Resolved r)) n) = Z.of_nat n.
Proof.
  intros Hr. induction n as [|n IH]; [reflexivity|].
  cbn [repeat]. rewrite successes_cons, IH. cbn [succeeded]. rewrite Hr. lia.
Qed.

(** X17. In trial mode below the limit, when the [db.get] callbacks
    of any number of concurrent calls all run before the first
    [db.run], every one of the calls resolves, each reporting the same
    total, and the stored counter goes up by one only: the calls
    beyond the first are not counted. *)
Theorem overlapping_calls_count_once (e : env) (n : nat) (w : world)
  (row : counter_row) :
  transaction_counter (store w) = Some row ->
  license_status row = "trial" ->
  total_transactions row < maxTrialTransactions ->
  trial_answering e ->
  let final := run e (reads_then_writes (S n)) (repeat Pending (S n)) w in
  fst final
  = repeat (Settled (Resolved (overlapped_result (total_transactions row)))) (S n) /\
  successes (fst final) = Z.of_nat (S n) /\
  transaction_counter (store (snd final))
  = Some (set_total (total_transactions row + 1) row).
Proof.
  intros Hrow Hst Hlt [Hget Hset] final. subst final.
  unfold reads_then_writes. rewrite run_app.
  destruct (run_reads e row (S n) Hst Hlt Hget [] w Hrow) as [Hcs Hstore].
  cbn [List.length app] in Hcs, Hstore. rewrite Hcs.
  destruct (run_writes e (total_transactions row) (S n) Hset []
              (snd (run e (seq 0 (S n)) (repeat Pending (S n)) w)))
    as [Hcs' Hstore'].
  cbn [List.length app] in Hcs', Hstore'.
  rewrite Hcs', Hstore', Hstore.
  split; [reflexivity|]. split.
  - apply successes_resolved. reflexivity.
  - apply update_counter_some. assumption.
Qed.

Lemma overlapping_calls_count_once_witness :
  let e := offline_env 0 in
  let w := trial_world 95 in
  let row := set_total 95 fresh_counter in
  (transaction_counter (store w) = Some row /\ license_status row = "trial" /\
   total_transactions row < maxTrialTransactions /\ trial_answering e) /\
  let final := run e (reads_then_writes 10) (repeat Pending 10) w in
  fst final = repeat (Settled (Resolved (overlapped_result 95))) 10 /\
  successes (fst final) = 10 /\
  transaction_counter (store (snd final)) = Some (set_total 96 row).
Proof.
  intros e w row.
  assert (Hlt : total_transactions row < maxTrialTransactions) by reflexivity.
  assert (He : trial_answering e) by (split; reflexivity).
  split; [repeat split; first [exact Hlt | reflexivity]|].
  exact (overlapping_calls_count_once e 9 w row eq_refl eq_refl Hlt He).
Defined.

(** ** How the operations compose *)

Lemma getActivationStatus_run (e : env) (w : world) (row : counter_row) :
  transaction_counter (store w) = Some row ->
  db_error e GetCounter = None ->
  getActivationStatus e w =
    (Resolved
       (mkStatus
          (if isTemporary e row then "temporary" else license_status row)
          (total_transactions row)
          (if String.eqb (license_status row) "activated" || isTemporary e row
           then Unlimited
           else Remaining (Z.max 0 (maxTrialTransactions - total_transactions row)))
          (String.eqb (license_status row) "activated")
          (serial_number row) (hardware_id row) (activation_date row)
          (isTemporary e row) (temporary_until row)),
     mkWorld (store w) (trace w ++ [EvDbGet TransactionCounter])).
Proof.
  intros Hrow Hget. unfold getActivationStatus, bind, emit, read_db, ret.
  rewrite Hget. cbv beta iota. cbn [store]. rewrite Hrow. reflexivity.
Qed.

(** X18. After a reset the installation reads as new, whatever it was
    before: the status is ["trial"] with 0 used and 99 remaining, not
    activated, not temporary, no serial, hardware id, activation date
    or expiry.  The reset touches the counter row only: the rows of
    the validation queue stay. *)
Theorem reset_then_status (e1 e2 : env) (w : world) (row : counter_row) :
  transaction_counter (store w) = Some row ->
  db_error e1 ResetCounter = None ->
  db_error e2 GetCounter = None ->
  exists w1 w2,
    resetTrialCounter e1 w = (Resolved (true, "Trial counter reset"), w1) /\
    getActivationStatus e2 w1
    = (Resolved (mkStatus "trial" 0 (Remaining 99) false None None None false None),
       w2) /\
    validation_queue (store w1) = validation_queue (store w) /\
    preloaded_sns (store w1) = preloaded_sns (store w).
Proof.
  intros Hrow Hreset Hget.
  unfold resetTrialCounter, bind, emit, write_db, ret.
  rewrite Hreset. cbv beta iota. cbn [store trace].
  eexists; eexists. split; [reflexivity|].
  split; [|split; reflexivity].
  rewrite (getActivationStatus_run e2 _ (reset_row row));
    [reflexivity | cbn [store]; apply update_counter_some; assumption | assumption].
Qed.

Lemma reset_then_status_witness :
  let e1 := offline_env 5000 in
  let e2 := offline_env 6000 in
  let w := snd (activateLicense (offline_env 1000) unlisted_serial "{}" new_install) in
  let row := mkCounter 0 "activated" (Some unlisted_serial)
               (Some "a1b2c3d4e5f60718-9a8b7c6d") (Some 1000) (Some 1000)
               (Some (1000 + thirty_days)) in
  (transaction_counter (store w) = Some row /\
   db_error e1 ResetCounter = None /\ db_error e2 GetCounter = None) /\
  exists w1 w2,
    resetTrialCounter e1 w = (Resolved (true, "Trial counter reset"), w1) /\
    getActivationStatus e2 w1
    = (Resolved (mkStatus "trial" 0 (Remaining 99) false None None None false None),
       w2) /\
    validation_queue (store w1) = validation_queue (store w) /\
    preloaded_sns (store w1) = preloaded_sns (store w).
Proof.
  intros e1 e2 w row.
  assert (Hrow : transaction_counter (store w) = Some row) by (vm_compute; reflexivity).
  split; [repeat split; exact Hrow|].
  exact (reset_then_status e1 e2 w row Hrow eq_refl eq_refl).
Defined.

(** X19. After a call of [activateLicense] has resolved, the status
    at any later reading of the clock is activated with unlimited
    remaining, shows the serial and the hardware id of the activation
    and the counter as it was.  It reads ["temporary"] while a
    temporary grant has not expired and ["activated"] in every other
    case: when the grace period is over the installation stays
    unlimited. *)
Theorem activation_then_status (e e2 : env) (sn ci : string) (w w' : world)
  (row : counter_row) (a : activation) :
  transaction_counter (store w) = Some row ->
  activateLicense e sn ci w = (Resolved a, w') ->
  0 <= now e ->
  db_error e2 GetCounter = None ->
  exists s w2,
    getActivationStatus e2 w' = (Resolved s, w2) /\
    s_activated s = true /\ s_remaining s = Unlimited /\
    s_totalTransactions s = total_transactions row /\
    s_serialNumber s = Some sn /\ s_hardwareId s = Some (fingerprint e) /\
    s_status s =
      (if a_temporary a && (now e2 <? now e + thirty_days)
       then "temporary" else "activated").
Proof.
  intros Hrow Hres Hnow Hget.
  destruct (activateLicense_resolved_cases e sn ci w w' a Hres)
    as (v & d1 & _ & Ha & Hstore & Hcases).
  assert (Hd1 : transaction_counter d1 = Some row).
  { destruct Hcases as [(_ & _ & _ & _ & ->) | (_ & _ & [(_ & _ & ->) | (_ & _ & ->)])];
      try assumption.
    unfold queued. destruct (db_error e InsertQueue); assumption. }
  assert (Hrow' : transaction_counter (store w')
                  = Some (set_activated e sn (fingerprint e)
                            (if v_temporary v then v_expires v else None) row))
    by (rewrite Hstore; apply update_counter_some; assumption).
  rewrite (getActivationStatus_run e2 w' _ Hrow' Hget).
  eexists; eexists. split; [reflexivity|].
  cbn [s_activated s_remaining s_totalTransactions s_serialNumber s_hardwareId
       s_status set_activated license_status total_transactions serial_number
       hardware_id].
  change (String.eqb "activated" "activated") with true. cbn [orb].
  repeat split.
  subst a. cbn [a_temporary].
  unfold isTemporary. cbn [temporary_until set_activated].
  destruct Hcases as [(_ & _ & Ht & He & _) | (_ & _ & [(_ & -> & _) | (_ & -> & _)])].
  - rewrite Ht. reflexivity.
  - reflexivity.
  - cbn [offline_grant v_temporary v_expires andb].
    assert (Hnz : (now e + thirty_days =? 0) = false)
      by (apply Z.eqb_neq; unfold thirty_days; lia).
    rewrite Hnz. cbn [negb andb]. reflexivity.
Qed.

Lemma activation_then_status_witness :
  let e := offline_env 1000 in
  let e2 := offline_env (1000 + thirty_days) in
  let run := activateLicense e unlisted_serial "{}" (trial_world 42) in
  let a := mkActivation true unlisted_serial (fingerprint e) "unknown" true
             (Some (1000 + thirty_days))
             "Temporary activation - requires online verification within 30 days" in
  (transaction_counter (store (trial_world 42)) = Some (set_total 42 fresh_counter) /\
   run = (Resolved a, snd run) /\ 0 <= now e /\ db_error e2 GetCounter = None) /\
  exists s w2,
    getActivationStatus e2 (snd run) = (Resolved s, w2) /\
    s_activated s = true /\ s_remaining s = Unlimited /\
    s_totalTransactions s = 42 /\
    s_serialNumber s = Some unlisted_serial /\ s_hardwareId s = Some (fingerprint e) /\
    s_status s = "activated".
Proof.
  intros e e2 run a.
  assert (Hrow : transaction_counter (store (trial_world 42))
                 = Some (set_total 42 fresh_counter)) by reflexivity.
  assert (Hrun : run = (Resolved a, snd run)) by (vm_compute; reflexivity).
  assert (Hnow : 0 <= now e) by (vm_compute; discriminate).
  split; [repeat split; first [exact Hrow | exact Hrun | exact Hnow]|].
  exact (activation_then_status e e2 unlisted_serial "{}" (trial_world 42) (snd run)
           _ a Hrow Hrun Hnow eq_refl).
Defined.

(** ** The activation route *)

Lemma all_chars_app (p : ascii -> bool) (a b : string) :
  JsString.all_chars p (a ++ b) = JsString.all_chars p a && JsString.all_chars p b.
Proof.
  induction a as [|c a IH]; cbn [append JsString.all_chars]; [reflexivity|].
  rewrite IH, andb_assoc. reflexivity.
Qed.

Lemma upper_alnum_dot (c : ascii) :
  JsString.is_upper_alnum c = true -> Route.dot c = true.
Proof. revert c. apply ascii_implies. vm_compute. reflexivity. Qed.

Lemma dots_app (n : nat) :
  forall g rest : string,
    String.length g = n -> JsString.all_chars Route.dot g = true ->
    Route.dots n (g ++ rest) = Some (g, rest).
Proof.
  induction n as [|n IH]; intros g rest Hl Hd.
  - destruct g; [reflexivity | discriminate].
  - destruct g as [|c g]; [discriminate|].
    cbn [JsString.all_chars] in Hd. apply andb_true_iff in Hd as [Hc Hg].
    cbn [append Route.dots]. rewrite Hc, (IH g rest); [reflexivity | | assumption].
    inversion Hl. reflexivity.
Qed.

Lemma mask_serial_eq (s : string) :
  Route.mask_serial s =
    match Route.groups_at s with
    | Some (g1, g2, _, g4, rest) =>
        (g1 ++ "-" ++ g2 ++ "-****-" ++ g4 ++ rest)%string
    | None =>
        match s with
        | EmptyString => EmptyString
        | String c s' => String c (Route.mask_serial s')
        end
    end.
Proof. destruct s; reflexivity. Qed.

Lemma mask_groups (g1 g2 g3 g4 rest : string) :
  String.length g1 = 4%nat -> String.length g2 = 4%nat ->
  String.length g3 = 6%nat -> String.length g4 = 4%nat ->
  JsString.all_chars Route.dot (g1 ++ g2 ++ g3 ++ g4) = true ->
  Route.mask_serial (g1 ++ g2 ++ g3 ++ g4 ++ rest)
  = (g1 ++ "-" ++ g2 ++ "-****-" ++ g4 ++ rest)%string.
Proof.
  intros L1 L2 L3 L4 Hd.
  rewrite !all_chars_app in Hd.
  apply andb_true_iff in Hd as [D1 Hd].
  apply andb_true_iff in Hd as [D2 Hd].
  apply andb_true_iff in Hd as [D3 D4].
  rewrite mask_serial_eq. unfold Route.groups_at.
  rewrite (dots_app 4 g1 _ L1 D1), (dots_app 4 g2 _ L2 D2),
          (dots_app 6 g3 _ L3 D3), (dots_app 4 g4 _ L4 D4).
  reflexivity.
Qed.

(** X20. What the route shows of an activated serial.  The pattern of
    the mask counts eighteen characters from the start, hyphens
    included, so of [DMPOS-YYYY-XXXXXX-CCCC] the answer hides the last
    two digits of the year and the first three characters of the third
    segment, and shows the rest: the checksum segment is revealed in
    full. *)
Theorem mask_reveals_checksum (s : string) :
  isValidSNFormat s = true ->
  exists y x c : string,
    s = ("DMPOS-" ++ y ++ "-" ++ x ++ "-" ++ c)%string /\
    Route.mask_serial s
    = ("DMPO-S-" ++ String.substring 0 2 y ++ "-****-"
         ++ String.substring 3 3 x ++ "-" ++ c)%string.
Proof.
  intros H.
  destruct (format_shape s H) as (y & x & c & E & Ly & Ay & Lx & Ax & Lc & Ac).
  exists y, x, c. split; [assumption|]. subst s.
  assert (Dy : JsString.all_chars Route.dot y = true).
  { apply (all_chars_impl JsString.is_digit); [|assumption].
    intros ch Hch. apply upper_alnum_dot, digit_upper_alnum. assumption. }
  assert (Dx : JsString.all_chars Route.dot x = true)
    by (apply (all_chars_impl JsString.is_upper_alnum); [exact upper_alnum_dot | assumption]).
  destruct y as [|y0 [|y1 [|y2 [|y3 [|? ?]]]]]; try discriminate.
  destruct x as [|x0 [|x1 [|x2 [|x3 [|x4 [|x5 [|? ?]]]]]]]; try discriminate.
  cbn [JsString.all_chars] in Dy, Dx.
  repeat match goal with
         | H : _ && _ = true |- _ => apply andb_true_iff in H as [? ?]
         end.
  change ("DMPOS-" ++ String y0 (String y1 (String y2 (String y3 "")))
            ++ "-" ++ String x0 (String x1 (String x2 (String x3 (String x4 (String x5 "")))))
            ++ "-" ++ c)%string
    with ("DMPO" ++ String "S" (String "-" (String y0 (String y1 "")))
            ++ String y2 (String y3 (String "-" (String x0 (String x1 (String x2 "")))))
            ++ String x3 (String x4 (String x5 (String "-" "")))
            ++ c)%string.
  rewrite mask_groups; try reflexivity.
  cbn [append JsString.all_chars].
  repeat match goal with
         | H : Route.dot _ = true |- _ => rewrite H; clear H
         end.
  vm_compute. reflexivity.
Qed.

Lemma mask_reveals_checksum_witness :
  isValidSNFormat unlisted_serial = true /\
  exists y x c : string,
    unlisted_serial = ("DMPOS-" ++ y ++ "-" ++ x ++ "-" ++ c)%string /\
    Route.mask_serial unlisted_serial
    = ("DMPO-S-" ++ String.substring 0 2 y ++ "-****-"
         ++ String.substring 3 3 x ++ "-" ++ c)%string.
Proof.
  split; [vm_compute; reflexivity|].
  apply (mask_reveals_checksum unlisted_serial). vm_compute. reflexivity.
Defined.

Example mask_of_unlisted_serial :
  Route.mask_serial unlisted_serial = "DMPO-S-20-****-006-0D9A".
Proof. vm_compute. reflexivity. Qed.

Lemma valid_format_not_empty (sn : string) :
  isValidSNFormat sn = true -> String.eqb sn "" = false.
Proof.
  intros H. destruct sn; [discriminate H | reflexivity].
Qed.

(** X21. When the server answers that the installations are used up,
    the route answers 409 with [MAX_INSTALLATIONS_REACHED] and passes
    on the list of installations the server named (the empty list when
    it named none); the database is untouched and, after the
    fingerprint, the one request is all that happened. *)
Theorem conflict_is_surfaced (e : env) (sn ci : string) (w : world)
  (status : Z) (validate : validate_body) :
  isValidSNFormat sn = true -> isValidCRC sn = true ->
  validate_reply e = Response status (Some validate) ->
  ok status = true ->
  vb_valid validate = false ->
  vb_reason validate = Some "MAX_INSTALLATIONS_REACHED" ->
  Route.activate e (Some sn) ci w
  = (Some (Route.mkActivateResponse 409 false (Some "MAX_INSTALLATIONS_REACHED")
             "Maksimum instalasi tercapai (3/3)." None None None None None
             (Some (match vb_installations validate with
                    | Some l => l
                    | None => []
                    end))),
     mkWorld (store w)
       (trace w ++ [EvFingerprint]
                ++ [EvFetch (railwayUrl e ++ "/api/v1/license/validate")])).
Proof.
  intros Hfmt Hcrc Hreply Hok Hvalid Hreason.
  unfold Route.activate. rewrite (valid_format_not_empty sn Hfmt).
  rewrite (activateLicense_unfold e sn ci w Hfmt Hcrc).
  unfold catch, validateOnline, fetch, json, catch, bind, emit, ret, throw,
    after_fingerprint.
  rewrite Hreply. cbv beta iota. rewrite Hok, Hvalid, Hreason.
  cbn [negb JsString.equals]. rewrite String.eqb_refl.
  unfold conclude. cbn [v_success v_code JsString.equals].
  rewrite String.eqb_refl. unfold throw. cbv beta iota.
  cbn [code JsString.equals]. rewrite String.eqb_refl.
  cbn [installations v_installations store trace].
  rewrite <- app_assoc. reflexivity.
Qed.

Lemma conflict_is_surfaced_witness :
  let validate := mkValidateBody false (Some "MAX_INSTALLATIONS_REACHED")
                    false false None None (Some ["pc-1"; "pc-2"; "pc-3"]) in
  let e := mkEnv 1000 "https://dmpos-activation.railway.app" "a1b2c3d4e5f60718-9a8b7c6d"
             (Response 200 (Some validate)) (NetworkError "unused") no_faults in
  let sn := "DMPOS-2024-000001-4005"%string in
  (isValidSNFormat sn = true /\ isValidCRC sn = true /\
   validate_reply e = Response 200 (Some validate) /\ ok 200 = true /\
   vb_valid validate = false /\
   vb_reason validate = Some "MAX_INSTALLATIONS_REACHED") /\
  Route.activate e (Some sn) "{}" new_install
  = (Some (Route.mkActivateResponse 409 false (Some "MAX_INSTALLATIONS_REACHED")
             "Maksimum instalasi tercapai (3/3)." None None None None None
             (Some ["pc-1"; "pc-2"; "pc-3"])),
     mkWorld (store new_install)
       (trace new_install ++ [EvFingerprint]
          ++ [EvFetch (railwayUrl e ++ "/api/v1/license/validate")])).
Proof.
  intros validate e sn. split.
  - repeat split; vm_compute; reflexivity.
  - apply (conflict_is_surfaced e sn "{}" new_install 200 validate);
      vm_compute; reflexivity.
Defined.

(** ** getPrimaryMacAddress *)

Lemma first_usable_some (addrs : list Mac.net_addr) (m : string) :
  Mac.first_usable addrs = Some m ->
  exists a, In a addrs /\ Mac.usable a = true /\ Mac.mac a = Some m.
Proof.
  unfold Mac.first_usable.
  destruct (find Mac.usable addrs) as [a|] eqn:Hf; [|discriminate].
  apply find_some in Hf as [Hin Hu]. intros Hm. exists a. auto.
Qed.

Lemma first_usable_none (addrs : list Mac.net_addr) :
  Mac.first_usable addrs = None ->
  forall a, In a addrs -> Mac.usable a = false.
Proof.
  unfold Mac.first_usable.
  destruct (find Mac.usable addrs) as [a|] eqn:Hf.
  - apply find_some in Hf as [_ Hu]. unfold Mac.usable in Hu.
    intros Hm. rewrite Hm in Hu. discriminate.
  - intros _ a Ha. exact (find_none _ _ Hf a Ha).
Qed.

Lemma ethernet_mac_some (ifs : Mac.interfaces) (m : string) :
  Mac.ethernet_mac ifs = Some m ->
  exists name addrs,
    In (name, addrs) ifs /\ Mac.is_ethernet name = true /\
    Mac.first_usable addrs = Some m.
Proof.
  induction ifs as [|[name addrs] ifs IH]; cbn [Mac.ethernet_mac]; [discriminate|].
  destruct (Mac.is_ethernet name) eqn:He.
  - destruct (Mac.first_usable addrs) as [m'|] eqn:Hf.
    + intros H. inversion H; subst. exists name, addrs.
      split; [left; reflexivity | auto].
    + intros H. destruct (IH H) as (n & a & Hin & Hr).
      exists n, a. split; [right; assumption | assumption].
  - intros H. destruct (IH H) as (n & a & Hin & Hr).
    exists n, a. split; [right; assumption | assumption].
Qed.

Lemma ethernet_mac_none (ifs : Mac.interfaces) :
  Mac.ethernet_mac ifs = None ->
  forall name addrs,
    In (name, addrs) ifs -> Mac.is_ethernet name = true ->
    Mac.first_usable addrs = None.
Proof.
  induction ifs as [|[name addrs] ifs IH]; cbn [Mac.ethernet_mac];
    intros H n a Hin Hn; [contradiction|].
  destruct Hin as [Heq | Hin].
  - inversion Heq; subst. rewrite Hn in H.
    destruct (Mac.first_usable a); [discriminate | reflexivity].
  - apply (IH) with (name := n); try assumption.
    destruct (Mac.is_ethernet name); [|assumption].
    destruct (Mac.first_usable addrs); [discriminate | assumption].
Qed.

Lemma any_mac_some (ifs : Mac.interfaces) (m : string) :
  Mac.any_mac ifs = Some m ->
  exists name addrs, In (name, addrs) ifs /\ Mac.first_usable addrs = Some m.
Proof.
  induction ifs as [|[name addrs] ifs IH]; cbn [Mac.any_mac]; [discriminate|].
  destruct (Mac.first_usable addrs) as [m'|] eqn:Hf.
  - intros H. inversion H; subst. exists name, addrs. split; [left; reflexivity | auto].
  - intros H. destruct (IH H) as (n & a & Hin & Hr).
    exists n, a. split; [right; assumption | assumption].
Qed.

Lemma any_mac_none (ifs : Mac.interfaces) :
  Mac.any_mac ifs = None ->
  forall name addrs, In (name, addrs) ifs -> Mac.first_usable addrs = None.
Proof.
  induction ifs as [|[name addrs] ifs IH]; cbn [Mac.any_mac];
    intros H n a Hin; [contradiction|].
  destruct (Mac.first_usable addrs) eqn:Hf; [discriminate|].
  destruct Hin as [Heq | Hin]; [inversion Heq; subst; assumption|].
  exact (IH H n a Hin).
Qed.

(** X22. [getPrimaryMacAddress] answers with an address that some
    adapter really has, non-empty and not the all-zero address; it
    answers ['no-mac-found'] only when no adapter has such an
    address. *)
Theorem getPrimaryMacAddress_sound (ifs : Mac.interfaces) :
  Mac.offers ifs (Mac.getPrimaryMacAddress ifs) \/
  (Mac.getPrimaryMacAddress ifs = "no-mac-found" /\
   forall name addrs a,
     In (name, addrs) ifs -> In a addrs -> Mac.usable a = false).
Proof.
  unfold Mac.getPrimaryMacAddress.
  destruct (Mac.ethernet_mac ifs) as [m|] eqn:He.
  - left. apply ethernet_mac_some in He as (name & addrs & Hin & _ & Hf).
    apply first_usable_some in Hf as (a & Ha & Hu & Hm).
    exists name, addrs, a. auto.
  - destruct (Mac.any_mac ifs) as [m|] eqn:Ha.
    + left. apply any_mac_some in Ha as (name & addrs & Hin & Hf).
      apply first_usable_some in Hf as (a & Ha & Hu & Hm).
      exists name, addrs, a. auto.
    + right. split; [reflexivity|].
      intros name addrs a Hin Hia.
      exact (first_usable_none addrs (any_mac_none ifs Ha name addrs Hin) a Hia).
Qed.

(** X23. A wired adapter wins.  As soon as an adapter whose name
    contains [eth] in any case has a usable address, the answer is the
    first usable address of such an adapter, wherever it stands in the
    list and whatever the other adapters have. *)
Theorem getPrimaryMacAddress_prefers_ethernet (ifs : Mac.interfaces)
  (name : string) (addrs : list Mac.net_addr) (a : Mac.net_addr) :
  In (name, addrs) ifs -> Mac.is_ethernet name = true ->
  In a addrs -> Mac.usable a = true ->
  exists name' addrs',
    In (name', addrs') ifs /\ Mac.is_ethernet name' = true /\
    Mac.first_usable addrs' = Some (Mac.getPrimaryMacAddress ifs).
Proof.
  intros Hin Hn Ha Hu. unfold Mac.getPrimaryMacAddress.
  destruct (Mac.ethernet_mac ifs) as [m|] eqn:He.
  - exact (ethernet_mac_some ifs m He).
  - exfalso.
    pose proof (first_usable_none addrs (ethernet_mac_none ifs He name addrs Hin Hn) a Ha).
    congruence.
Qed.

Lemma getPrimaryMacAddress_prefers_ethernet_witness :
  let wifi := ("Wi-Fi", [Mac.mkAddr (Some "a4:5e:60:01:02:03")]) in
  let wired := ("vEthernet (WSL)",
                 [Mac.mkAddr (Some "00:00:00:00:00:00");
                  Mac.mkAddr (Some "00:15:5d:0a:0b:0c")]) in
  let ifs := [wifi; wired] in
  (In wired ifs /\ Mac.is_ethernet "vEthernet (WSL)" = true /\
   In (Mac.mkAddr (Some "00:15:5d:0a:0b:0c")) (snd wired) /\
   Mac.usable (Mac.mkAddr (Some "00:15:5d:0a:0b:0c")) = true) /\
  Mac.getPrimaryMacAddress ifs = "00:15:5d:0a:0b:0c" /\
  exists name' addrs',
    In (name', addrs') ifs /\ Mac.is_ethernet name' = true /\
    Mac.first_usable addrs' = Some (Mac.getPrimaryMacAddress ifs).
Proof.
  intros wifi wired ifs.
  assert (H1 : In wired ifs) by (right; left; reflexivity).
  assert (H3 : In (Mac.mkAddr (Some "00:15:5d:0a:0b:0c")) (snd wired))
    by (right; left; reflexivity).
  split; [repeat split; first [exact H1 | exact H3 | reflexivity]|].
  split; [reflexivity|].
  exact (getPrimaryMacAddress_prefers_ethernet ifs "vEthernet (WSL)" (snd wired)
           (Mac.mkAddr (Some "00:15:5d:0a:0b:0c")) H1 eq_refl H3 eq_refl).
Defined.

(** ** The middleware *)

(** X24. [authenticateToken] takes as token the second word of the
    [Authorization] header, the words being separated by single
    spaces, and does not look at the first word: any scheme, even an
    empty one, is accepted.  It answers 401 when the header has no
    space or the second word is empty (two spaces in a row), 403 when
    the token does not verify, and passes the payload on otherwise. *)
Theorem authenticateToken_second_word (verify : string -> option Auth.user)
  (auth : string) :
  (JsString.free_of " " auth = true /\
   Auth.authenticateToken verify (Some auth) = Auth.Deny 401 "Token tidak ditemukan")
  \/
  (exists scheme token more : string,
     auth = (scheme ++ " " ++ token ++ more)%string /\
     JsString.free_of " " scheme = true /\ JsString.free_of " " token = true /\
     (more = ""%string \/ exists r, more = String " " r) /\
     Auth.authenticateToken verify (Some auth) =
       if String.eqb token "" then Auth.Deny 401 "Token tidak ditemukan"
       else match verify token with
            | None => Auth.Deny 403 "Token tidak valid"
            | Some u => Auth.Next (Some u)
            end).
Proof.
  unfold Auth.authenticateToken.
  destruct (JsString.split " " auth) as [|a l] eqn:Hs;
    [exfalso; exact (split_not_nil _ _ Hs)|].
  apply split_head in Hs as [Fa [[Hl Ha] | (rest & Ha & Hrest)]].
  - left. subst l a. split; [assumption|].
    destruct (String.eqb auth ""); reflexivity.
  - right.
    destruct l as [|t l']; [exfalso; exact (split_not_nil _ _ Hrest)|].
    apply split_head in Hrest as [Ft Hmore].
    assert (Hne : String.eqb auth "" = false).
    { subst auth. destruct a; reflexivity. }
    rewrite Hne. cbn [nth_error].
    destruct Hmore as [[Hl' Hr] | (rest' & Hr & _)].
    + exists a, t, ""%string. subst rest auth.
      rewrite append_empty_r. repeat split; auto.
    + exists a, t, (String " " rest'). subst rest auth.
      repeat split; auto. right. eexists. reflexivity.
Qed.

Example authenticateToken_samples :
  let verify := fun t => if String.eqb t "good"
                         then Some (Auth.mkUser 1 (Some "kasir")) else None in
  map (Auth.authenticateToken verify)
    [None; Some ""; Some "good"; Some "Bearer good"; Some "Basic good";
     Some " good"; Some "Bearer  good"; Some "Bearer good extra"; Some "Bearer bad"]
  = [Auth.Deny 401 "Token tidak ditemukan"; Auth.Deny 401 "Token tidak ditemukan";
     Auth.Deny 401 "Token tidak ditemukan";
     Auth.Next (Some (Auth.mkUser 1 (Some "kasir")));
     Auth.Next (Some (Auth.mkUser 1 (Some "kasir")));
     Auth.Next (Some (Auth.mkUser 1 (Some "kasir")));
     Auth.Deny 401 "Token tidak ditemukan";
     Auth.Next (Some (Auth.mkUser 1 (Some "kasir")));
     Auth.Deny 403 "Token tidak valid"].
Proof. vm_compute. reflexivity. Qed.

(** X25. A request gets past [authenticateToken] followed by
    [authorizeAdminOrManager] only with a token that verifies and
    whose payload has the role [admin] or [manager]. *)
Theorem guard_lets_managers_through (verify : string -> option Auth.user)
  (authorization : option string) (u : option Auth.user) :
  Auth.guard verify authorization = Auth.Next u ->
  exists usr token,
    u = Some usr /\ verify token = Some usr /\
    (Auth.u_role usr = Some "admin" \/ Auth.u_role usr = Some "manager").
Proof.
  unfold Auth.guard.
  destruct (Auth.authenticateToken verify authorization) as [[usr|] | st msg] eqn:Ha;
    try discriminate.
  - assert (Hv : exists token, verify token = Some usr).
    { unfold Auth.authenticateToken in Ha.
      destruct (match authorization with
                | Some auth => if String.eqb auth "" then Some ""%string
                               else nth_error (JsString.split " " auth) 1
                | None => None
                end) as [t|]; [|discriminate].
      destruct (String.eqb t ""); [discriminate|].
      destruct (verify t) as [u'|] eqn:Hv; [|discriminate].
      inversion Ha; subst. exists t. assumption. }
    destruct Hv as [token Hv].
    unfold Auth.authorizeAdminOrManager.
    destruct (JsString.equals (Auth.u_role usr) "admin") eqn:E1;
      [|destruct (JsString.equals (Auth.u_role usr) "manager") eqn:E2];
      cbn [negb andb]; intros H; inversion H; subst.
    + exists usr, token. repeat split; [assumption|]. left.
      unfold JsString.equals in E1. destruct (Auth.u_role usr); [|discriminate].
      apply String.eqb_eq in E1. subst. reflexivity.
    + exists usr, token. repeat split; [assumption|]. right.
      unfold JsString.equals in E2. destruct (Auth.u_role usr); [|discriminate].
      apply String.eqb_eq in E2. subst. reflexivity.
  - unfold Auth.authenticateToken in Ha.
    destruct (match authorization with
              | Some auth => if String.eqb auth "" then Some ""%string
                             else nth_error (JsString.split " " auth) 1
              | None => None
              end) as [t|]; [|discriminate].
    destruct (String.eqb t ""); [discriminate|].
    destruct (verify t); discriminate.
Qed.

Lemma guard_lets_managers_through_witness :
  let verify := fun t => if String.eqb t "good"
                         then Some (Auth.mkUser 1 (Some "manager")) else None in
  Auth.guard verify (Some "Bearer good")
  = Auth.Next (Some (Auth.mkUser 1 (Some "manager"))) /\
  exists usr token,
    Some (Auth.mkUser 1 (Some "manager")) = Some usr /\ verify token = Some usr /\
    (Auth.u_role usr = Some "admin" \/ Auth.u_role usr = Some "manager").
Proof.
  intros verify.
  assert (H : Auth.guard verify (Some "Bearer good")
              = Auth.Next (Some (Auth.mkUser 1 (Some "manager")))) by reflexivity.
  split; [exact H|].
  exact (guard_lets_managers_through verify (Some "Bearer good") _ H).
Defined.

(** ** Starting the backend again *)

Lemma find_app {A} (f : A -> bool) (l l' : list A) :
  find f (l ++ l') = match find f l with
                     | Some x => Some x
                     | None => find f l'
                     end.
Proof.
  induction l as [|x l IH]; cbn [app find]; [reflexivity|].
  destruct (f x); [reflexivity | exact IH].
Qed.

Lemma insert_keeps_has (rows : list preloaded_row) (sn sn' : string) :
  has_sn rows sn' = true -> has_sn (insert_or_ignore_sn rows sn) sn' = true.
Proof.
  intros H. unfold insert_or_ignore_sn. fold (has_sn rows sn).
  destruct (has_sn rows sn); [assumption|].
  unfold has_sn in *. rewrite existsb_app, H. reflexivity.
Qed.

Lemma insert_has (rows : list preloaded_row) (sn : string) :
  has_sn (insert_or_ignore_sn rows sn) sn = true.
Proof.
  unfold insert_or_ignore_sn. fold (has_sn rows sn).
  destruct (has_sn rows sn) eqn:H; [assumption|].
  unfold has_sn. rewrite existsb_app. cbn [existsb p_serial_number].
  rewrite String.eqb_refl. apply orb_true_r.
Qed.

Lemma inserts_keep_has (sns : list string) :
  forall (rows : list preloaded_row) (sn' : string),
    has_sn rows sn' = true ->
    has_sn (fold_left insert_or_ignore_sn sns rows) sn' = true.
Proof.
  induction sns as [|sn sns IH]; intros rows sn' H; cbn [fold_left]; [assumption|].
  apply IH, insert_keeps_has. assumption.
Qed.

Lemma inserts_have (sns : list string) :
  forall (rows : list preloaded_row) (sn : string),
    In sn sns -> has_sn (fold_left insert_or_ignore_sn sns rows) sn = true.
Proof.
  induction sns as [|s sns IH]; intros rows sn Hin; [contradiction|].
  cbn [fold_left]. destruct Hin as [-> | Hin].
  - apply inserts_keep_has, insert_has.
  - apply IH. assumption.
Qed.

Lemma inserts_nothing (sns : list string) :
  forall rows : list preloaded_row,
    (forall sn, In sn sns -> has_sn rows sn = true) ->
    fold_left insert_or_ignore_sn sns rows = rows.
Proof.
  induction sns as [|s sns IH]; intros rows H; cbn [fold_left]; [reflexivity|].
  assert (Hs : insert_or_ignore_sn rows s = rows).
  { unfold insert_or_ignore_sn. fold (has_sn rows s).
    rewrite (H s (or_introl eq_refl)). reflexivity. }
  rewrite Hs. apply IH. intros sn Hin. apply H. right. assumption.
Qed.

Lemma insert_keeps_lookup (rows : list preloaded_row) (sn sn' : string)
  (r : preloaded_row) :
  find (fun x => String.eqb (p_serial_number x) sn') rows = Some r ->
  find (fun x => String.eqb (p_serial_number x) sn') (insert_or_ignore_sn rows sn)
  = Some r.
Proof.
  intros H. unfold insert_or_ignore_sn.
  destruct (existsb _ rows); [assumption|].
  rewrite find_app, H. reflexivity.
Qed.

Lemma inserts_keep_lookup (sns : list string) :
  forall (rows : list preloaded_row) (sn' : string) (r : preloaded_row),
    find (fun x => String.eqb (p_serial_number x) sn') rows = Some r ->
    find (fun x => String.eqb (p_serial_number x) sn')
         (fold_left insert_or_ignore_sn sns rows) = Some r.
Proof.
  induction sns as [|sn sns IH]; intros rows sn' r H; cbn [fold_left]; [assumption|].
  apply IH, insert_keeps_lookup. assumption.
Qed.

(** X26. Starting the backend runs [initDB] again, and that changes
    nothing the installation has recorded: on a database whose counter
    row exists the row, the queue and its sequence are kept, and every
    serial already in the preloaded table keeps its row, so a serial
    marked invalid is not made valid again by the test serials. *)
Theorem restart_keeps_state (d : db) (row : counter_row) :
  transaction_counter d = Some row ->
  transaction_counter (run_initDB d) = Some row /\
  validation_queue (run_initDB d) = validation_queue d /\
  queue_seq (run_initDB d) = queue_seq d /\
  forall sn r,
    lookup_preloaded sn d = Some r -> lookup_preloaded sn (run_initDB d) = Some r.
Proof.
  intros Hrow. unfold run_initDB.
  cbn [transaction_counter validation_queue queue_seq].
  rewrite Hrow. repeat split.
  intros sn r H. unfold lookup_preloaded in *. cbn [preloaded_sns].
  apply inserts_keep_lookup. assumption.
Qed.

Lemma restart_keeps_state_witness :
  let row := mkCounter 57 "activated" (Some unlisted_serial) (Some "hw")
               (Some 1000) (Some 1000) None in
  let d := mkDb (Some row) [mkPreloaded "DMPOS-2024-000001-4005" false 3 (Some "standard")]
             [mkQueue 1 unlisted_serial "hw" 1000 0 "pending"] 1 in
  transaction_counter d = Some row /\
  transaction_counter (run_initDB d) = Some row /\
  validation_queue (run_initDB d) = validation_queue d /\
  queue_seq (run_initDB d) = queue_seq d /\
  forall sn r,
    lookup_preloaded sn d = Some r -> lookup_preloaded sn (run_initDB d) = Some r.
Proof.
  intros row d. split; [reflexivity|].
  exact (restart_keeps_state d row eq_refl).
Defined.

(** X27. [initDB] is idempotent, and on the empty database file it
    gives the state of a new installation: a trial counter at 0 and the
    five test serials, each once. *)
Theorem initDB_idempotent (d : db) :
  run_initDB (run_initDB d) = run_initDB d /\ run_initDB empty_db = initDB.
Proof.
  split; [|reflexivity].
  unfold run_initDB. cbn [transaction_counter preloaded_sns validation_queue queue_seq].
  f_equal.
  - destruct (transaction_counter d); reflexivity.
  - apply inserts_nothing. intros sn Hin. apply inserts_have. assumption.
Qed.

(** ** The fingerprint *)

(** The digest agrees with the examples of FIPS 180-4. *)
Example sha256_empty :
  SHA256.sha256_hex ""
  = "e3b0c44298fc1c149afbf4c8996fb92427ae41e4649b934ca495991b7852b855".
Proof. vm_compute. reflexivity. Qed.

Example sha256_abc :
  SHA256.sha256_hex "abc"
  = "ba7816bf8f01cfea414140de5dae2223b00361a396177a9cb410ff61f20015ad".
Proof. vm_compute. reflexivity. Qed.

Example sha256_two_blocks :
  SHA256.sha256_hex "abcdbcdecdefdefgefghfghighijhijkijkljklmklmnlmnomnopnopq"
  = "248d6a61d20638b8e5c026930c3e6039a33ce45964ff2167f6ecedd419db06c1".
Proof. vm_compute. reflexivity. Qed.

Example stringify_stable_sample :
  let s := Fingerprint.mkStable "Intel(R) Core(TM) i5-8250U CPU @ 1.60GHz" "x64"
             "linux" "linux-motherboard"
             (String "a" (String "b" (String "c"
                (String Fingerprint.dquote (String "d" (String "e" (String "f"
                   (String Fingerprint.backslash EmptyString)))))))) in
  SHA256.sha256_hex (Fingerprint.stringify_stable s)
  = "6b13eaf86c8591f81d9937dea8dbffc0d5dc6f42b0263390937e9af0bfcae2d2".
Proof. vm_compute. reflexivity. Qed.

Example dot_line_terminators :
  Route.dot "010" = false /\ Route.dot "013" = false /\ Route.dot "-" = true.
Proof. vm_compute. auto. Qed.

Lemma hex_app (l1 l2 : list Z) :
  MD5.hex (l1 ++ l2) = (MD5.hex l1 ++ MD5.hex l2)%string.
Proof.
  induction l1 as [|b l1 IH]; cbn [app MD5.hex append]; [reflexivity|].
  rewrite IH. reflexivity.
Qed.

Lemma hex_length (bs : list Z) :
  String.length (MD5.hex bs) = (2 * List.length bs)%nat.
Proof.
  induction bs as [|b bs IH]; cbn [MD5.hex String.length List.length]; [reflexivity|].
  rewrite IH. lia.
Qed.

Lemma hex_digit_lower (n : Z) :
  0 <= n < 16 -> Fingerprint.is_lower_hex (MD5.hex_digit n) = true.
Proof.
  intros Hn.
  assert (H : forallb (fun k => Fingerprint.is_lower_hex (MD5.hex_digit (Z.of_nat k)))
                (seq 0 16) = true) by (vm_compute; reflexivity).
  rewrite forallb_forall in H.
  specialize (H (Z.to_nat n)). rewrite Z2Nat.id in H by lia.
  apply H. apply in_seq. lia.
Qed.

Lemma hex_lower (bs : list Z) :
  Forall byte_range bs ->
  JsString.all_chars Fingerprint.is_lower_hex (MD5.hex bs) = true.
Proof.
  induction 1 as [|b bs Hb _ IH]; cbn [MD5.hex JsString.all_chars]; [reflexivity|].
  unfold byte_range in Hb.
  rewrite !hex_digit_lower, IH; [reflexivity | |].
  - apply Z.mod_pos_bound. lia.
  - split; [apply Z.div_pos; lia | apply Z.div_lt_upper_bound; lia].
Qed.

Lemma be_bytes_range (n : nat) (x : Z) : Forall byte_range (SHA256.be_bytes n x).
Proof.
  unfold SHA256.be_bytes. apply Forall_forall. intros b Hb.
  apply in_map_iff in Hb as (k & <- & _).
  apply Z.mod_pos_bound. lia.
Qed.

Lemma length_append (p q : string) :
  String.length (p ++ q) = (String.length p + String.length q)%nat.
Proof.
  induction p as [|c p IH]; cbn [append String.length]; [reflexivity|].
  rewrite IH. reflexivity.
Qed.

Lemma substring_app_prefix (p q : string) :
  String.substring 0 (String.length p) (p ++ q) = p.
Proof.
  induction p as [|c p IH]; cbn [String.length append String.substring].
  - destruct q; reflexivity.
  - rewrite IH. reflexivity.
Qed.

(** The digest is 32 bytes; its first 12 are three big-endian words. *)
Lemma sha256_digest_shape (bs : list Z) :
  exists a b c rest,
    SHA256.digest bs
    = SHA256.be_bytes 4 a ++ SHA256.be_bytes 4 b ++ SHA256.be_bytes 4 c ++ rest.
Proof.
  unfold SHA256.digest.
  destruct (fold_left SHA256.block _ SHA256.init) as [[[[[[[a b] c] d] e] f] g] h].
  eexists; eexists; eexists; eexists. reflexivity.
Qed.

Lemma sha256_hex_prefix (s : string) :
  (String.length (String.substring 0 8 (SHA256.sha256_hex s)) = 8%nat /\
   JsString.all_chars Fingerprint.is_lower_hex
     (String.substring 0 8 (SHA256.sha256_hex s)) = true) /\
  (String.length (String.substring 0 16 (SHA256.sha256_hex s)) = 16%nat /\
   JsString.all_chars Fingerprint.is_lower_hex
     (String.substring 0 16 (SHA256.sha256_hex s)) = true) /\
  (String.length (String.substring 0 24 (SHA256.sha256_hex s)) = 24%nat /\
   JsString.all_chars Fingerprint.is_lower_hex
     (String.substring 0 24 (SHA256.sha256_hex s)) = true).
Proof.
  unfold SHA256.sha256_hex.
  destruct (sha256_digest_shape (MD5.bytes_of s)) as (a & b & c & rest & E).
  rewrite E. clear E.
  pose proof (be_bytes_range 4 a) as Ra.
  pose proof (be_bytes_range 4 b) as Rb.
  pose proof (be_bytes_range 4 c) as Rc.
  assert (La : String.length (MD5.hex (SHA256.be_bytes 4 a)) = 8%nat)
    by (rewrite hex_length; reflexivity).
  assert (Lb : String.length (MD5.hex (SHA256.be_bytes 4 b)) = 8%nat)
    by (rewrite hex_length; reflexivity).
  assert (Lc : String.length (MD5.hex (SHA256.be_bytes 4 c)) = 8%nat)
    by (rewrite hex_length; reflexivity).
  rewrite !hex_app.
  set (ha := MD5.hex (SHA256.be_bytes 4 a)) in *.
  set (hb := MD5.hex (SHA256.be_bytes 4 b)) in *.
  set (hc := MD5.hex (SHA256.be_bytes 4 c)) in *.
  set (hr := MD5.hex rest).
  assert (Ha : JsString.all_chars Fingerprint.is_lower_hex ha = true)
    by (apply hex_lower; assumption).
  assert (Hb : JsString.all_chars Fingerprint.is_lower_hex hb = true)
    by (apply hex_lower; assumption).
  assert (Hc : JsString.all_chars Fingerprint.is_lower_hex hc = true)
    by (apply hex_lower; assumption).
  assert (L2 : String.length (ha ++ hb) = 16%nat)
    by (rewrite length_append, La, Lb; reflexivity).
  assert (L3 : String.length (ha ++ hb ++ hc) = 24%nat)
    by (rewrite !length_append, La, Lb, Lc; reflexivity).
  assert (E1 : String.substring 0 8 (ha ++ hb ++ hc ++ hr) = ha)
    by (rewrite <- La at 1; apply substring_app_prefix).
  assert (E2 : String.substring 0 16 (ha ++ hb ++ hc ++ hr) = (ha ++ hb)%string).
  { rewrite <- L2 at 1. rewrite <- (substring_app_prefix (ha ++ hb) (hc ++ hr)) at 2.
    rewrite append_assoc. reflexivity. }
  assert (E3 : String.substring 0 24 (ha ++ hb ++ hc ++ hr) = (ha ++ hb ++ hc)%string).
  { rewrite <- L3 at 1. rewrite <- (substring_app_prefix (ha ++ hb ++ hc) hr) at 2.
    rewrite !append_assoc. reflexivity. }
  rewrite E1, E2, E3, !all_chars_app, Ha, Hb, Hc.
  repeat split; assumption.
Qed.

(** X28. A hardware fingerprint has one of two shapes.  Computed from
    the probes it is 16 lowercase hex digits, a hyphen and 8 lowercase
    hex digits, 25 characters in all, the first part from the stable
    components and the second from the semi-stable ones; computed by
    the fallback it is 24 lowercase hex digits. *)
Theorem fingerprint_shape (gathered : option Fingerprint.components)
  (b : Fingerprint.basic_info) :
  let id := Fingerprint.generateHardwareFingerprint gathered b in
  match gathered with
  | Some c =>
      exists p q : string,
        id = (p ++ "-" ++ q)%string /\
        p = String.substring 0 16
              (SHA256.sha256_hex (Fingerprint.stringify_stable (Fingerprint.c_stable c))) /\
        String.length p = 16%nat /\ String.length q = 8%nat /\
        JsString.all_chars Fingerprint.is_lower_hex p = true /\
        JsString.all_chars Fingerprint.is_lower_hex q = true
  | None =>
      String.length id = 24%nat /\
      JsString.all_chars Fingerprint.is_lower_hex id = true
  end.
Proof.
  destruct gathered as [c|]; cbn [Fingerprint.generateHardwareFingerprint].
  - unfold Fingerprint.createFlexibleFingerprint.
    destruct (sha256_hex_prefix (Fingerprint.stringify_stable (Fingerprint.c_stable c)))
      as (_ & [L16 H16] & _).
    destruct (sha256_hex_prefix
                (Fingerprint.stringify_semiStable (Fingerprint.c_semiStable c)))
      as ([L8 H8] & _).
    eexists; eexists. split; [reflexivity|]. repeat split; assumption.
  - unfold Fingerprint.createBasicFingerprint.
    destruct (sha256_hex_prefix (Fingerprint.stringify_basic b)) as (_ & _ & H).
    exact H.
Qed.

(** X29. The fallback never reproduces the fingerprint of the probes:
    whatever the machine, when [gatherHardwareInfo] throws the hardware
    id (24 characters) differs from every id computed from probes (25
    characters), so an activation bound to one does not match the
    other. *)
Theorem fallback_changes_fingerprint (c : Fingerprint.components)
  (b b' : Fingerprint.basic_info) :
  String.length (Fingerprint.generateHardwareFingerprint (Some c) b) = 25%nat /\
  String.length (Fingerprint.generateHardwareFingerprint None b') = 24%nat /\
  String.eqb (Fingerprint.generateHardwareFingerprint (Some c) b)
             (Fingerprint.generateHardwareFingerprint None b') = false.
Proof.
  cbn [Fingerprint.generateHardwareFingerprint].
  unfold Fingerprint.createFlexibleFingerprint, Fingerprint.createBasicFingerprint.
  destruct (sha256_hex_prefix (Fingerprint.stringify_stable (Fingerprint.c_stable c)))
    as (_ & [L16 _] & _).
  destruct (sha256_hex_prefix
              (Fingerprint.stringify_semiStable (Fingerprint.c_semiStable c)))
    as ([L8 _] & _).
  destruct (sha256_hex_prefix (Fingerprint.stringify_basic b')) as (_ & _ & [L24 _]).
  assert (L25 : String.length
                  (String.substring 0 16
                     (SHA256.sha256_hex (Fingerprint.stringify_stable (Fingerprint.c_stable c)))
                   ++ "-"
                   ++ String.substring 0 8
                        (SHA256.sha256_hex
                           (Fingerprint.stringify_semiStable (Fingerprint.c_semiStable c))))
                = 25%nat)
    by (rewrite !length_append, L16, L8; reflexivity).
  split; [exact L25|]. split; [exact L24|].
  apply String.eqb_neq. intros E. rewrite E, L24 in L25. discriminate.
Qed.
